(** * Uniflow backend: price cache, pricing client and the positions route

    A shallow embedding of [src/core/PriceService.ts] (class [PriceService])
    and of the [GET /v4/positions/:walletAddress] handler of
    [src/api/routes.ts] ([createRouter]), together with a model of the
    position aggregator [UniswapV4Service], taken from the specification
    because its source file is not among the sources at hand.  The
    embedding also covers the request validation of
    [src/api/middleware.ts], the wallet routes of [createRouter] and the
    /transact command of the Telegram bot ([handleTransact]).

    Conventions of the embedding.
    - JavaScript strings are modelled by [string] (sequences of 8-bit
      characters); token addresses, chain ids and JSON keys are ASCII, and
      [toLowerCase] and white space are modelled on ASCII only.  Where a
      user id or the text of a message is trimmed or lowercased, or a
      chain id is read by [parseInt], the theorems assume it to be ASCII
      ([asciiText]).
    - Values of TypeScript type [any] (the body of the pricing response and
      everything read from it) are modelled by [JsValue].
    - [Date.now()] is an oracle: the k-th reading made during a call is
      [Date_now env k].  Nothing is assumed about successive readings.
    - The HTTP client is an oracle as well: [axios_get env req] is the way
      the promise returned by [axios.get] settles.
    - One call runs at a time: while a call is suspended on the HTTP
      request nobody else touches the cache.
    - Console output is not modelled, except that evaluating the template
      of the log line "Fetched ..." may throw: in the conversion of
      [symbol] to a string and in [priceUsd.toFixed(2)]. *)

From Stdlib Require Import ZArith QArith String Ascii List Lia Bool.
From stdpp Require Import gmap strings list pretty.

Set Warnings "-register-all".

Local Open Scope string_scope.
Local Open Scope Z_scope.

(** ** JavaScript values and strings *)

Module Js.

(** [String.prototype.toLowerCase] on ASCII: the letters A-Z are mapped to
    a-z, every other character is left as it is. *)
Definition lower_char (c : ascii) : ascii :=
  let n := nat_of_ascii c in
  if ((65 <=? n) && (n <=? 90))%nat then ascii_of_nat (n + 32) else c.

Fixpoint toLowerCase (s : string) : string :=
  match s with
  | EmptyString => EmptyString
  | String c s' => String (lower_char c) (toLowerCase s')
  end.

(** A string of ASCII characters.  On such a string the models of
    [trim], of the white space that [parseInt] skips and of [toLowerCase]
    are the functions of JavaScript; outside ASCII those also know the
    white space and the letters of Unicode. *)
Fixpoint asciiText (s : string) : bool :=
  match s with
  | EmptyString => true
  | String c s' => (nat_of_ascii c <? 128)%nat && asciiText s'
  end.

(** [Array.prototype.join]. *)
Definition join (sep : string) (l : list string) : string :=
  String.concat sep l.

(** A JSON-like value.  Numbers are rationals.  [JObj] lists the own
    properties of an object, the binding that is in force for a key being
    the first one in the list. *)
Inductive JsValue : Type :=
| JUndefined
| JNull
| JBool (b : bool)
| JNum (n : Q)
| JStr (s : string)
| JArr (items : list JsValue)
| JObj (props : list (string * JsValue)).

(** ToBoolean. *)
Definition truthy (v : JsValue) : bool :=
  match v with
  | JUndefined | JNull => false
  | JBool b => b
  | JNum n => negb (Qnum n =? 0)
  | JStr s => negb (String.eqb s "")
  | JArr _ | JObj _ => true
  end.

Definition digit_of (c : ascii) : option nat :=
  let n := nat_of_ascii c in
  if ((48 <=? n) && (n <=? 57))%nat then Some (n - 48)%nat else None.

Fixpoint digits_value (acc : nat) (s : string) : option nat :=
  match s with
  | EmptyString => Some acc
  | String c s' =>
      match digit_of c with
      | Some d => digits_value (10 * acc + d) s'
      | None => None
      end
  end.

(** A property key that is an array index: a canonical decimal numeral. *)
Definition array_index (k : string) : option nat :=
  match k with
  | EmptyString => None
  | String "0" EmptyString => Some 0%nat
  | String "0" _ => None
  | _ => digits_value 0 k
  end.

Fixpoint assoc (k : string) (props : list (string * JsValue)) : JsValue :=
  match props with
  | [] => JUndefined
  | (k', v) :: rest => if String.eqb k k' then v else assoc k rest
  end.

(** The property read [v[k]] on own properties.  Properties inherited from
    a prototype (all of them functions or prototype objects, none of which
    has a [quote] or a [data] member) read as [JUndefined] here, like a
    missing key.  A read on [undefined] or [null] throws in JavaScript; the
    code below reads properties of truthy values only. *)
Definition get (v : JsValue) (k : string) : JsValue :=
  match v with
  | JObj props => assoc k props
  | JArr items =>
      if String.eqb k "length" then JNum (inject_Z (Z.of_nat (length items)))
      else match array_index k with
           | Some i => nth i items JUndefined
           | None => JUndefined
           end
  | JStr s =>
      if String.eqb k "length" then JNum (inject_Z (Z.of_nat (String.length s)))
      else match array_index k with
           | Some i => match String.get i s with
                       | Some c => JStr (String c EmptyString)
                       | None => JUndefined
                       end
           | None => JUndefined
           end
  | _ => JUndefined
  end.

(** [a || b]. *)
Definition or_else (a b : JsValue) : JsValue := if truthy a then a else b.

Definition is_number (v : JsValue) : bool :=
  match v with JNum _ => true | _ => false end.

(** ToString, as a template literal applies it, returns for this value.
    For an object ToString calls its [toString], and then its [valueOf]:
    an own member [toString] of a decoded body is never a function and
    shadows the inherited one, and the inherited [valueOf] returns the
    object itself, so that ToString throws a [TypeError].  For an array it
    joins the elements, converting each one that is not undefined or
    null. *)
Fixpoint printable (v : JsValue) : bool :=
  match v with
  | JArr items => forallb printable items
  | JObj props => negb (existsb (fun kv => String.eqb (fst kv) "toString") props)
  | _ => true
  end.

End Js.

Export Js.

(** ** PriceService ([src/core/PriceService.ts]) *)

Module PriceService.

(** [PriceData], with the members [getTokenPrices] stores.  The price and
    the symbol come straight out of the response body, so they are
    [JsValue]s. *)
Record PriceData := mkPriceData {
  address : string;
  symbol : JsValue;
  priceUsd : JsValue;
  timestamp : Z
}.

(** The service object: [this.apiKey] and [this.priceCache]. *)
Record Service := mkService {
  apiKey : string;
  priceCache : gmap string PriceData
}.

Definition CACHE_TTL_MS : Z := 60000.
Definition CMC_API_BASE : string := "https://pro-api.coinmarketcap.com".

(** The arguments of the one [axios.get] call of the class. *)
Record Request := mkRequest {
  url : string;
  params_address : string;
  params_convert : string;
  params_aux : string;
  header_X_CMC_PRO_API_KEY : string;
  timeout : Z
}.

(** How the promise of [axios.get] settles: rejected (time-out, network
    error, status outside 2xx), or resolved with a response object whose
    [data] member is the decoded body. *)
Inductive Reply :=
| Rejected
| Resolved (data : JsValue).

(** The surroundings of a call: the clock and the HTTP client. *)
Record Env := mkEnv {
  Date_now : nat -> Z;
  axios_get : Request -> Reply
}.

(** What a call does to the outside, in order. *)
Inductive Event :=
| CacheGet (key : string)
| HttpGet (req : Request).

(** The state a call of [getTokenPrices] works on: the cache of the
    service, its locals [result] and [uncachedAddresses], the number of
    clock readings taken and the events so far. *)
Record Frame := mkFrame {
  cache : gmap string PriceData;
  result : gmap string JsValue;
  uncachedAddresses : list string;
  ticks : nat;
  trace : list Event
}.

(** *** State and exceptions *)

Inductive Completion (A : Type) :=
| Normal (a : A)
| Thrown.
Arguments Normal {A} a.
Arguments Thrown {A}.

Definition Exec (A : Type) : Type := Frame -> Completion A * Frame.

Definition ret {A} (a : A) : Exec A := fun f => (Normal a, f).

Definition bind {A B} (m : Exec A) (k : A -> Exec B) : Exec B :=
  fun f =>
    match m f with
    | (Normal a, f') => k a f'
    | (Thrown, f') => (Thrown, f')
    end.

Definition throw {A} : Exec A := fun f => (Thrown, f).

(** [try { body } catch (error) { handler }]: the handler starts from the
    state the body had reached when it threw. *)
Definition try_catch (body handler : Exec unit) : Exec unit :=
  fun f =>
    match body f with
    | (Normal a, f') => (Normal a, f')
    | (Thrown, f') => handler f'
    end.

Declare Scope exec_scope.
Delimit Scope exec_scope with exec.
Notation "x <- m ;; k" := (bind m (fun x => k))
  (at level 100, m at next level, right associativity) : exec_scope.
Notation "m ;; k" := (bind m (fun _ => k))
  (at level 100, right associativity) : exec_scope.
Local Open Scope exec_scope.

(** [for (const x of l) body(x)] and [l.forEach(body)]. *)
Fixpoint forEach {A} (l : list A) (body : A -> Exec unit) : Exec unit :=
  match l with
  | [] => ret tt
  | x :: l' => body x ;; forEach l' body
  end.

(** *** Primitive steps *)

Definition emit (e : Event) : Exec unit :=
  fun f => (Normal tt,
            mkFrame (cache f) (result f) (uncachedAddresses f) (ticks f) (trace f ++ [e])).

(** [this.priceCache.get(key)]. *)
Definition priceCache_get (key : string) : Exec (option PriceData) :=
  emit (CacheGet key) ;;
  fun f => (Normal (cache f !! key), f).

(** [this.priceCache.set(key, entry)]. *)
Definition priceCache_set (key : string) (entry : PriceData) : Exec unit :=
  fun f => (Normal tt,
            mkFrame (<[key := entry]> (cache f)) (result f) (uncachedAddresses f)
                    (ticks f) (trace f)).

(** [result.set(key, v)]. *)
Definition result_set (key : string) (v : JsValue) : Exec unit :=
  fun f => (Normal tt,
            mkFrame (cache f) (<[key := v]> (result f)) (uncachedAddresses f)
                    (ticks f) (trace f)).

(** [uncachedAddresses.push(a)]. *)
Definition uncachedAddresses_push (a : string) : Exec unit :=
  fun f => (Normal tt,
            mkFrame (cache f) (result f) (uncachedAddresses f ++ [a])
                    (ticks f) (trace f)).

Definition read_uncachedAddresses : Exec (list string) :=
  fun f => (Normal (uncachedAddresses f), f).

Section WithEnv.

Variable env : Env.

(** [Date.now()]. *)
Definition now : Exec Z :=
  fun f => (Normal (Date_now env (ticks f)),
            mkFrame (cache f) (result f) (uncachedAddresses f) (S (ticks f)) (trace f)).

(** [await axios.get(url, config)]: the response body, or a throw. *)
Definition http_get (req : Request) : Exec JsValue :=
  emit (HttpGet req) ;;
  match axios_get env req with
  | Resolved data => ret data
  | Rejected => throw
  end.

(** [priceUsd.toFixed(2)], evaluated for the log line: a [TypeError] unless
    [priceUsd] is a number. *)
Definition toFixed (priceUsd : JsValue) : Exec unit :=
  if is_number priceUsd then ret tt else throw.

(** The conversion of [symbol] to a string in the template of the log
    line: a [TypeError] unless the value is printable. *)
Definition toString (symbol : JsValue) : Exec unit :=
  if printable symbol then ret tt else throw.

(** The template [`[PriceService] Fetched ${symbol} (${address}):
    $${priceUsd.toFixed(2)}`] of the log line, its substitutions
    evaluated from left to right; [address] is a string. *)
Definition logFetched (symbol priceUsd : JsValue) : Exec unit :=
  toString symbol ;; toFixed priceUsd.

(** *** The methods *)

(** [private getCachedPrice(address)]. *)
Definition getCachedPrice (address : string) : Exec (option PriceData) :=
  cached <- priceCache_get (toLowerCase address) ;;
  match cached with
  | None => ret None
  | Some c =>
      t <- now ;;
      if t - timestamp c >? CACHE_TTL_MS then ret None else ret (Some c)
  end.

(** The test [tokenData && tokenData.quote && tokenData.quote.USD] on
    [tokenData = data[address]]; when it passes, the [USD] object. *)
Definition usdQuote (data : JsValue) (address : string) : option JsValue :=
  let tokenData := get data address in
  if truthy tokenData then
    if truthy (get tokenData "quote") then
      if truthy (get (get tokenData "quote") "USD")
      then Some (get (get tokenData "quote") "USD")
      else None
    else None
  else None.

(** The price the response carries for an address: the [price] member of
    its [USD] object when the test passes, and 0 otherwise. *)
Definition quotedPrice (data : JsValue) (address : string) : JsValue :=
  match usdQuote data address with
  | Some usd => get usd "price"
  | None => JNum 0
  end.

(** The body of [for (const address of uncachedAddresses)] in the [try]
    block. *)
Definition parseToken (data : JsValue) (address : string) : Exec unit :=
  match usdQuote data address with
  | Some usd =>
      let price := get usd "price" in
      let sym := or_else (get (get data address) "symbol") (JStr "UNKNOWN") in
      t <- now ;;
      priceCache_set address (mkPriceData address sym price t) ;;
      result_set address price ;;
      logFetched sym price
  | None => result_set address (JNum 0)
  end.

Definition quotesRequest (key : string) (uncached : list string) : Request :=
  mkRequest (CMC_API_BASE ++ "/v2/cryptocurrency/quotes/latest")
            (join "," uncached) "USD" "platform" key 10000.

(** The [try { ... } catch (error) { ... }] statement.  The local
    [platform] is computed by the source and used nowhere; it is left
    out. *)
Definition fetchUncached (key : string) : Exec unit :=
  try_catch
    (uncached <- read_uncachedAddresses ;;
     body <- http_get (quotesRequest key uncached) ;;
     if truthy body && truthy (get body "data") then
       forEach uncached (parseToken (get body "data"))
     else ret tt)
    (uncached <- read_uncachedAddresses ;;
     forEach uncached (fun addr => result_set addr (JNum 0))).

(** The loop "Check cache first". *)
Definition checkCache (address : string) : Exec unit :=
  cached <- getCachedPrice address ;;
  match cached with
  | Some c => result_set address (priceUsd c)
  | None => uncachedAddresses_push address
  end.

(** [async getTokenPrices(addresses, chainId)], up to [return result]. *)
Definition getTokenPrices_body (key : string) (addresses : list string) (chainId : Z)
  : Exec unit :=
  if String.eqb key "" then
    forEach addresses (fun addr => result_set (toLowerCase addr) (JNum 0))
  else
    let normalizedAddresses := map toLowerCase addresses in
    forEach normalizedAddresses checkCache ;;
    uncached <- read_uncachedAddresses ;;
    if (length uncached =? 0)%nat then ret tt
    else fetchUncached key.

(** What a call leaves behind: how it completed (the returned map, or an
    exception escaping to the caller), the service afterwards and the
    events of the call. *)
Record Outcome := mkOutcome {
  returned : Completion (gmap string JsValue);
  service : Service;
  events : list Event
}.

Definition getTokenPrices (s : Service) (addresses : list string) (chainId : Z)
  : Outcome :=
  let '(c, f) := getTokenPrices_body (apiKey s) addresses chainId
                   (mkFrame (priceCache s) ∅ [] 0 []) in
  mkOutcome (match c with Normal _ => Normal (result f) | Thrown => Thrown end)
            (mkService (apiKey s) (cache f))
            (trace f).

(** [getCachedPrice] called on its own. *)
Definition cachedPrice (s : Service) (address : string) : option PriceData * Service :=
  let '(c, f) := getCachedPrice address (mkFrame (priceCache s) ∅ [] 0 []) in
  (match c with Normal r => r | Thrown => None end, mkService (apiKey s) (cache f)).

End WithEnv.

(** [constructor(apiKey?)]: [apiKey || process.env.COINMARKETCAP_API_KEY || ''],
    both possibly undefined, and an empty cache. *)
Definition new (apiKey envKey : option string) : Service :=
  let pick (o : option string) (rest : string) :=
    match o with
    | Some k => if String.eqb k "" then rest else k
    | None => rest
    end in
  mkService (pick apiKey (pick envKey "")) ∅.

(** [clearCache()] and [getCacheSize()]. *)
Definition clearCache (s : Service) : Service := mkService (apiKey s) ∅.
Definition getCacheSize (s : Service) : nat := size (priceCache s).

(** The HTTP calls among the events of a call. *)
Definition httpCalls (evs : list Event) : list Request :=
  omap (fun e => match e with HttpGet r => Some r | CacheGet _ => None end) evs.

(** The keys handed to [priceCache.get] among the events of a call. *)
Definition cacheGets (evs : list Event) : list string :=
  omap (fun e => match e with CacheGet k => Some k | HttpGet _ => None end) evs.

(** *** Notions used to state the properties *)

(** The address is in the cache and fresh at every clock reading of the
    call; it is absent from the cache, or expired at every reading. *)
Definition hit (env : Env) (s : Service) (a : string) (c : PriceData) : Prop :=
  priceCache s !! toLowerCase a = Some c
  /\ forall k, Date_now env k - timestamp c <= CACHE_TTL_MS.

Definition miss (env : Env) (s : Service) (a : string) : Prop :=
  forall c, priceCache s !! toLowerCase a = Some c ->
            forall k, Date_now env k - timestamp c > CACHE_TTL_MS.

(** The price the remote response of a call carries for an address, when
    the call has made a request, the request was answered, and the answer
    passes the test of [usdQuote] for the address. *)
Definition responsePrice (env : Env) (o : Outcome) (a : string) : option JsValue :=
  match httpCalls (events o) with
  | req :: _ =>
      match axios_get env req with
      | Resolved body =>
          (fun usd => get usd "price") <$> usdQuote (get body "data") a
      | Rejected => None
      end
  | [] => None
  end.

(** The log line of an address whose entry passes the test of [usdQuote]
    with the [USD] object [usd] can be written: the symbol of the entry
    (or UNKNOWN) is printable and the price is a number. *)
Definition loggable (data : JsValue) (address : string) (usd : JsValue) : bool :=
  printable (or_else (get (get data address) "symbol") (JStr "UNKNOWN"))
  && is_number (get usd "price").

(** A rejection, or a body with a truthy [data] member in which the USD
    quotes of the requested addresses have numeric prices and printable
    symbols. *)
Definition usable (addresses : list string) (reply : Reply) : Prop :=
  match reply with
  | Rejected => True
  | Resolved body =>
      truthy body = true /\ truthy (get body "data") = true
      /\ forall a usd, a ∈ addresses ->
            usdQuote (get body "data") (toLowerCase a) = Some usd ->
            loggable (get body "data") (toLowerCase a) usd = true
  end.

End PriceService.

(** ** The position aggregator *)

Module UniswapV4Service.

Local Open Scope Q_scope.

(** Modelled from the spec: the types of [src/core/types] are not among
    the sources at hand; this is the AssetLeg of section 3.  An amount,
    a decimal string there, is represented by the number it denotes, and
    money is rational. *)
Record AssetLeg := mkAssetLeg {
  tokenAddress : string;
  legSymbol : string;
  amount : Q;
  decimals : Z;
  usdValue : Q
}.

(** Modelled from the spec: the Position of section 3. *)
Record Position := mkPosition {
  tokenId : string;
  chainId : Z;
  poolAddress : string;
  token0 : AssetLeg;
  token1 : AssetLeg;
  liquidity : string;
  tickLower : Z;
  tickUpper : Z;
  feesUsd : Q;
  totalValueUsd : Q
}.

(** Modelled from the spec: an element of chainErrors, section 3. *)
Record ChainError := mkChainError {
  errChainId : Z;
  errMessage : string
}.

(** Modelled from the spec: the AggregationResult of section 3, with its
    [success] mark. *)
Record AggregationResult := mkAggregationResult {
  success : bool;
  positions : list Position;
  sumValueUsd : Q;
  sumFeesUsd : Q;
  chainErrors : list ChainError
}.

(** Modelled from the spec: the outcome of a ChainQuery, section 3: the
    positions of the chain, or a failure reason. *)
Inductive ChainOutcome :=
| Fetched (ps : list Position)
| Failed (reason : string).

(** Modelled from the spec: the supported chain set of sections 4.4 and 6. *)
Definition SUPPORTED_CHAINS : list Z := [1; 56; 8453; 42161; 1301]%Z.

Section Aggregation.

(** The collaborators: the per-chain fetcher and the pricing client
    (chain id, batch of addresses, address: the price, 0 for no data). *)
Variable fetch : string -> Z -> ChainOutcome.
Variable prices : Z -> list string -> string -> Q.

(** Modelled from the spec: step 2 of section 4.4, the single requested
    chain or the full supported set. *)
Definition chainSet (filter : option Z) : list Z :=
  match filter with
  | Some c => [c]
  | None => SUPPORTED_CHAINS
  end.

(** Modelled from the spec: step 4 of section 4.4, the positions of the
    chains whose fetch succeeds. *)
Definition collectPositions (wallet : string) (chains : list Z) : list Position :=
  flat_map (fun c => match fetch wallet c with
                     | Fetched ps => ps
                     | Failed _ => []
                     end) chains.

(** Modelled from the spec: step 4 of section 4.4, an entry for each
    chain whose fetch fails. *)
Definition collectErrors (wallet : string) (chains : list Z) : list ChainError :=
  flat_map (fun c => match fetch wallet c with
                     | Fetched _ => []
                     | Failed reason => [mkChainError c reason]
                     end) chains.

(** Modelled from the spec: step 5 of section 4.4, the distinct
    lowercased token addresses of one chain. *)
Definition chainAddresses (c : Z) (ps : list Position) : list string :=
  remove_dups
    (flat_map (fun p => if Z.eqb (chainId p) c
                        then [toLowerCase (tokenAddress (token0 p));
                              toLowerCase (tokenAddress (token1 p))]
                        else []) ps).

(** Modelled from the spec: step 6 of section 4.4, the value of a leg is
    its amount times the price of its token. *)
Definition priceLeg (quote : string -> Q) (l : AssetLeg) : AssetLeg :=
  mkAssetLeg (tokenAddress l) (legSymbol l) (amount l) (decimals l)
             (amount l * quote (toLowerCase (tokenAddress l))).

(** Modelled from the spec: step 6 of section 4.4, the value of a
    position is the sum of its legs; [feesUsd] is carried through. *)
Definition pricePosition (ps : list Position) (p : Position) : Position :=
  let quote := prices (chainId p) (chainAddresses (chainId p) ps) in
  let l0 := priceLeg quote (token0 p) in
  let l1 := priceLeg quote (token1 p) in
  mkPosition (tokenId p) (chainId p) (poolAddress p) l0 l1 (liquidity p)
             (tickLower p) (tickUpper p) (feesUsd p) (usdValue l0 + usdValue l1).

(** Modelled from the spec: the sums of step 7 of section 4.4. *)
Definition sumQ (l : list Q) : Q := fold_right Qplus 0 l.

(** Modelled from the spec: the source of [UniswapV4Service.getPositions]
    is not among the sources at hand (only its unit tests and its caller
    are); this is the algorithm of section 4.4, steps 2 to 8, with the
    chains taken in the order of the chain set. *)
Definition getPositions (wallet : string) (filter : option Z) : AggregationResult :=
  let chains := chainSet filter in
  let raw := collectPositions wallet chains in
  let priced := map (pricePosition raw) raw in
  mkAggregationResult true priced
                      (sumQ (map totalValueUsd priced))
                      (sumQ (map feesUsd priced))
                      (collectErrors wallet chains).

End Aggregation.

End UniswapV4Service.

(** ** The positions route ([src/api/routes.ts]) *)

Module Routes.

(** Modelled from the spec: [V4PositionsResult] is declared in
    [src/core/types], which is not among the sources at hand; these are
    the members the route reads, all but [success] optional, typed after
    the AggregationResult of section 3. *)
Record V4PositionsResult := mkV4PositionsResult {
  success : bool;
  positions : option (list UniswapV4Service.Position);
  totalValueUsd : option Q;
  totalFeesUsd : option Q;
  chainErrors : option (list UniswapV4Service.ChainError);
  error : option string
}.

(** Modelled from the spec: [V4PositionsResponseData] of the missing
    [src/core/types], with the members the route fills in (section 6). *)
Record V4PositionsResponseData := mkV4PositionsResponseData {
  data_walletAddress : string;
  data_positions : list UniswapV4Service.Position;
  data_totalValueUsd : Q;
  data_totalFeesUsd : Q;
  data_timestamp : string;
  data_chainErrors : option (list UniswapV4Service.ChainError)
}.

(** Modelled from the spec: [ApiResponse] of the missing [src/core/types],
    the envelope with the members the route fills in. *)
Record ApiResponse := mkApiResponse {
  resp_success : bool;
  resp_data : option V4PositionsResponseData;
  resp_message : string;
  resp_error : option string
}.

(** A value of [req.query]: absent, a string or a nested object, or an
    array of those. *)
Inductive QueryItem :=
| QString (s : string)
| QObject.

Inductive QueryValue :=
| QUndefined
| QSingle (i : QueryItem)
| QArray (l : list QueryItem).

(** What the handler did: the status and body it sent, if it sent an
    answer, and its calls of [uniswapV4Service.getPositions].  It sends no
    answer when the awaited call throws or is rejected, which it does not
    catch. *)
Record Handled := mkHandled {
  sent : option (Z * ApiResponse);
  coreCalls : list (string * option Z)
}.

Definition status (h : Handled) : option Z := fst <$> sent h.
Definition body (h : Handled) : option ApiResponse := snd <$> sent h.

Definition isHexDigit (c : ascii) : bool :=
  let n := nat_of_ascii c in
  (((48 <=? n) && (n <=? 57)) || ((97 <=? n) && (n <=? 102))
   || ((65 <=? n) && (n <=? 70)))%nat.

Fixpoint allHex (s : string) : bool :=
  match s with
  | EmptyString => true
  | String c s' => isHexDigit c && allHex s'
  end.

(** [/^0x[a-fA-F0-9]{40}$/.test(s)]. *)
Definition addressPattern (s : string) : bool :=
  match s with
  | String "0" (String "x" rest) => (String.length rest =? 40)%nat && allHex rest
  | _ => false
  end.

(** White space skipped by [parseInt], on ASCII: TAB, LF, VT, FF, CR, SP. *)
Definition isWhiteSpace (c : ascii) : bool :=
  let n := nat_of_ascii c in
  (((9 <=? n) && (n <=? 13)) || (n =? 32))%nat.

Fixpoint skipWhiteSpace (s : string) : string :=
  match s with
  | String c s' => if isWhiteSpace c then skipWhiteSpace s' else s
  | EmptyString => EmptyString
  end.

(** The value of the longest prefix of decimal digits, if there is one. *)
Fixpoint leadingDigits (acc : option Z) (s : string) : option Z :=
  match s with
  | String c s' =>
      match digit_of c with
      | Some d => leadingDigits (Some (10 * default 0 acc + Z.of_nat d)) s'
      | None => acc
      end
  | EmptyString => acc
  end.

(** [parseInt(s, 10)] on ASCII text; [None] is [NaN].  The result is the
    integer the digits denote.  JavaScript rounds it beyond 2^53, which
    makes no difference to whether it is one of the supported chain ids.
    Outside ASCII, [parseInt] also skips the white space of Unicode. *)
Definition parseInt (s : string) : option Z :=
  match skipWhiteSpace s with
  | String "-" rest => Z.opp <$> leadingDigits None rest
  | String "+" rest => leadingDigits None rest
  | rest => leadingDigits None rest
  end.

(** Truthiness of [req.query.chainId]. *)
Definition provided (p : QueryValue) : bool :=
  match p with
  | QUndefined => false
  | QSingle (QString s) => negb (String.eqb s "")
  | QSingle QObject | QArray _ => true
  end.

(** [String(x)] for an item of the query. *)
Definition itemString (i : option QueryItem) : string :=
  match i with
  | Some (QString s) => s
  | Some QObject => "[object Object]"
  | None => "undefined"
  end.

(** The three-way [if] that computes [chainIdStr]. *)
Definition chainIdStr (p : QueryValue) : string :=
  match p with
  | QSingle (QString s) => s
  | QArray l => itemString (head l)
  | QSingle QObject => itemString (Some QObject)
  | QUndefined => itemString None
  end.

Definition SUPPORTED : list Z := [1; 56; 8453; 42161; 1301].

(** [[1, 56, 8453, 42161, 1301].includes(chainId)]. *)
Definition includes (chainId : option Z) : bool :=
  match chainId with
  | Some n => bool_decide (n ∈ SUPPORTED)
  | None => false
  end.

Section Handler.

(** [ErrorCodes] of [src/core/types], the core behind the route ([None]
    is a call that throws, or whose promise is rejected) and the clock
    behind [new Date().toISOString()]. *)
Variable ErrorCodes_INVALID_REQUEST : string.
Variable ErrorCodes_INTERNAL_ERROR : string.
Variable getPositions : string -> option Z -> option V4PositionsResult.
Variable isoNow : string.

Definition invalidAddress : ApiResponse :=
  mkApiResponse false None "Invalid wallet address format"
                (Some ErrorCodes_INVALID_REQUEST).

Definition invalidChainId : ApiResponse :=
  mkApiResponse false None "Invalid chainId. Supported: 1, 56, 8453, 42161, 1301"
                (Some ErrorCodes_INVALID_REQUEST).

(** The part of the handler after the two validations. *)
Definition respond (walletAddress : string) (chainId : option Z) : Handled :=
  match getPositions walletAddress chainId with
  | None => mkHandled None [(walletAddress, chainId)]
  | Some result =>
      match success result, positions result with
      | true, Some ps =>
          mkHandled
            (Some (200,
                   mkApiResponse true
                     (Some (mkV4PositionsResponseData walletAddress ps
                              (default 0%Q (totalValueUsd result))
                              (default 0%Q (totalFeesUsd result))
                              isoNow (chainErrors result)))
                     ("Found " ++ pretty (length ps) ++ " positions") None))
            [(walletAddress, chainId)]
      | _, _ =>
          mkHandled
            (Some (500,
                   mkApiResponse false None "Failed to fetch positions"
                     (Some (match error result with
                            | Some e => if String.eqb e ""
                                        then ErrorCodes_INTERNAL_ERROR else e
                            | None => ErrorCodes_INTERNAL_ERROR
                            end))))
            [(walletAddress, chainId)]
      end
  end.

(** The handler of [GET /v4/positions/:walletAddress]. *)
Definition positionsHandler (walletAddress : string) (chainIdParam : QueryValue)
  : Handled :=
  if String.eqb walletAddress "" || negb (addressPattern walletAddress) then
    mkHandled (Some (400, invalidAddress)) []
  else if provided chainIdParam then
    let chainId := parseInt (chainIdStr chainIdParam) in
    if negb (includes chainId) then mkHandled (Some (400, invalidChainId)) []
    else respond walletAddress chainId
  else respond walletAddress None.

End Handler.

End Routes.

(** ** Sample inputs *)

Module Samples.

Import PriceService.

Definition key : string := "test-api-key".

(** A response entry as the pricing provider sends it. *)
Definition quote (sym : string) (price : Q) : JsValue :=
  JObj [("symbol", JStr sym);
        ("quote", JObj [("USD", JObj [("price", JNum price)])])].

(** A service with an API key and an empty cache, and one that holds a
    price for [0xtoken1] stored at time 0. *)
Definition fresh : Service := new (Some key) None.

Definition warmed : Service :=
  mkService key {[ "0xtoken1" := mkPriceData "0xtoken1" (JStr "WETH") (JNum 3000) 0 ]}.

(** Environments: the clock stands at [t]; the provider answers with a
    body, or the request fails. *)
Definition answering (t : Z) (body : JsValue) : Env :=
  mkEnv (fun _ => t) (fun _ => Resolved body).

Definition failing (t : Z) : Env := mkEnv (fun _ => t) (fun _ => Rejected).

Definition wethBody : JsValue :=
  JObj [("data", JObj [("0xtoken1", quote "WETH" 3000)])].

(** A body without a [data] member. *)
Definition statusOnlyBody : JsValue :=
  JObj [("status", JObj [("error_code", JNum 0)])].

(** A wallet address, and a core that finds no position anywhere. *)
Definition wallet : string := "0x0000000000000000000000000000000000000000".

Definition emptyCore (w : string) (c : option Z) : option Routes.V4PositionsResult :=
  Some (Routes.mkV4PositionsResult true (Some []) (Some 0%Q) (Some 0%Q) (Some []) None).

(** The position and the prices of the unit tests of the aggregator. *)
Definition weth : string := "0xc02aaa39b223fe8d0a0e5c4f27ead9083c756cc2".
Definition usdc : string := "0xa0b86991c6218b36c1d19d4a2e9eb0ce3606eb48".

Definition wethUsdc : UniswapV4Service.Position :=
  UniswapV4Service.mkPosition "1" 1 "0x1234...5678/0xabcd...efgh"
    (UniswapV4Service.mkAssetLeg weth "WETH" (3 # 2) 18 0)
    (UniswapV4Service.mkAssetLeg usdc "USDC" 4500 6 0)
    "1000000" (-887220) 887220 90 0.

Definition mockPrices (c : Z) (batch : list string) (a : string) : Q :=
  if String.eqb a weth then 3000%Q
  else if String.eqb a usdc then 1%Q
  else 0%Q.

Definition twoTokenBody : JsValue :=
  JObj [("data", JObj [("0xtoken1", quote "WETH" 3000);
                       ("0xtoken2", quote "USDC" 1)])].

End Samples.

(** ** The claims that fail as they are worded *)

Module Stated.

Import PriceService.

(** C1 as worded: an entry for every requested address, the price the
    remote response of the call carries for it, or else 0. *)
Definition prices_from_response_or_zero : Prop :=
  forall env s addresses chainId,
    let o := getTokenPrices env s addresses chainId in
    exists r, returned o = Normal r
              /\ forall a, a ∈ addresses ->
                    r !! toLowerCase a
                    = Some (default (JNum 0) (responsePrice env o (toLowerCase a))).

(** C3 as worded: two calls for one address, the second within the TTL
    window of the first, make at most one remote call between them. *)
Definition one_remote_call_within_ttl : Prop :=
  forall env1 env2 s a chainId,
    (forall i j, Date_now env2 j - Date_now env1 i <= CACHE_TTL_MS) ->
    let o1 := getTokenPrices env1 s [a] chainId in
    let o2 := getTokenPrices env2 (service o1) [a] chainId in
    (length (httpCalls (events o1)) + length (httpCalls (events o2)) <= 1)%nat.

(** C6 as worded: no key is looked up twice in the cache, and the
    batched request lists lowercased requested addresses, none of them
    twice. *)
Definition addresses_deduplicated : Prop :=
  forall env s addresses chainId,
    apiKey s <> "" ->
    let o := getTokenPrices env s addresses chainId in
    NoDup (cacheGets (events o))
    /\ forall req, req ∈ httpCalls (events o) ->
         exists u, NoDup u
                   /\ (forall k, k ∈ u -> k ∈ map toLowerCase addresses)
                   /\ params_address req = join "," u.

(** A chainId parameter that is one of the five supported ids. *)
Definition supportedParam (p : Routes.QueryValue) : Prop :=
  exists n, n ∈ Routes.SUPPORTED /\ p = Routes.QSingle (Routes.QString (pretty n)).

(** C8 as worded: a request is rejected with status 400, the core not
    being called, when its address does not match the pattern or when it
    has a chainId parameter that is not one of the five supported ids. *)
Definition invalid_requests_rejected : Prop :=
  forall invalidRequest internalError core isoNow wallet p,
    Routes.addressPattern wallet = false
    \/ (p <> Routes.QUndefined /\ ~ supportedParam p) ->
    let h := Routes.positionsHandler invalidRequest internalError core isoNow wallet p in
    Routes.status h = Some 400 /\ Routes.coreCalls h = [].

End Stated.

(** ** The request validation ([src/api/middleware.ts]) *)

Module Middleware.

(** [String.prototype.trim] on ASCII white space. *)
Fixpoint trimEnd (s : string) : string :=
  match s with
  | EmptyString => EmptyString
  | String c s' =>
      match trimEnd s' with
      | EmptyString => if Routes.isWhiteSpace c then EmptyString
                       else String c EmptyString
      | rest => String c rest
      end
  end.

Definition trim (s : string) : string := trimEnd (Routes.skipWhiteSpace s).

(** A string made of white space only. *)
Fixpoint blank (s : string) : bool :=
  match s with
  | EmptyString => true
  | String c s' => Routes.isWhiteSpace c && blank s'
  end.

(** The [userId] of the body, when it is a string, is ASCII text. *)
Definition asciiUserId (body : JsValue) : Prop :=
  forall u, get body "userId" = JStr u -> asciiText u = true.

(** The assignment [o[k] = v] on an object: the binding in force is
    replaced where it stands, a new key is added at the end. *)
Fixpoint assoc_set (k : string) (v : JsValue) (props : list (string * JsValue))
  : list (string * JsValue) :=
  match props with
  | [] => [(k, v)]
  | (k', v') :: rest =>
      if String.eqb k k' then (k, v) :: rest else (k', v') :: assoc_set k v rest
  end.

(** Used on objects only; other values are left as they are. *)
Definition set (o : JsValue) (k : string) (v : JsValue) : JsValue :=
  match o with
  | JObj props => JObj (assoc_set k v props)
  | _ => o
  end.

(** [typeof v === 'object']. *)
Definition typeof_object (v : JsValue) : bool :=
  match v with
  | JNull | JArr _ | JObj _ => true
  | _ => false
  end.

(** [v === undefined || v === null]. *)
Definition nullish (v : JsValue) : bool :=
  match v with
  | JUndefined | JNull => true
  | _ => false
  end.

(** What a middleware does with a request whose body is [req.body]: it
    answers [res.status(st).json({success: false, message, error})], or
    calls [next()] with the body as it is by then, or throws the
    [TypeError] of destructuring an undefined or null body. *)
Inductive Passage :=
| Answered (status : Z) (message : string) (error : string)
| Continue (body : JsValue)
| TypeError.

Section WithErrorCodes.

(** [ErrorCodes.INVALID_REQUEST] and [ErrorCodes.INTERNAL_ERROR] of
    [src/core/types]. *)
Variable INVALID_REQUEST : string.
Variable INTERNAL_ERROR : string.

Definition validateUserId (body : JsValue) : Passage :=
  if nullish body then TypeError
  else
    match get body "userId" with
    | JStr userId =>
        if String.eqb userId "" || String.eqb (trim userId) "" then
          Answered 400 "userId is required" INVALID_REQUEST
        else Continue (set body "userId" (JStr (trim userId)))
    | _ => Answered 400 "userId is required" INVALID_REQUEST
    end.

Definition validateTxParams (body : JsValue) : Passage :=
  if nullish body then TypeError
  else
    let txParams := get body "txParams" in
    if negb (truthy txParams) || negb (typeof_object txParams) then
      Answered 400 "txParams is required" INVALID_REQUEST
    else
      let to := get txParams "to" in
      let value := get txParams "value" in
      if negb (truthy to) || negb (match to with JStr _ => true | _ => false end) then
        Answered 400 "txParams.to is required and must be a valid address"
                 INVALID_REQUEST
      else if nullish value then
        Answered 400 "txParams.value is required" INVALID_REQUEST
      else Continue body.

(** [errorHandler(err, req, res, next)]. *)
Definition errorHandler : Passage :=
  Answered 500 "An internal error occurred" INTERNAL_ERROR.

End WithErrorCodes.

End Middleware.

(** ** The wallet routes ([src/api/routes.ts]) *)

Module WalletRoutes.

Import Middleware.

(** Modelled from the spec: the result types of [WalletService] are
    declared in [src/core/types], which is not among the sources at hand;
    these are the members the routes read, the optional ones as options. *)
Record ConnectResult := mkConnectResult {
  connect_success : bool;
  connect_walletId : option string;
  connect_walletAddress : option string;
  connect_privyUserId : option string;
  connect_isNewUser : option bool;
  connect_error : option string
}.

(** Modelled from the spec: the result of [WalletService.transact] of the
    missing [src/core/types], as the route reads it. *)
Record TransactResult := mkTransactResult {
  transact_success : bool;
  transact_hash : option string;
  transact_error : option string
}.

(** Modelled from the spec: the result of [WalletService.disconnect] of
    the missing [src/core/types], as the route reads it. *)
Record DisconnectResult := mkDisconnectResult {
  disconnect_success : bool;
  disconnect_walletId : option string;
  disconnect_walletAddress : option string
}.

(** Modelled from the spec: a session of [WalletService] of the missing
    [src/core/types], with the two members the route reads. *)
Record Session := mkSession {
  session_walletId : option string;
  session_walletAddress : option string
}.

(** The [data] member of the four responses. *)
Inductive ResponseData :=
| ConnectData (walletId walletAddress : string) (privyUserId : option string)
              (isNewUser : bool)
| TransactData (hash : string)
| DisconnectData (walletId walletAddress : option string)
| SessionData (hasSession : bool) (walletId walletAddress : option string).

(** Modelled from the spec: [ApiResponse] of the missing [src/core/types],
    the envelope with the members the routes fill in. *)
Record ApiResponse := mkApiResponse {
  success : bool;
  data : option ResponseData;
  message : string;
  error : option string
}.

(** The calls of the wallet service. *)
Inductive Call :=
| CallConnect (userId : JsValue)
| CallTransact (userId txParams : JsValue)
| CallDisconnect (userId : JsValue)
| CallGetSession (userId : string).

(** What a route does with a request: the status and body it sends and
    its calls of the wallet service; or, after the calls listed, an
    exception that the route does not catch and leaves to the error
    handling of the application. *)
Inductive Served :=
| Sent (status : Z) (response : ApiResponse) (calls : list Call)
| Unhandled (calls : list Call).

(** A string member that is truthy: defined and not empty. *)
Definition present (o : option string) : option string :=
  match o with
  | Some x => if String.eqb x "" then None else Some x
  | None => None
  end.

Section Router.

(** [ErrorCodes] of [src/core/types], and the methods of the wallet
    service; [None] is a call that throws, or whose promise is rejected. *)
Variable INVALID_REQUEST : string.
Variable WALLET_CREATION_FAILED : string.
Variable SESSION_NOT_FOUND : string.
Variable TRANSACTION_FAILED : string.
Variable connect : JsValue -> option ConnectResult.
Variable transact : JsValue -> JsValue -> option TransactResult.
Variable disconnect : JsValue -> option DisconnectResult.
Variable getSession : string -> option (option Session).

(** A middleware in front of a handler. *)
Definition guarded (m : JsValue -> Passage) (h : JsValue -> Served) (body : JsValue)
  : Served :=
  match m body with
  | Answered st msg err => Sent st (mkApiResponse false None msg (Some err)) []
  | Continue body' => h body'
  | TypeError => Unhandled []
  end.

(** The handler of [POST /connect]. *)
Definition connectHandler (body : JsValue) : Served :=
  let userId := get body "userId" in
  match connect userId with
  | None => Unhandled [CallConnect userId]
  | Some result =>
      match connect_success result,
            present (connect_walletId result),
            present (connect_walletAddress result) with
      | true, Some walletId, Some walletAddress =>
          Sent 200
               (mkApiResponse true
                  (Some (ConnectData walletId walletAddress (connect_privyUserId result)
                                     (default false (connect_isNewUser result))))
                  (if default false (connect_isNewUser result)
                   then "New wallet created successfully"
                   else "Wallet connected successfully")
                  None)
               [CallConnect userId]
      | _, _, _ =>
          Sent 500
               (mkApiResponse false None "Failed to connect wallet"
                  (Some (default WALLET_CREATION_FAILED
                                 (present (connect_error result)))))
               [CallConnect userId]
      end
  end.

(** The handler of [POST /transact]. *)
Definition transactHandler (body : JsValue) : Served :=
  let userId := get body "userId" in
  let txParams := get body "txParams" in
  match transact userId txParams with
  | None => Unhandled [CallTransact userId txParams]
  | Some result =>
      match transact_success result, present (transact_hash result) with
      | true, Some hash =>
          Sent 200
               (mkApiResponse true (Some (TransactData hash))
                              "Transaction sent successfully" None)
               [CallTransact userId txParams]
      | _, _ =>
          if bool_decide (transact_error result = Some SESSION_NOT_FOUND) then
            Sent 401
                 (mkApiResponse false None "No active session. Please connect first."
                                (Some SESSION_NOT_FOUND))
                 [CallTransact userId txParams]
          else
            Sent 500
                 (mkApiResponse false None "Transaction failed"
                    (Some (default TRANSACTION_FAILED
                                   (present (transact_error result)))))
                 [CallTransact userId txParams]
      end
  end.

(** The handler of [POST /disconnect]. *)
Definition disconnectHandler (body : JsValue) : Served :=
  let userId := get body "userId" in
  match disconnect userId with
  | None => Unhandled [CallDisconnect userId]
  | Some result =>
      if disconnect_success result then
        Sent 200
             (mkApiResponse true
                (Some (DisconnectData (disconnect_walletId result)
                                      (disconnect_walletAddress result)))
                "Disconnected successfully" None)
             [CallDisconnect userId]
      else
        Sent 200
             (mkApiResponse true None "No active session to disconnect" None)
             [CallDisconnect userId]
  end.

(** The three routes as [createRouter] registers them. *)
Definition postConnect : JsValue -> Served :=
  guarded (validateUserId INVALID_REQUEST) connectHandler.

Definition postTransact : JsValue -> Served :=
  guarded (validateUserId INVALID_REQUEST)
          (guarded (validateTxParams INVALID_REQUEST) transactHandler).

Definition postDisconnect : JsValue -> Served :=
  guarded (validateUserId INVALID_REQUEST) disconnectHandler.

(** The handler of [GET /session/:userId], on [req.params.userId]. *)
Definition getSessionRoute (userId : string) : Served :=
  if String.eqb userId "" || String.eqb (trim userId) "" then
    Sent 400
         (mkApiResponse false None "userId parameter is required"
                        (Some INVALID_REQUEST))
         []
  else
    match getSession (trim userId) with
    | None => Unhandled [CallGetSession (trim userId)]
    | Some session =>
        Sent 200
             (mkApiResponse true
                (Some (SessionData (bool_decide (is_Some session))
                                   (session ≫= session_walletId)
                                   (session ≫= session_walletAddress)))
                (match session with
                 | Some _ => "Session found"
                 | None => "No active session"
                 end)
                None)
             [CallGetSession (trim userId)]
    end.

End Router.

End WalletRoutes.

(** ** The /transact command of the Telegram bot ([handleTransact]) *)

Module TransactCommand.

Import Middleware.

(** What the command reads of a Telegram message: [msg.from.id] when
    [msg.from] is there, [msg.chat.id] when [msg.chat] is there and has
    an id, and [msg.text]. *)
Record Message := mkMessage {
  from : option Z;
  chat : option Z;
  text : option string
}.

(** The member of a session that the command reads. *)
Record Session := mkSession {
  walletId : string
}.

(** How a promise settles: it is fulfilled with a value, or rejected with
    an error, of which [errorMessage] is the text the command reports:
    [error.message] for an [Error], [String(error)] otherwise. *)
Inductive Settled (A : Type) :=
| Fulfilled (value : A)
| Rejected (errorMessage : string).

Arguments Fulfilled {A} value.
Arguments Rejected {A} errorMessage.

(** The [CommandDependencies].  [sessions_get] is [sessions.get];
    [bot_sendMessage k] is the way the k-th call of [bot.sendMessage]
    settles, counted from 0 over the whole conversation;
    [sendTransaction walletId] is the way
    [privy.wallets().ethereum().sendTransaction(walletId, ...)] settles,
    [value] being the [hash] of the response. *)
Record Dependencies := mkDependencies {
  sessions_get : Z -> option Session;
  bot_sendMessage : nat -> Settled unit;
  sendTransaction : string -> Settled string
}.

(** The calls made on the bot and on the wallet provider. *)
Inductive Effect :=
| SendMessage (chatId : Z) (text : string)
| SendTransaction (walletId : string) (caip2 : string) (transaction : JsValue).

Definition isSendMessage (e : Effect) : bool :=
  match e with
  | SendMessage _ _ => true
  | SendTransaction _ _ _ => false
  end.

(** The number of calls of [bot.sendMessage] made so far. *)
Definition sends (log : list Effect) : nat :=
  length (List.filter isSendMessage log).

(** An asynchronous computation: from the calls made so far to a value or
    a thrown error, and the calls made by then. *)
Inductive Outcome (A : Type) :=
| Returned (value : A)
| Thrown (errorMessage : string).

Arguments Returned {A} value.
Arguments Thrown {A} errorMessage.

Definition Task (A : Type) : Type := list Effect -> Outcome A * list Effect.

Definition ret {A} (a : A) : Task A := fun log => (Returned a, log).

Definition bind {A B} (m : Task A) (k : A -> Task B) : Task B :=
  fun log =>
    match m log with
    | (Returned a, log') => k a log'
    | (Thrown e, log') => (Thrown e, log')
    end.

(** [try { m } catch (error) { handler(errorMessage) }]. *)
Definition try_catch {A} (m : Task A) (handler : string -> Task A) : Task A :=
  fun log =>
    match m log with
    | (Returned a, log') => (Returned a, log')
    | (Thrown e, log') => handler e log'
    end.

Declare Scope task_scope.
Delimit Scope task_scope with task.
Notation "x <- m ;; k" := (bind m (fun x => k))
  (at level 100, m at next level, right associativity) : task_scope.
Notation "m ;; k" := (bind m (fun _ => k))
  (at level 100, right associativity) : task_scope.
Local Open Scope task_scope.

(** The line feed of the message texts. *)
Definition LF : string := String (ascii_of_nat 10) EmptyString.

(** The request for confirmation. *)
Definition PROMPT : string :=
  "🔔 Transaction Request" ++ LF ++ LF
  ++ "Approve sample Uniswap V4 swap on Ethereum?" ++ LF ++ LF
  ++ "✅ Reply YES to approve" ++ LF
  ++ "❌ Reply NO to cancel" ++ LF ++ LF
  ++ "⏱️ You have 60 seconds to respond.".

Definition TEXT_PLEASE : string := "❌ Please reply with text: YES or NO.".

Definition TRY_AGAIN : string :=
  "❌ An error occurred. Please try again with /transact.".

(** The sample transaction and its chain. *)
Definition txParams : JsValue :=
  JObj [("to", JStr "0x..."); ("value", JStr "0"); ("data", JStr "0x")].

Definition CAIP2 : string := "eip155:1".

(** What the command leaves behind when it returns: the variables its two
    callbacks close over, and whether the callbacks are still to come.
    [timer] says that the timeout set with [setTimeout] has neither fired
    nor been cleared, [listening] that the listener registered with
    [bot.once] has not run yet. *)
Record Pending := mkPending {
  userId : Z;
  chatId : Z;
  session : Session;
  responseReceived : bool;
  timer : bool;
  listening : bool
}.

(** What happens after the command has returned: the bot emits
    ['message'] with a message (of anybody, in any chat), or
    [RESPONSE_TIMEOUT] has passed since the timeout was set. *)
Inductive Input :=
| Incoming (confirmMsg : option Message)
| Elapsed.

Section WithDependencies.

(** The message texts of [src/bot/constants], [SUCCESS_MESSAGES.TRANSACTION_SENT]
    being a function of the hash. *)
Variable NO_SESSION : string.
Variable TRANSACTION_FAILED : string.
Variable GENERIC_ERROR : string.
Variable TRANSACTION_TIMEOUT : string.
Variable TRANSACTION_CANCELED : string.
Variable INVALID_RESPONSE : string.
Variable TRANSACTION_SENT : string -> string.

Variable deps : Dependencies.

(** [await bot.sendMessage(chatId, text)]. *)
Definition sendMessage (chatId : Z) (text : string) : Task unit :=
  fun log =>
    match bot_sendMessage deps (sends log) with
    | Fulfilled _ => (Returned tt, (log ++ [SendMessage chatId text])%list)
    | Rejected e => (Thrown e, (log ++ [SendMessage chatId text])%list)
    end.

(** [await privy.wallets().ethereum().sendTransaction(walletId, {caip2,
    params: {transaction: txParams}})], giving [txResponse.hash]. *)
Definition privy_sendTransaction (walletId : string) : Task string :=
  fun log =>
    match sendTransaction deps walletId with
    | Fulfilled hash => (Returned hash, (log ++ [SendTransaction walletId CAIP2 txParams])%list)
    | Rejected e => (Thrown e, (log ++ [SendTransaction walletId CAIP2 txParams])%list)
    end.

(** [handleTransact(msg, {bot, privy, sessions})], up to its return: the
    result is what it has registered, if anything. *)
Definition handleTransact (msg : Message) : Task (option Pending) :=
  try_catch
    (match from msg with
     | None => ret None
     | Some userId =>
         match chat msg with
         | None => ret None
         | Some chatId =>
             if chatId =? 0 then ret None
             else
               match sessions_get deps userId with
               | None => sendMessage chatId NO_SESSION ;; ret None
               | Some session =>
                   sendMessage chatId PROMPT ;;
                   ret (Some (mkPending userId chatId session false true true))
               end
         end
     end)
    (fun errorMessage =>
       try_catch
         (match chat msg with
          | Some chatId =>
              if chatId =? 0 then ret tt
              else sendMessage chatId
                               (GENERIC_ERROR ++ LF ++ LF ++ "Error: " ++ errorMessage)
          | None => ret tt
          end)
         (fun _ => ret tt) ;;
       ret None).

(** The body of the listener, after [responseReceived = true] and
    [clearTimeout(timeoutId)]. *)
Definition confirm (p : Pending) (confirmMsg : option Message) : Task unit :=
  try_catch
    (match confirmMsg with
     | None => ret tt
     | Some m =>
         match from m with
         | None => ret tt
         | Some sender =>
             if negb (sender =? userId p) then ret tt
             else
               match text m with
               | None => sendMessage (chatId p) TEXT_PLEASE
               | Some t =>
                   if String.eqb t "" then sendMessage (chatId p) TEXT_PLEASE
                   else
                     let response := trim (toLowerCase t) in
                     if String.eqb response "yes" then
                       try_catch
                         (hash <- privy_sendTransaction (walletId (session p)) ;;
                          sendMessage (chatId p) (TRANSACTION_SENT hash))
                         (fun errorMessage =>
                            sendMessage (chatId p)
                                        (TRANSACTION_FAILED ++ LF ++ LF ++ "Error: "
                                         ++ errorMessage))
                     else if String.eqb response "no" then
                       sendMessage (chatId p) TRANSACTION_CANCELED
                     else sendMessage (chatId p) INVALID_RESPONSE
               end
         end
     end)
    (fun _ => try_catch (sendMessage (chatId p) TRY_AGAIN) (fun _ => ret tt)).

(** The bot emits ['message']: a listener registered with [once] is
    removed and run. *)
Definition onMessage (p : Pending) (confirmMsg : option Message) : Task Pending :=
  if listening p then
    confirm p confirmMsg ;;
    ret (mkPending (userId p) (chatId p) (session p) true false false)
  else ret p.

(** The timeout fires, unless it has fired or has been cleared. *)
Definition onTimeout (p : Pending) : Task Pending :=
  if timer p then
    (if negb (responseReceived p) then
       try_catch (sendMessage (chatId p) TRANSACTION_TIMEOUT) (fun _ => ret tt)
     else ret tt) ;;
    ret (mkPending (userId p) (chatId p) (session p) (responseReceived p) false
                   (listening p))
  else ret p.

Definition step (p : Pending) (i : Input) : Task Pending :=
  match i with
  | Incoming confirmMsg => onMessage p confirmMsg
  | Elapsed => onTimeout p
  end.

(** The callbacks run one after the other, in the order of the inputs. *)
Fixpoint run (p : Pending) (inputs : list Input) : Task Pending :=
  match inputs with
  | [] => ret p
  | i :: rest => p' <- step p i ;; run p' rest
  end.

(** The command and what follows it. *)
Definition conversation (msg : Message) (inputs : list Input) : Task (option Pending) :=
  registered <- handleTransact msg ;;
  match registered with
  | None => ret None
  | Some p => p' <- run p inputs ;; ret (Some p')
  end.

(** The calls made in a conversation that starts with no call made. *)
Definition calls (msg : Message) (inputs : list Input) : list Effect :=
  (conversation msg inputs []).2.

End WithDependencies.

(** The confirmation that makes the command send the transaction: a
    message of the user who gave the command whose text, in lower case and
    without the white space around it, is [yes]. *)
Definition approves (user : Z) (confirmMsg : option Message) : bool :=
  match confirmMsg with
  | Some m =>
      match from m, text m with
      | Some sender, Some t =>
          (sender =? user) && String.eqb (trim (toLowerCase t)) "yes"
      | _, _ => false
      end
  | None => false
  end.

(** The texts of the messages that come in are ASCII. *)
Definition asciiInput (i : Input) : Prop :=
  match i with
  | Incoming (Some m) =>
      match text m with
      | Some t => asciiText t = true
      | None => True
      end
  | _ => True
  end.

Definition isTransaction (e : Effect) : bool := negb (isSendMessage e).

(** A call that goes to the chat of the command, or to the wallet of its
    session with the sample transaction. *)
Definition addressed (p : Pending) (e : Effect) : Prop :=
  match e with
  | SendMessage c _ => c = chatId p
  | SendTransaction w c tx => w = walletId (session p) /\ c = CAIP2 /\ tx = txParams
  end.

End TransactCommand.

(** ** Further notions for the price cache *)

Module PriceCache.

Import PriceService.

(** The entry [getTokenPrices] stores under [address] at time [t] when the
    response passes the test for it with the [USD] object [usd]. *)
Definition entryOf (data : JsValue) (address : string) (usd : JsValue) (t : Z)
  : PriceData :=
  mkPriceData address
              (or_else (get (get data address) "symbol") (JStr "UNKNOWN"))
              (get usd "price") t.

(** Every key is in lower case and is the [address] member of its entry. *)
Definition wellKeyed (s : Service) : Prop :=
  forall k e, priceCache s !! k = Some e -> address e = k /\ toLowerCase k = k.

End PriceCache.

(** ** Further sample inputs *)

Module MoreSamples.

Import PriceService Samples.

(** A body in which the quote of [0xtoken2] has [null] for a price. *)
Definition nullPriceBody : JsValue :=
  JObj [("data",
         JObj [("0xtoken1", quote "WETH" 3000);
               ("0xtoken2",
                JObj [("symbol", JStr "DEAD");
                      ("quote", JObj [("USD", JObj [("price", JNull)])])])])].

(** A body in which [0xtoken2] has a numeric price and, for a symbol, an
    object with a member [toString]. *)
Definition oddSymbolBody : JsValue :=
  JObj [("data",
         JObj [("0xtoken1", quote "WETH" 3000);
               ("0xtoken2",
                JObj [("symbol", JObj [("toString", JNum 1)]);
                      ("quote", JObj [("USD", JObj [("price", JNum 5)])])])])].

(** A clock that advances by one millisecond at every reading. *)
Definition ticking (t : Z) (body : JsValue) : Env :=
  mkEnv (fun k => t + Z.of_nat k) (fun _ => Resolved body).

(** Wallet services for the routes: one that connects a new user, one
    that reports success without a wallet address, one that knows no
    session. *)
Definition connecting (userId : JsValue) : option WalletRoutes.ConnectResult :=
  Some (WalletRoutes.mkConnectResult true (Some "wallet-abc123")
                                     (Some "0x1234567890abcdef")
                                     (Some "privy-user-123") (Some true) None).

Definition halfConnected (userId : JsValue) : option WalletRoutes.ConnectResult :=
  Some (WalletRoutes.mkConnectResult true (Some "wallet-abc123") None None None None).

Definition sessionless (userId txParams : JsValue)
  : option WalletRoutes.TransactResult :=
  Some (WalletRoutes.mkTransactResult false None (Some "SESSION_NOT_FOUND")).

Definition nothingToEnd (userId : JsValue) : option WalletRoutes.DisconnectResult :=
  Some (WalletRoutes.mkDisconnectResult false None None).

Definition connectBody : JsValue :=
  JObj [("userId", JStr " telegram_123 ");
        ("txParams", JObj [("to", JStr "0xrecipient"); ("value", JStr "0")])].

(** A /transact command of user 789 in chat 123456, who has a session, the
    confirmation of that user, and what the command has registered once
    its prompt is out. *)
Definition transactCommand : TransactCommand.Message :=
  TransactCommand.mkMessage (Some 789) (Some 123456) (Some "/transact").

Definition yes : option TransactCommand.Message :=
  Some (TransactCommand.mkMessage (Some 789) (Some 123456) (Some " YES ")).

Definition waiting : TransactCommand.Pending :=
  TransactCommand.mkPending 789 123456 (TransactCommand.mkSession "wallet-abc123")
                            false true true.

Definition receipt (hash : string) : string := "Transaction sent: " ++ hash.

(** A bot that delivers every message, and one that delivers the prompt
    and nothing after it; the provider accepts the transaction. *)
Definition reliable : TransactCommand.Dependencies :=
  TransactCommand.mkDependencies
    (fun u => if u =? 789 then Some (TransactCommand.mkSession "wallet-abc123")
              else None)
    (fun _ => TransactCommand.Fulfilled tt)
    (fun _ => TransactCommand.Fulfilled "0xhash").

Definition muted : TransactCommand.Dependencies :=
  TransactCommand.mkDependencies
    (fun u => if u =? 789 then Some (TransactCommand.mkSession "wallet-abc123")
              else None)
    (fun k => match k with
              | O => TransactCommand.Fulfilled tt
              | S _ => TransactCommand.Rejected "ETELEGRAM"
              end)
    (fun _ => TransactCommand.Fulfilled "0xhash").

End MoreSamples.

(** * Properties *)

(** ** Strings *)

Module JsFacts.

Lemma lower_char_idem (c : ascii) : lower_char (lower_char c) = lower_char c.
Proof. destruct c as [[] [] [] [] [] [] [] []]; reflexivity. Qed.

Lemma toLowerCase_idem (s : string) : toLowerCase (toLowerCase s) = toLowerCase s.
Proof.
  induction s as [|c s IH]; simpl; [reflexivity|].
  now rewrite lower_char_idem, IH.
Qed.

End JsFacts.

(** ** PriceService *)

Module PriceServiceFacts.

Import PriceService JsFacts.
Local Open Scope exec_scope.

(** *** Loops *)

Section Loops.

Context {A : Type}.
Variable body : A -> Exec unit.

(** A property of the state kept by every iteration holds when the loop
    stops, normally or by a throw. *)
Lemma forEach_inv (P : Frame -> Prop) (l : list A) :
  (forall x f, x ∈ l -> P f -> P (body x f).2) ->
  forall f, P f -> P (forEach l body f).2.
Proof.
  induction l as [|x l IH]; intros Hstep f Hf; simpl; [exact Hf|].
  unfold bind.
  pose proof (Hstep x f (list_elem_of_here _ _) Hf) as H1.
  destruct (body x f) as [[[]|] f1]; simpl in *; [|exact H1].
  apply IH; [|exact H1].
  intros y g Hy. apply Hstep. now apply list_elem_of_further.
Qed.

(** A loop whose iterations complete normally completes normally. *)
Lemma forEach_normal (l : list A) :
  (forall x f, x ∈ l -> (body x f).1 = Normal tt) ->
  forall f, (forEach l body f).1 = Normal tt.
Proof.
  induction l as [|x l IH]; intros Hstep f; simpl; [reflexivity|].
  unfold bind.
  pose proof (Hstep x f (list_elem_of_here _ _)) as H1.
  destruct (body x f) as [c f1]; simpl in H1; subst c.
  apply IH. intros y g Hy. apply Hstep. now apply list_elem_of_further.
Qed.

(** What the iteration for [x0] establishes, and every iteration keeps,
    holds after a loop that completes normally; [I] is an invariant the
    iterations may rely on. *)
Lemma forEach_establish (I Q : Frame -> Prop) (l : list A) (x0 : A) :
  x0 ∈ l ->
  (forall x f, x ∈ l -> I f -> I (body x f).2) ->
  (forall f, I f -> Q (body x0 f).2) ->
  (forall x f, x ∈ l -> I f -> Q f -> Q (body x f).2) ->
  forall f, I f -> (forEach l body f).1 = Normal tt -> Q (forEach l body f).2.
Proof.
  intros Hin Hinv Hest Hkeep.
  induction l as [|x l IH]; intros f Hf; [now apply not_elem_of_nil in Hin|].
  simpl. unfold bind.
  pose proof (Hest f Hf) as He.
  pose proof (Hinv x f (list_elem_of_here _ _) Hf) as Hi.
  destruct (body x f) as [[[]|] f1] eqn:Hb; simpl in *; [|discriminate].
  intros Hn.
  apply elem_of_cons in Hin as [->|Hin].
  - rewrite Hb in He. simpl in He.
    apply (forEach_inv (fun g => I g /\ Q g)); [|now split].
    intros y g Hy [Hg1 Hg2]. split.
    + apply Hinv; [now apply list_elem_of_further|exact Hg1].
    + apply Hkeep; [now apply list_elem_of_further|exact Hg1|exact Hg2].
  - apply IH; [exact Hin| | |exact Hi|exact Hn].
    + intros y g Hy. apply Hinv. now apply list_elem_of_further.
    + intros y g Hy. apply Hkeep. now apply list_elem_of_further.
Qed.

End Loops.

(** *** Single steps *)

Section Steps.

Variable env : Env.

Lemma checkCache_eq (a : string) (f : Frame) :
  checkCache env a f =
  (Normal tt,
   match cache f !! toLowerCase a with
   | Some c =>
       if Date_now env (ticks f) - timestamp c >? CACHE_TTL_MS
       then mkFrame (cache f) (result f) (uncachedAddresses f ++ [a])
                    (S (ticks f)) (trace f ++ [CacheGet (toLowerCase a)])
       else mkFrame (cache f) (<[a := priceUsd c]> (result f)) (uncachedAddresses f)
                    (S (ticks f)) (trace f ++ [CacheGet (toLowerCase a)])
   | None => mkFrame (cache f) (result f) (uncachedAddresses f ++ [a])
                     (ticks f) (trace f ++ [CacheGet (toLowerCase a)])
   end).
Proof.
  unfold checkCache, getCachedPrice, priceCache_get, emit, now, bind, ret; simpl.
  destruct (cache f !! toLowerCase a) as [c|]; simpl; [|reflexivity].
  destruct (Date_now env (ticks f) - timestamp c >? CACHE_TTL_MS); reflexivity.
Qed.

Lemma parseToken_eq (data : JsValue) (a : string) (f : Frame) :
  parseToken env data a f =
  match usdQuote data a with
  | Some usd =>
      ((if loggable data a usd then Normal tt else Thrown),
       mkFrame (<[a := mkPriceData a (or_else (get (get data a) "symbol") (JStr "UNKNOWN"))
                                   (get usd "price") (Date_now env (ticks f))]> (cache f))
               (<[a := get usd "price"]> (result f))
               (uncachedAddresses f) (S (ticks f)) (trace f))
  | None =>
      (Normal tt,
       mkFrame (cache f) (<[a := JNum 0]> (result f)) (uncachedAddresses f)
               (ticks f) (trace f))
  end.
Proof.
  unfold parseToken.
  destruct (usdQuote data a) as [usd|]; [|reflexivity].
  unfold loggable, logFetched, toString, toFixed.
  unfold now, priceCache_set, result_set, bind, ret, throw; simpl.
  destruct (printable (or_else (get (get data a) "symbol") (JStr "UNKNOWN")));
    destruct (is_number (get usd "price")); reflexivity.
Qed.

(** *** The loop that checks the cache *)

Lemma checkLoop_normal (l : list string) (f : Frame) :
  (forEach l (checkCache env) f).1 = Normal tt.
Proof. apply forEach_normal. intros x g _. now rewrite checkCache_eq. Qed.

Lemma checkLoop_cache (l : list string) (f : Frame) :
  cache (forEach l (checkCache env) f).2 = cache f.
Proof.
  apply (forEach_inv _ (fun g => cache g = cache f)); [|reflexivity].
  intros x g _ Hg. rewrite checkCache_eq; simpl.
  destruct (cache g !! toLowerCase x) as [c|]; [|exact Hg].
  destruct (_ >? _); exact Hg.
Qed.

Lemma checkLoop_trace (l : list string) (f : Frame) :
  trace (forEach l (checkCache env) f).2
  = (trace f ++ map (fun a => CacheGet (toLowerCase a)) l)%list.
Proof.
  revert f. induction l as [|x l IH]; intros f; simpl.
  - now rewrite app_nil_r.
  - unfold bind. rewrite checkCache_eq. rewrite IH.
    destruct (cache f !! toLowerCase x) as [c|]; [destruct (_ >? _)|];
      simpl; now rewrite <- app_assoc.
Qed.

(** The misses are pushed in the order of the list: an element that is
    fresh in the cache at every reading of the clock is never pushed, one
    that is absent or expired at every reading is pushed each time it
    occurs. *)
Lemma checkLoop_uncached (l : list string) (f : Frame) :
  exists u, uncachedAddresses (forEach l (checkCache env) f).2
            = (uncachedAddresses f ++ u)%list
            /\ sublist u l
            /\ (forall a c, cache f !! toLowerCase a = Some c ->
                  (forall k, Date_now env k - timestamp c <= CACHE_TTL_MS) -> a ∉ u)
            /\ (forall a, (forall c, cache f !! toLowerCase a = Some c ->
                            forall k, Date_now env k - timestamp c > CACHE_TTL_MS) ->
                  filter (fun x => x = a) u = filter (fun x => x = a) l).
Proof.
  revert f. induction l as [|x l IH]; intros f; simpl.
  - exists []. split; [now rewrite app_nil_r|]. split; [constructor|].
    split; [intros; apply not_elem_of_nil|reflexivity].
  - unfold bind. rewrite checkCache_eq.
    match goal with |- context [forEach l _ ?g] =>
      destruct (IH g) as (u & Hu & Hsub & Hhit & Hmiss) end.
    rewrite Hu.
    assert (Hpush : exists u0, (uncachedAddresses f ++ [x] ++ u = uncachedAddresses f ++ u0)%list
              /\ sublist u0 (x :: l)
              /\ (forall a c, cache f !! toLowerCase a = Some c ->
                    (forall k, Date_now env k - timestamp c <= CACHE_TTL_MS) ->
                    a <> x -> a ∉ u0)
              /\ (forall a, (forall c, cache f !! toLowerCase a = Some c ->
                              forall k, Date_now env k - timestamp c > CACHE_TTL_MS) ->
                    filter (fun y => y = a) u0 = filter (fun y => y = a) (x :: l))).
    { exists (x :: u). split; [reflexivity|]. split; [now constructor|]. split.
      - intros a c Ha Hfresh Hne Hin. apply elem_of_cons in Hin as [Hin|Hin]; [easy|].
        revert Hin. destruct (cache f !! toLowerCase x) as [cx|]; [destruct (_ >? _)|];
          simpl in Hhit; eapply Hhit; eauto.
      - intros a Ha. rewrite !filter_cons.
        assert (filter (fun y => y = a) u = filter (fun y => y = a) l) as ->; [|reflexivity].
        destruct (cache f !! toLowerCase x) as [cx|]; [destruct (_ >? _)|];
          simpl in Hmiss; apply Hmiss; exact Ha. }
    destruct (cache f !! toLowerCase x) as [c|] eqn:Hx; simpl in *.
    + destruct (Date_now env (ticks f) - timestamp c >? CACHE_TTL_MS) eqn:Hcmp; simpl in *.
      * destruct Hpush as (u0 & E & S0 & H0 & M0). exists u0.
        rewrite <- app_assoc. split; [exact E|]. split; [exact S0|]. split; [|exact M0].
        intros a ca Ha Hfresh. apply (H0 a ca Ha Hfresh). intros ->.
        rewrite Hx in Ha. injection Ha as <-. specialize (Hfresh (ticks f)).
        apply Z.gtb_lt in Hcmp. lia.
      * exists u. split; [reflexivity|]. split; [now constructor|]. split; [exact Hhit|].
        intros a Ha. rewrite filter_cons. destruct (decide (x = a)) as [->|Hne].
        -- exfalso. specialize (Ha c Hx (ticks f)).
           destruct (Z.gtb_spec (Date_now env (ticks f) - timestamp c) CACHE_TTL_MS); [discriminate|lia].
        -- now apply Hmiss.
    + destruct Hpush as (u0 & E & S0 & H0 & M0). exists u0.
      rewrite <- app_assoc. split; [exact E|]. split; [exact S0|]. split; [|exact M0].
      intros a ca Ha Hfresh. apply (H0 a ca Ha Hfresh). intros ->. congruence.
Qed.

(** Every key the loop sets is an element of the list, and is set to the
    price of the entry cached under it. *)
Lemma checkLoop_result (l : list string) (f : Frame) (k : string) :
  let f1 := (forEach l (checkCache env) f).2 in
  result f1 !! k = result f !! k
  \/ (k ∈ l /\ exists c, cache f !! toLowerCase k = Some c
                         /\ result f1 !! k = Some (priceUsd c)).
Proof.
  simpl.
  apply (forEach_inv _ (fun g =>
           cache g = cache f /\
           (result g !! k = result f !! k
            \/ (k ∈ l /\ exists c, cache f !! toLowerCase k = Some c
                                   /\ result g !! k = Some (priceUsd c)))));
    [|now split; [|left]].
  intros x g Hx [Hc Hg]. rewrite checkCache_eq; simpl.
  destruct (cache g !! toLowerCase x) as [c|] eqn:Hl; [|now split].
  destruct (_ >? _); simpl; [now split|]. split; [exact Hc|].
  destruct (decide (x = k)) as [->|Hne].
  - right. split; [exact Hx|]. exists c. rewrite <- Hc. split; [exact Hl|].
    apply lookup_insert_eq.
  - rewrite lookup_insert_ne by exact Hne. exact Hg.
Qed.

(** Every element of the list ends up priced from the cache or pushed. *)
Lemma checkLoop_cover (l : list string) (f : Frame) (a : string) :
  a ∈ l ->
  let f1 := (forEach l (checkCache env) f).2 in
  is_Some (result f1 !! a) \/ a ∈ uncachedAddresses f1.
Proof.
  intros Ha. simpl.
  apply (forEach_establish _ (fun _ => True)
           (fun g => is_Some (result g !! a) \/ a ∈ uncachedAddresses g) l a Ha);
    [easy| | |easy|apply checkLoop_normal].
  - intros g _. rewrite checkCache_eq; simpl.
    destruct (cache g !! toLowerCase a) as [c|]; [destruct (_ >? _)|]; simpl.
    + right. apply elem_of_app. right. apply list_elem_of_here.
    + left. rewrite lookup_insert_eq. eauto.
    + right. apply elem_of_app. right. apply list_elem_of_here.
  - intros x g _ _ Hg. rewrite checkCache_eq; simpl.
    destruct (cache g !! toLowerCase x) as [c|]; [destruct (_ >? _)|]; simpl.
    + destruct Hg as [Hg|Hg]; [now left|right]. apply elem_of_app. now left.
    + destruct Hg as [Hg|Hg]; [left|now right].
      destruct (decide (x = a)) as [->|Hne]; [rewrite lookup_insert_eq; eauto|].
      now rewrite lookup_insert_ne.
    + destruct Hg as [Hg|Hg]; [now left|right]. apply elem_of_app. now left.
Qed.

(** An element that is fresh in the cache at every reading of the clock
    is priced from the cache. *)
Lemma checkLoop_hit (l : list string) (f : Frame) (a : string) (c : PriceData) :
  a ∈ l ->
  cache f !! toLowerCase a = Some c ->
  (forall k, Date_now env k - timestamp c <= CACHE_TTL_MS) ->
  result (forEach l (checkCache env) f).2 !! a = Some (priceUsd c).
Proof.
  intros Ha Hc Hfresh.
  assert (Hset : forall g, cache g = cache f ->
            result (checkCache env a g).2 !! a = Some (priceUsd c)).
  { intros g Hg. rewrite checkCache_eq; simpl. rewrite Hg, Hc.
    destruct (Z.gtb_spec (Date_now env (ticks g) - timestamp c) CACHE_TTL_MS) as [Hgt|_].
    - specialize (Hfresh (ticks g)). lia.
    - apply lookup_insert_eq. }
  apply (forEach_establish _ (fun g => cache g = cache f)
           (fun g => result g !! a = Some (priceUsd c)) l a Ha);
    [| | |reflexivity|apply checkLoop_normal].
  - intros x g _ Hg. rewrite checkCache_eq; simpl.
    destruct (cache g !! toLowerCase x) as [cx|]; [destruct (_ >? _)|]; exact Hg.
  - exact Hset.
  - intros x g _ Hg Hr. destruct (decide (x = a)) as [->|Hne]; [now apply Hset|].
    rewrite checkCache_eq; simpl.
    destruct (cache g !! toLowerCase x) as [cx|]; [destruct (_ >? _)|]; simpl;
      [exact Hr| |exact Hr].
    now rewrite lookup_insert_ne.
Qed.

(** *** The loop that reads the response *)

Section ParseLoop.

Variable data : JsValue.

Lemma parseLoop_frame (u : list string) (f : Frame) :
  let f3 := (forEach u (parseToken env data) f).2 in
  uncachedAddresses f3 = uncachedAddresses f /\ trace f3 = trace f.
Proof.
  simpl.
  apply (forEach_inv _ (fun g => uncachedAddresses g = uncachedAddresses f
                                 /\ trace g = trace f)); [|now split].
  intros x g _ Hg. rewrite parseToken_eq.
  destruct (usdQuote data x); exact Hg.
Qed.

(** The loop writes the cache only under addresses of the list for which
    the response passes the test, and removes nothing. *)
Lemma parseLoop_cache (u : list string) (f : Frame) (k : string) :
  let f3 := (forEach u (parseToken env data) f).2 in
  (cache f3 !! k = cache f !! k \/ (k ∈ u /\ is_Some (usdQuote data k)))
  /\ (is_Some (cache f !! k) -> is_Some (cache f3 !! k)).
Proof.
  simpl.
  apply (forEach_inv _ (fun g =>
           (cache g !! k = cache f !! k \/ (k ∈ u /\ is_Some (usdQuote data k)))
           /\ (is_Some (cache f !! k) -> is_Some (cache g !! k))));
    [|now split; [left|]].
  intros x g Hx [Hg1 Hg2]. rewrite parseToken_eq.
  destruct (usdQuote data x) as [usd|] eqn:Hq; simpl; [|now split].
  destruct (decide (x = k)) as [->|Hne].
  - split; [right; split; [exact Hx|rewrite Hq; eauto]|].
    intros _. rewrite lookup_insert_eq. eauto.
  - rewrite lookup_insert_ne by exact Hne. now split.
Qed.

Lemma parseLoop_result_keys (u : list string) (f : Frame) (k : string) :
  let f3 := (forEach u (parseToken env data) f).2 in
  result f3 !! k = result f !! k \/ k ∈ u.
Proof.
  simpl.
  apply (forEach_inv _ (fun g => result g !! k = result f !! k \/ k ∈ u)); [|now left].
  intros x g Hx Hg. rewrite parseToken_eq.
  destruct (decide (x = k)) as [->|Hne]; [now right|].
  destruct (usdQuote data x); simpl; now rewrite lookup_insert_ne.
Qed.

Lemma parseLoop_normal (u : list string) (f : Frame) :
  (forall a usd, a ∈ u -> usdQuote data a = Some usd -> loggable data a usd = true) ->
  (forEach u (parseToken env data) f).1 = Normal tt.
Proof.
  intros Hnum. apply forEach_normal. intros x g Hx. rewrite parseToken_eq.
  destruct (usdQuote data x) as [usd|] eqn:Hq; [|reflexivity].
  simpl. now rewrite (Hnum x usd Hx Hq).
Qed.

Lemma parseLoop_result (u : list string) (f : Frame) (a : string) :
  a ∈ u ->
  (forEach u (parseToken env data) f).1 = Normal tt ->
  result (forEach u (parseToken env data) f).2 !! a = Some (quotedPrice data a).
Proof.
  intros Ha.
  assert (Hset : forall g, result (parseToken env data a g).2 !! a
                           = Some (quotedPrice data a)).
  { intros g. rewrite parseToken_eq. unfold quotedPrice.
    destruct (usdQuote data a); simpl; apply lookup_insert_eq. }
  apply (forEach_establish _ (fun _ => True)
           (fun g => result g !! a = Some (quotedPrice data a)) u a Ha); [easy| | |easy].
  - intros g _. apply Hset.
  - intros x g _ _ Hr. destruct (decide (x = a)) as [->|Hne]; [apply Hset|].
    rewrite parseToken_eq. destruct (usdQuote data x); simpl; now rewrite lookup_insert_ne.
Qed.

End ParseLoop.

End Steps.

(** *** Filling in zeros *)

Lemma zeroFill_eq (u : list string) (f : Frame) :
  exists r,
    forEach u (fun addr => result_set addr (JNum 0)) f
    = (Normal tt, mkFrame (cache f) r (uncachedAddresses f) (ticks f) (trace f))
    /\ forall k, r !! k = if decide (k ∈ u) then Some (JNum 0) else result f !! k.
Proof.
  revert f. induction u as [|x u IH]; intros f; simpl.
  - exists (result f). destruct f; split; [reflexivity|].
    intros k. destruct (decide (k ∈ [])) as [H|_]; [now apply not_elem_of_nil in H|reflexivity].
  - unfold bind, result_set at 1.
    match goal with |- context [forEach u _ ?g] => destruct (IH g) as (r & E & Hr) end.
    exists r. split; [exact E|]. intros k. rewrite Hr. simpl.
    destruct (decide (k ∈ u)) as [Hin|Hnin].
    + rewrite decide_True; [reflexivity|now apply list_elem_of_further].
    + destruct (decide (k = x)) as [->|Hne].
      * rewrite decide_True by apply list_elem_of_here. apply lookup_insert_eq.
      * rewrite decide_False; [now rewrite lookup_insert_ne|].
        intros [?|?]%elem_of_cons; congruence.
Qed.

Lemma forEach_map {A B} (g : A -> B) (body : B -> Exec unit) (l : list A) (f : Frame) :
  forEach l (fun x => body (g x)) f = forEach (map g l) body f.
Proof.
  revert f. induction l as [|x l IH]; intros f; simpl; [reflexivity|].
  unfold bind. destruct (body (g x) f) as [[[]|] f1]; [apply IH|reflexivity].
Qed.

(** *** The method as a whole *)

Section Runs.

Variable env : Env.

Lemma fetchUncached_eq (key : string) (f : Frame) :
  fetchUncached env key f =
  let u := uncachedAddresses f in
  let f2 := mkFrame (cache f) (result f) u (ticks f)
                    (trace f ++ [HttpGet (quotesRequest key u)]) in
  match axios_get env (quotesRequest key u) with
  | Rejected => forEach u (fun addr => result_set addr (JNum 0)) f2
  | Resolved body =>
      if truthy body && truthy (get body "data") then
        match forEach u (parseToken env (get body "data")) f2 with
        | (Normal a, f3) => (Normal a, f3)
        | (Thrown, f3) => forEach u (fun addr => result_set addr (JNum 0)) f3
        end
      else (Normal tt, f2)
  end.
Proof.
  unfold fetchUncached, try_catch, bind, read_uncachedAddresses, http_get, emit, bind.
  simpl.
  destruct (axios_get env (quotesRequest key (uncachedAddresses f))) as [|body]; simpl;
    [reflexivity|].
  destruct (truthy body && truthy (get body "data")); simpl; [|reflexivity].
  match goal with |- context [forEach _ (parseToken env ?d) ?g] =>
    pose proof (parseLoop_frame env d (uncachedAddresses f) g) as [Hu _];
    destruct (forEach (uncachedAddresses f) (parseToken env d) g) as [[a|] f3]
  end; simpl in *; [reflexivity|].
  now rewrite Hu.
Qed.

Lemma getTokenPrices_body_eq (key : string) (addresses : list string) (chainId : Z)
      (f : Frame) :
  key <> "" ->
  getTokenPrices_body env key addresses chainId f =
  let f1 := (forEach (map toLowerCase addresses) (checkCache env) f).2 in
  if decide (uncachedAddresses f1 = []) then (Normal tt, f1)
  else fetchUncached env key f1.
Proof.
  intros Hkey. unfold getTokenPrices_body.
  destruct (String.eqb_spec key ""); [contradiction|].
  unfold bind, read_uncachedAddresses.
  pose proof (checkLoop_normal env (map toLowerCase addresses) f) as Hn.
  destruct (forEach (map toLowerCase addresses) (checkCache env) f) as [c f1].
  simpl in *. subst c. destruct (uncachedAddresses f1); reflexivity.
Qed.

(** Without an API key: zeros under the lowercased keys, nothing else. *)
Lemma unkeyed_run (s : Service) (addresses : list string) (chainId : Z) :
  apiKey s = "" ->
  let o := getTokenPrices env s addresses chainId in
  exists r, returned o = Normal r
            /\ events o = []
            /\ service o = s
            /\ forall k, r !! k = if decide (k ∈ map toLowerCase addresses)
                                  then Some (JNum 0) else None.
Proof.
  intros Hkey. unfold getTokenPrices, getTokenPrices_body. rewrite Hkey. simpl.
  rewrite (forEach_map toLowerCase (fun a => result_set a (JNum 0))).
  match goal with |- context [forEach ?u _ ?g] =>
    destruct (zeroFill_eq u g) as (r & E & Hr) end.
  rewrite E. simpl. exists r. split; [reflexivity|]. split; [reflexivity|].
  split; [destruct s; simpl in *; now subst|].
  intros k. rewrite Hr. destruct (decide _); [reflexivity|apply lookup_empty].
Qed.

(** With an API key: the events, the cache and the returned map in terms
    of the addresses [u] the cache check has pushed and of the reply to the
    one request made for them. *)
Lemma keyed_run (s : Service) (addresses : list string) (chainId : Z) :
  apiKey s <> "" ->
  let l := map toLowerCase addresses in
  let f1 := (forEach l (checkCache env) (mkFrame (priceCache s) ∅ [] 0 [])).2 in
  let u := uncachedAddresses f1 in
  let req := quotesRequest (apiKey s) u in
  let o := getTokenPrices env s addresses chainId in
  exists r,
    returned o = Normal r
    /\ events o = (map (fun a => CacheGet (toLowerCase a)) l
                   ++ (if decide (u = []) then [] else [HttpGet req]))%list
    /\ apiKey (service o) = apiKey s
    /\ (forall k, is_Some (priceCache s !! k) -> is_Some (priceCache (service o) !! k))
    /\ (forall k, priceCache (service o) !! k = priceCache s !! k
                  \/ (k ∈ u /\ exists body,
                        axios_get env req = Resolved body
                        /\ truthy body = true /\ truthy (get body "data") = true
                        /\ is_Some (usdQuote (get body "data") k)))
    /\ (forall k, k ∉ u -> r !! k = result f1 !! k)
    /\ (forall k, k ∈ u ->
          match axios_get env req with
          | Rejected => r !! k = Some (JNum 0)
          | Resolved body =>
              truthy body && truthy (get body "data") = true ->
              (forall a usd, a ∈ u -> usdQuote (get body "data") a = Some usd ->
                             loggable (get body "data") a usd = true) ->
              r !! k = Some (quotedPrice (get body "data") k)
          end).
Proof.
  intros Hkey. cbv zeta. unfold getTokenPrices.
  rewrite getTokenPrices_body_eq by exact Hkey. cbv zeta.
  set (f0 := mkFrame (priceCache s) ∅ [] 0 []).
  pose proof (checkLoop_cache env (map toLowerCase addresses) f0) as Hc1.
  pose proof (checkLoop_trace env (map toLowerCase addresses) f0) as Ht1.
  set (f1 := (forEach (map toLowerCase addresses) (checkCache env) f0).2) in *.
  simpl in Hc1, Ht1.
  set (u := uncachedAddresses f1).
  destruct (decide (u = [])) as [Hu|Hu].
  - exists (result f1). cbn. rewrite Hc1, Ht1, app_nil_r.
    repeat split; try done.
    + now left.
    + intros k Hk. rewrite Hu in Hk. now apply not_elem_of_nil in Hk.
  - rewrite fetchUncached_eq. cbv zeta. fold u.
    set (req := quotesRequest (apiKey s) u).
    set (f2 := mkFrame (cache f1) (result f1) u (ticks f1) (trace f1 ++ [HttpGet req])).
    destruct (axios_get env req) as [|body] eqn:Hreply.
    + destruct (zeroFill_eq u f2) as (r & E & Hr). rewrite E. cbn.
      exists r. rewrite Hc1, Ht1. repeat split; try done.
      * now left.
      * intros k Hk. rewrite Hr. now rewrite decide_False.
      * intros k Hk. rewrite Hr. now rewrite decide_True.
    + destruct (truthy body && truthy (get body "data")) eqn:Hcond.
      * apply andb_prop in Hcond as Hcond2. destruct Hcond2 as [Hb Hd].
        pose proof (parseLoop_frame env (get body "data") u f2) as [_ Ht3].
        pose proof (fun k => parseLoop_cache env (get body "data") u f2 k) as Hc3.
        pose proof (fun k => parseLoop_result_keys env (get body "data") u f2 k) as Hk3.
        pose proof (fun a Ha => parseLoop_result env (get body "data") u f2 a Ha) as Hr3.
        pose proof (parseLoop_normal env (get body "data") u f2) as Hn3.
        destruct (forEach u (parseToken env (get body "data")) f2) as [[[]|] f3];
          cbn in Ht3, Hc3, Hk3, Hr3, Hn3.
        -- exists (result f3). cbn. rewrite Ht3, Ht1. repeat split; try done.
           ++ intros k Hk. apply Hc3. now rewrite Hc1.
           ++ intros k. destruct (Hc3 k) as [[Heq|[Hin Hq]] _].
              ** left. now rewrite Heq, Hc1.
              ** right. split; [exact Hin|]. now exists body.
           ++ intros k Hk. destruct (Hk3 k) as [Heq|Hin]; [exact Heq|contradiction].
           ++ intros k Hk _ _. now apply Hr3.
        -- destruct (zeroFill_eq u f3) as (r & E & Hr). rewrite E. cbn.
           exists r. rewrite Ht3, Ht1. repeat split; try done.
           ++ intros k Hk. apply Hc3. now rewrite Hc1.
           ++ intros k. destruct (Hc3 k) as [[Heq|[Hin Hq]] _].
              ** left. now rewrite Heq, Hc1.
              ** right. split; [exact Hin|]. now exists body.
           ++ intros k Hk. rewrite Hr, decide_False by exact Hk.
              destruct (Hk3 k) as [Heq|Hin]; [exact Heq|contradiction].
           ++ intros k Hk _ Hnum. specialize (Hn3 Hnum). discriminate.
      * exists (result f1). cbn. rewrite Hc1, Ht1. repeat split; try done.
        now left.
Qed.

End Runs.

(** *** Events *)

Lemma httpCalls_gets (l : list string) (rest : list Event) :
  httpCalls (map (fun a => CacheGet (toLowerCase a)) l ++ rest) = httpCalls rest.
Proof.
  unfold httpCalls. rewrite omap_app.
  induction l as [|x l IH]; simpl; [reflexivity|exact IH].
Qed.

Lemma cacheGets_gets (l : list string) (rest : list Event) :
  cacheGets (map (fun a => CacheGet (toLowerCase a)) l ++ rest)
  = (map toLowerCase l ++ cacheGets rest)%list.
Proof.
  unfold cacheGets. rewrite omap_app. f_equal.
  induction l as [|x l IH]; simpl; [reflexivity|now rewrite <- IH].
Qed.

Lemma elem_of_lowered (a : string) (addresses : list string) :
  a ∈ addresses -> toLowerCase a ∈ map toLowerCase addresses.
Proof. intros Ha. apply (list_elem_of_fmap_2 toLowerCase). exact Ha. Qed.

Lemma lowered_elem_of (k : string) (addresses : list string) :
  k ∈ map toLowerCase addresses -> exists a, a ∈ addresses /\ k = toLowerCase a.
Proof.
  intros Hk. apply (list_elem_of_fmap_1 toLowerCase) in Hk as (a & -> & Ha). eauto.
Qed.

(** *** The cache *)

Lemma new_without_key : apiKey (new None None) = "".
Proof. reflexivity. Qed.

(** The cache check pushes nothing when every requested address is a hit. *)
Lemma all_hits_nothing_pushed (env : Env) (s : Service) (addresses : list string) :
  (forall a, a ∈ addresses -> exists c, hit env s a c) ->
  uncachedAddresses (forEach (map toLowerCase addresses) (checkCache env)
                             (mkFrame (priceCache s) ∅ [] 0 [])).2 = [].
Proof.
  intros Hall.
  destruct (checkLoop_uncached env (map toLowerCase addresses)
              (mkFrame (priceCache s) ∅ [] 0 [])) as (u & -> & Hsub & Hhit & _).
  simpl. destruct u as [|k u]; [reflexivity|]. exfalso.
  assert (Hk : k ∈ map toLowerCase addresses).
  { eapply sublist_submseteq, elem_of_submseteq in Hsub; [exact Hsub|apply list_elem_of_here]. }
  apply lowered_elem_of in Hk as (a & Ha & ->).
  destruct (Hall a Ha) as (c & Hc & Hfresh).
  apply (Hhit (toLowerCase a) c); [|exact Hfresh|apply list_elem_of_here].
  simpl. now rewrite toLowerCase_idem.
Qed.

(** A call changes the cache at most under the lowercased requested
    addresses for which its answered request passes the test of
    [usdQuote], and never removes a key. *)
Lemma cache_changes (env : Env) (s : Service) (addresses : list string) (chainId : Z) :
  let o := getTokenPrices env s addresses chainId in
  (forall k, is_Some (priceCache s !! k) -> is_Some (priceCache (service o) !! k))
  /\ (forall k, priceCache (service o) !! k <> priceCache s !! k ->
        k ∈ map toLowerCase addresses
        /\ exists req body, httpCalls (events o) = [req]
                            /\ axios_get env req = Resolved body
                            /\ truthy body = true /\ truthy (get body "data") = true
                            /\ is_Some (usdQuote (get body "data") k)).
Proof.
  cbv zeta. destruct (decide (apiKey s = "")) as [Hkey|Hkey].
  - destruct (unkeyed_run env s addresses chainId Hkey) as (r & _ & _ & -> & _).
    split; [easy|]. intros k Hk. congruence.
  - destruct (keyed_run env s addresses chainId Hkey) as (r & _ & Hev & _ & Hmono & Hch & _).
    cbv zeta in *. split; [exact Hmono|].
    intros k Hk. destruct (Hch k) as [Heq|(Hin & body & Hreply & Hb & Hd & Hq)]; [congruence|].
    destruct (checkLoop_uncached env (map toLowerCase addresses)
                (mkFrame (priceCache s) ∅ [] 0 [])) as (u & Hu & Hsub & _).
    simpl in Hu. rewrite Hu in Hin, Hev, Hreply. split.
    + eapply sublist_submseteq, elem_of_submseteq in Hsub; eauto.
    + eexists _, body. rewrite Hev, httpCalls_gets.
      rewrite decide_False; [|intros ->; now apply not_elem_of_nil in Hin].
      split; [reflexivity|]. auto.
Qed.

(** C4: without a configured API key getTokenPrices returns exactly 0 for
    every requested address (under its lowercased key; the map holds
    nothing but zeros) and makes no remote pricing call. *)
Theorem no_api_key_zero_prices (env : Env) (s : Service) (addresses : list string)
        (chainId : Z) :
  apiKey s = "" ->
  let o := getTokenPrices env s addresses chainId in
  exists r, returned o = Normal r
            /\ (forall a, a ∈ addresses -> r !! toLowerCase a = Some (JNum 0))
            /\ (forall k v, r !! k = Some v -> v = JNum 0)
            /\ httpCalls (events o) = [].
Proof.
  intros Hkey. cbv zeta.
  destruct (unkeyed_run env s addresses chainId Hkey) as (r & Hr & Hev & _ & Hl).
  exists r. split; [exact Hr|]. split; [|split].
  - intros a Ha. rewrite Hl, decide_True; [reflexivity|now apply elem_of_lowered].
  - intros k v. rewrite Hl. destruct (decide _); congruence.
  - now rewrite Hev.
Qed.

(** C9: every key of the returned map is the lowercased form of a
    requested address, with or without an API key, so the map has no
    entry under an address string that is not already in lower case. *)
Theorem result_keys_lowercased (env : Env) (s : Service) (addresses : list string)
        (chainId : Z) :
  exists r, returned (getTokenPrices env s addresses chainId) = Normal r
            /\ (forall k, is_Some (r !! k) ->
                          exists a, a ∈ addresses /\ k = toLowerCase a)
            /\ (forall a, toLowerCase a <> a -> r !! a = None).
Proof.
  assert (Hkeys : exists r, returned (getTokenPrices env s addresses chainId) = Normal r
                            /\ forall k, is_Some (r !! k) -> k ∈ map toLowerCase addresses).
  { destruct (decide (apiKey s = "")) as [Hkey|Hkey].
    - destruct (unkeyed_run env s addresses chainId Hkey) as (r & Hr & _ & _ & Hl).
      exists r. split; [exact Hr|]. intros k. rewrite Hl.
      destruct (decide _); [easy|]. intros [? ?]. discriminate.
    - destruct (keyed_run env s addresses chainId Hkey) as (r & Hr & _ & _ & _ & _ & Hout & _).
      cbv zeta in *. exists r. split; [exact Hr|]. intros k Hk.
      destruct (checkLoop_uncached env (map toLowerCase addresses)
                  (mkFrame (priceCache s) ∅ [] 0 [])) as (u & Hu & Hsub & _).
      simpl in Hu. rewrite Hu in Hout.
      destruct (decide (k ∈ u)) as [Hin|Hnin].
      + eapply sublist_submseteq, elem_of_submseteq in Hsub; eauto.
      + rewrite (Hout k Hnin) in Hk.
        destruct (checkLoop_result env (map toLowerCase addresses)
                    (mkFrame (priceCache s) ∅ [] 0 []) k) as [Heq|[Hin _]]; [|exact Hin].
        rewrite Heq in Hk. simpl in Hk. rewrite lookup_empty in Hk. now destruct Hk. }
  destruct Hkeys as (r & Hr & Hk). exists r. split; [exact Hr|]. split.
  - intros k Hs. now apply lowered_elem_of, Hk.
  - intros a Hne. destruct (r !! a) eqn:Hl; [|reflexivity]. exfalso.
    destruct (lowered_elem_of a addresses (Hk a ltac:(eauto))) as (b & _ & ->).
    apply Hne. apply toLowerCase_idem.
Qed.

(** C5: the lookup answers absent for a key that is not stored and for an
    entry older than 60000 ms (an entry aged exactly 60000 ms is still
    served); it leaves the cache as it is; a call of getTokenPrices
    removes no key; clearCache empties the cache. *)
Theorem lookup_lazy_expiry (env : Env) (s : Service) (a : string) :
  (priceCache s !! toLowerCase a = None -> (cachedPrice env s a).1 = None)
  /\ (forall c, priceCache s !! toLowerCase a = Some c ->
                Date_now env 0 - timestamp c > 60000 -> (cachedPrice env s a).1 = None)
  /\ (forall c, priceCache s !! toLowerCase a = Some c ->
                Date_now env 0 - timestamp c <= 60000 -> (cachedPrice env s a).1 = Some c)
  /\ (cachedPrice env s a).2 = s
  /\ (forall addresses chainId k,
        is_Some (priceCache s !! k) ->
        is_Some (priceCache (service (getTokenPrices env s addresses chainId)) !! k))
  /\ priceCache (clearCache s) = ∅.
Proof.
  unfold cachedPrice, getCachedPrice, priceCache_get, emit, now, bind, ret. simpl.
  repeat split.
  - now intros ->.
  - intros c -> Hage. simpl.
    destruct (Z.gtb_spec (Date_now env 0 - timestamp c) CACHE_TTL_MS) as [_|Hle];
      [reflexivity|unfold CACHE_TTL_MS in Hle; lia].
  - intros c -> Hage. simpl.
    destruct (Z.gtb_spec (Date_now env 0 - timestamp c) CACHE_TTL_MS) as [Hgt|_];
      [unfold CACHE_TTL_MS in Hgt; lia|reflexivity].
  - destruct (priceCache s !! toLowerCase a) as [c|]; simpl;
      [destruct (_ >? _)|]; now destruct s.
  - intros addresses chainId k. apply cache_changes.
Qed.

(** X22: a call in which every requested address is a fresh cache hit, or
    that runs without an API key, leaves the service as it was; a call
    writes the cache only under a lowercased requested address for which
    its one remote request was answered with a body whose entry for that
    address has a truthy [quote.USD] member (the test of [usdQuote], which
    does not look at the price); no call removes a key. *)
Theorem cache_frame (env : Env) (s : Service) (addresses : list string) (chainId : Z) :
  let o := getTokenPrices env s addresses chainId in
  (apiKey s = "" -> service o = s)
  /\ ((forall a, a ∈ addresses -> exists c, hit env s a c) -> service o = s)
  /\ (forall k, priceCache (service o) !! k <> priceCache s !! k ->
        k ∈ map toLowerCase addresses
        /\ exists req body, httpCalls (events o) = [req]
                            /\ axios_get env req = Resolved body
                            /\ is_Some (usdQuote (get body "data") k))
  /\ (forall k, is_Some (priceCache s !! k) -> is_Some (priceCache (service o) !! k)).
Proof.
  cbv zeta.
  assert (Hun : apiKey s = "" -> service (getTokenPrices env s addresses chainId) = s).
  { intros Hkey. now destruct (unkeyed_run env s addresses chainId Hkey) as (r & _ & _ & -> & _). }
  split; [exact Hun|]. split; [|split].
  - intros Hall. destruct (decide (apiKey s = "")) as [Hkey|Hkey]; [now apply Hun|].
    destruct (keyed_run env s addresses chainId Hkey) as (r & _ & _ & Hk & _ & Hch & _).
    cbv zeta in *. rewrite (all_hits_nothing_pushed env s addresses Hall) in Hch.
    destruct (service (getTokenPrices env s addresses chainId)) as [key' cache'].
    destruct s as [key cache0]. simpl in *. subst key'. f_equal.
    apply map_eq. intros k. destruct (Hch k) as [Heq|[Hin _]]; [exact Heq|].
    now apply not_elem_of_nil in Hin.
  - intros k Hk.
    destruct (cache_changes env s addresses chainId) as [_ Hch].
    destruct (Hch k Hk) as (Hin & req & body & Hreq & Hreply & _ & _ & Hq).
    split; [exact Hin|]. now exists req, body.
  - apply cache_changes.
Qed.

(** *** The returned prices *)

Lemma default_responsePrice (env : Env) (o : Outcome) (req : Request) (k : string) :
  httpCalls (events o) = [req] ->
  default (JNum 0) (responsePrice env o k)
  = match axios_get env req with
    | Rejected => JNum 0
    | Resolved body => quotedPrice (get body "data") k
    end.
Proof.
  intros Hreq. unfold responsePrice, quotedPrice. rewrite Hreq.
  destruct (axios_get env req) as [|body]; [reflexivity|].
  now destruct (usdQuote (get body "data") k).
Qed.

(** C1, amended: when the remote request of the call, if it makes one, is
    rejected or is answered by a body with a truthy [data] member whose
    USD quotes for the requested addresses have numeric prices and come
    with symbols that can be converted to a string, the
    returned map has an entry for every requested address under its
    lowercased key: 0 when no API key is configured; otherwise the cached
    price for a fresh cache hit and, for a miss, the price the response
    carries for it, or 0 when the response carries none or the request
    was rejected. *)
Theorem prices_by_source (env : Env) (s : Service) (addresses : list string) (chainId : Z) :
  let o := getTokenPrices env s addresses chainId in
  (forall req, req ∈ httpCalls (events o) -> usable addresses (axios_get env req)) ->
  exists r, returned o = Normal r
            /\ (forall a, a ∈ addresses -> is_Some (r !! toLowerCase a))
            /\ (apiKey s = "" ->
                forall a, a ∈ addresses -> r !! toLowerCase a = Some (JNum 0))
            /\ (apiKey s <> "" ->
                forall a c, a ∈ addresses -> hit env s a c ->
                            r !! toLowerCase a = Some (priceUsd c))
            /\ (apiKey s <> "" ->
                forall a, a ∈ addresses -> miss env s a ->
                          r !! toLowerCase a
                          = Some (default (JNum 0) (responsePrice env o (toLowerCase a)))).
Proof.
  cbv zeta. intros Huse. destruct (decide (apiKey s = "")) as [Hkey|Hkey].
  { destruct (unkeyed_run env s addresses chainId Hkey) as (r & Hr & _ & _ & Hl).
    assert (Hz : forall a, a ∈ addresses -> r !! toLowerCase a = Some (JNum 0)).
    { intros a Ha. rewrite Hl, decide_True; [reflexivity|now apply elem_of_lowered]. }
    exists r. split; [exact Hr|]. split; [|split; [|split]]; try easy.
    intros a Ha. rewrite (Hz a Ha). eauto. }
  destruct (keyed_run env s addresses chainId Hkey) as (r & Hr & Hev & _ & _ & _ & Hout & Hin).
  cbv zeta in *.
  set (f0 := mkFrame (priceCache s) ∅ [] 0 []) in *.
  destruct (checkLoop_uncached env (map toLowerCase addresses) f0)
    as (u & Hu & Hsub & Hhit & Hmiss).
  simpl in Hu. rewrite Hu in Hev, Hout, Hin.
  set (req := quotesRequest (apiKey s) u) in *.
  assert (Hsubl : forall k, k ∈ u -> exists a, a ∈ addresses /\ k = toLowerCase a).
  { intros k Hk. apply lowered_elem_of.
    eapply sublist_submseteq, elem_of_submseteq in Hsub; eauto. }
  assert (Hpushed : forall k, k ∈ u ->
            httpCalls (events (getTokenPrices env s addresses chainId)) = [req]
            /\ r !! k = Some (default (JNum 0)
                    (responsePrice env (getTokenPrices env s addresses chainId) k))).
  { intros k Hk.
    assert (Hreq : httpCalls (events (getTokenPrices env s addresses chainId)) = [req]).
    { rewrite Hev, httpCalls_gets, decide_False; [reflexivity|].
      intros ->. now apply not_elem_of_nil in Hk. }
    split; [exact Hreq|]. rewrite (default_responsePrice _ _ req k Hreq).
    specialize (Hin k Hk). specialize (Huse req). rewrite Hreq in Huse.
    specialize (Huse (list_elem_of_here _ _)).
    destruct (axios_get env req) as [|body]; [exact Hin|].
    destruct Huse as (Hb & Hd & Hnum). apply Hin.
    - now rewrite Hb, Hd.
    - intros a usd Ha Hq. destruct (Hsubl a Ha) as (a' & Ha' & ->). eauto. }
  exists r. split; [exact Hr|]. split; [|split; [|split]].
  - intros a Ha. destruct (decide (toLowerCase a ∈ u)) as [Hk|Hk].
    + destruct (Hpushed _ Hk) as [_ ->]. eauto.
    + rewrite (Hout _ Hk).
      destruct (checkLoop_cover env (map toLowerCase addresses) f0 (toLowerCase a)
                  (elem_of_lowered a addresses Ha)) as [Hs|Hs]; [exact Hs|].
      rewrite Hu in Hs. contradiction.
  - intros Hk. contradiction.
  - intros _ a c Ha [Hc Hfresh].
    assert (Hk : toLowerCase a ∉ u).
    { apply (Hhit (toLowerCase a) c); [|exact Hfresh]. simpl. now rewrite toLowerCase_idem. }
    rewrite (Hout _ Hk).
    apply checkLoop_hit; [now apply elem_of_lowered| |exact Hfresh].
    simpl. now rewrite toLowerCase_idem.
  - intros _ a Ha Hm.
    assert (Hk : toLowerCase a ∈ u).
    { specialize (Hmiss (toLowerCase a)). simpl in Hmiss.
      rewrite toLowerCase_idem in Hmiss. specialize (Hmiss Hm).
      assert (Hf : toLowerCase a ∈ filter (fun x => x = toLowerCase a) u).
      { rewrite Hmiss. apply list_elem_of_filter. split; [reflexivity|].
        now apply elem_of_lowered. }
      now apply list_elem_of_filter in Hf as [_ Hf]. }
    now destruct (Hpushed _ Hk) as [_ ->].
Qed.

Import Samples.

(** *** The unit tests of the repository, run on the embedding *)

Example should_return_zero_prices_when_no_API_key :
  returned (getTokenPrices (answering 1000 twoTokenBody) (new None None)
              ["0xtoken1"; "0xtoken2"] 1)
  = Normal {[ "0xtoken1" := JNum 0; "0xtoken2" := JNum 0 ]}.
Proof. vm_compute. reflexivity. Qed.

Example should_fetch_prices_from_CoinMarketCap :
  let o := getTokenPrices (answering 1000 twoTokenBody) fresh ["0xtoken1"; "0xtoken2"] 1 in
  returned o = Normal {[ "0xtoken1" := JNum 3000; "0xtoken2" := JNum 1 ]}
  /\ map header_X_CMC_PRO_API_KEY (httpCalls (events o)) = ["test-api-key"].
Proof. split; vm_compute; reflexivity. Qed.

Example should_use_cache_for_subsequent_requests :
  let o1 := getTokenPrices (answering 1000 wethBody) fresh ["0xtoken1"] 1 in
  let o2 := getTokenPrices (answering 1000 wethBody) (service o1) ["0xtoken1"] 1 in
  length (httpCalls (events o1)) = 1%nat
  /\ length (httpCalls (events o2)) = 0%nat
  /\ returned o2 = Normal {[ "0xtoken1" := JNum 3000 ]}.
Proof. repeat split; vm_compute; reflexivity. Qed.

Example should_return_0_for_tokens_with_missing_price_data :
  returned (getTokenPrices (answering 1000 wethBody) fresh ["0xtoken1"; "0xtoken2"] 1)
  = Normal {[ "0xtoken1" := JNum 3000; "0xtoken2" := JNum 0 ]}.
Proof. vm_compute. reflexivity. Qed.

Example should_handle_API_errors_gracefully :
  returned (getTokenPrices (failing 1000) fresh ["0xtoken1"] 1)
  = Normal {[ "0xtoken1" := JNum 0 ]}.
Proof. vm_compute. reflexivity. Qed.

Example should_track_cache_size :
  getCacheSize (service (getTokenPrices (answering 1000 wethBody) fresh ["0xtoken1"] 1))
  = 1%nat
  /\ getCacheSize (clearCache warmed) = 0%nat.
Proof. split; vm_compute; reflexivity. Qed.

(** C1 fails as worded: an address served from the cache maps to its
    cached price, 3000 here, although the call makes no remote request and
    so no response carries a quote for it. *)
Lemma cached_price_is_not_zero :
  (let o := getTokenPrices (failing 1000) warmed ["0xtoken1"] 1 in
   returned o = Normal {[ "0xtoken1" := JNum 3000 ]}
   /\ events o = [CacheGet "0xtoken1"])
  /\ ~ Stated.prices_from_response_or_zero.
Proof.
  split; [split; vm_compute; reflexivity|].
  intros H. destruct (H (failing 1000) warmed ["0xtoken1"] 1) as (r & Hr & Hall).
  specialize (Hall "0xtoken1" (list_elem_of_here _ _)).
  vm_compute in Hr. injection Hr as <-. vm_compute in Hall. discriminate.
Qed.

Lemma prices_by_source_witness :
  let env := answering 1000 wethBody in
  let o := getTokenPrices env fresh ["0xToken1"; "0xtoken2"] 1 in
  (forall req, req ∈ httpCalls (events o) ->
               usable ["0xToken1"; "0xtoken2"] (axios_get env req))
  /\ exists r, returned o = Normal r
               /\ r !! "0xtoken1" = Some (JNum 3000)
               /\ r !! "0xtoken2" = Some (JNum 0).
Proof.
  cbv zeta.
  assert (Huse : forall req,
            req ∈ httpCalls (events (getTokenPrices (answering 1000 wethBody) fresh
                                       ["0xToken1"; "0xtoken2"] 1)) ->
            usable ["0xToken1"; "0xtoken2"] (axios_get (answering 1000 wethBody) req)).
  { intros req _. simpl. split; [reflexivity|]. split; [reflexivity|].
    intros a usd Ha. apply elem_of_cons in Ha as [->|Ha];
      [|apply list_elem_of_singleton in Ha as ->]; vm_compute; intros Hq;
      [injection Hq as <-; reflexivity|discriminate]. }
  split; [exact Huse|].
  destruct (prices_by_source (answering 1000 wethBody) fresh ["0xToken1"; "0xtoken2"] 1 Huse)
    as (r & Hr & _ & _ & _ & Hmiss).
  exists r. split; [exact Hr|].
  assert (Hkey : apiKey fresh <> "") by (vm_compute; discriminate).
  assert (Hm : forall a, miss (answering 1000 wethBody) fresh a).
  { intros a c Hc. vm_compute in Hc. discriminate. }
  split.
  - exact (Hmiss Hkey "0xToken1" (list_elem_of_here _ _) (Hm _)).
  - exact (Hmiss Hkey "0xtoken2" (list_elem_of_further _ _ _ (list_elem_of_here _ _)) (Hm _)).
Defined.

(** C2, at a failing input: the request is answered with status 200 and a
    body that has no [data] member.  The call returns normally, but the
    map it returns has no entry for the missed address, where a rejected
    request gives the address the price 0. *)
Theorem body_without_data_leaves_miss_unpriced :
  (let o := getTokenPrices (answering 1000 statusOnlyBody) fresh ["0xtoken1"] 1 in
   returned o = Normal ∅ /\ length (httpCalls (events o)) = 1%nat)
  /\ returned (getTokenPrices (failing 1000) fresh ["0xtoken1"] 1)
     = Normal {[ "0xtoken1" := JNum 0 ]}.
Proof. repeat split; vm_compute; reflexivity. Qed.

(** C10, at a failing input: the provider answers with a quote for
    [0xtoken2] whose price is [null], which is no well-formed USD quote.
    The call answers 0 for the address and all the same adds an entry for
    it to the cache, so that a second call one second later, whose request
    would fail, answers [null] from the cache.  An address for which the
    response has no entry at all is not cached. *)
Theorem malformed_quote_is_cached :
  (let o := getTokenPrices (answering 1000 MoreSamples.nullPriceBody) fresh
                           ["0xtoken2"] 1 in
   returned o = Normal {[ "0xtoken2" := JNum 0 ]}
   /\ priceCache (service o)
      = {[ "0xtoken2" := mkPriceData "0xtoken2" (JStr "DEAD") JNull 1000 ]}
   /\ returned (getTokenPrices (failing 2000) (service o) ["0xtoken2"] 1)
      = Normal {[ "0xtoken2" := JNull ]})
  /\ (let o := getTokenPrices (answering 1000 wethBody) fresh ["0xtoken2"] 1 in
      returned o = Normal {[ "0xtoken2" := JNum 0 ]} /\ priceCache (service o) = ∅).
Proof. repeat split; vm_compute; reflexivity. Qed.

Lemma no_api_key_zero_prices_witness :
  let s := new None None in
  let o := getTokenPrices (answering 1000 wethBody) s ["0xToken1"; "0xtoken2"] 1 in
  apiKey s = ""
  /\ exists r, returned o = Normal r
               /\ (forall a, a ∈ ["0xToken1"; "0xtoken2"] ->
                             r !! toLowerCase a = Some (JNum 0))
               /\ (forall k v, r !! k = Some v -> v = JNum 0)
               /\ httpCalls (events o) = [].
Proof.
  cbv zeta. split; [reflexivity|].
  apply (no_api_key_zero_prices (answering 1000 wethBody) (new None None)
           ["0xToken1"; "0xtoken2"] 1).
  reflexivity.
Defined.

Lemma result_keys_lowercased_witness :
  exists r, returned (getTokenPrices (answering 1000 wethBody) fresh ["0xToken1"] 1)
            = Normal r
            /\ r !! "0xToken1" = None.
Proof.
  destruct (result_keys_lowercased (answering 1000 wethBody) fresh ["0xToken1"] 1)
    as (r & Hr & _ & Hnone).
  exists r. split; [exact Hr|]. apply Hnone. vm_compute. discriminate.
Defined.

Lemma lookup_lazy_expiry_witness :
  (cachedPrice (failing 60000) warmed "0xTOKEN1").1 = priceCache warmed !! "0xtoken1"
  /\ (cachedPrice (failing 60001) warmed "0xTOKEN1").1 = None
  /\ (cachedPrice (failing 60001) warmed "0xTOKEN1").2 = warmed.
Proof.
  destruct (lookup_lazy_expiry (failing 60000) warmed "0xTOKEN1") as (_ & _ & Hfresh & _).
  destruct (lookup_lazy_expiry (failing 60001) warmed "0xTOKEN1")
    as (_ & Hold & _ & Hsame & _).
  split; [|split; [|exact Hsame]].
  - rewrite (Hfresh (mkPriceData "0xtoken1" (JStr "WETH") (JNum 3000) 0));
      [| |vm_compute; discriminate]; vm_compute; reflexivity.
  - apply (Hold (mkPriceData "0xtoken1" (JStr "WETH") (JNum 3000) 0));
      vm_compute; reflexivity.
Defined.

Lemma cache_frame_witness :
  service (getTokenPrices (failing 1000) warmed ["0xToken1"] 1) = warmed.
Proof.
  apply (cache_frame (failing 1000) warmed ["0xToken1"] 1).
  intros a Ha. apply list_elem_of_singleton in Ha as ->.
  exists (mkPriceData "0xtoken1" (JStr "WETH") (JNum 3000) 0).
  split; [vm_compute; reflexivity|]. intros k. vm_compute. discriminate.
Defined.

(** *** Two calls in a row *)

(** The first address the response loop handles gets its cache entry
    whenever the response passes the test for it, even if the loop throws
    later on; the entry is stamped with a reading of the clock. *)
Lemma parseLoop_head (env : Env) (data : JsValue) (k : string) (u : list string)
      (f : Frame) :
  is_Some (usdQuote data k) ->
  exists c i, cache (forEach (k :: u) (parseToken env data) f).2 !! k = Some c
              /\ timestamp c = Date_now env i.
Proof.
  intros [usd Hq]. simpl. unfold bind. rewrite parseToken_eq, Hq.
  destruct (loggable data k usd); cbn [fst snd];
    [|eexists _, _; simpl; rewrite lookup_insert_eq; split; reflexivity].
  apply (forEach_inv _ (fun g => exists c i, cache g !! k = Some c
                                              /\ timestamp c = Date_now env i)).
  - intros x g _ (c & i & Hc & Hi). rewrite parseToken_eq.
    destruct (usdQuote data x) as [usdx|]; simpl; [|now exists c, i].
    destruct (decide (x = k)) as [->|Hne].
    + eexists _, _. rewrite lookup_insert_eq. split; reflexivity.
    + exists c, i. now rewrite lookup_insert_ne.
  - eexists _, _. simpl. rewrite lookup_insert_eq. split; reflexivity.
Qed.

Lemma keyed_run_head (env : Env) (s : Service) (addresses : list string) (chainId : Z)
      (k : string) (u' : list string) (body : JsValue) :
  apiKey s <> "" ->
  uncachedAddresses (forEach (map toLowerCase addresses) (checkCache env)
                             (mkFrame (priceCache s) ∅ [] 0 [])).2 = k :: u' ->
  axios_get env (quotesRequest (apiKey s) (k :: u')) = Resolved body ->
  truthy body = true -> truthy (get body "data") = true ->
  is_Some (usdQuote (get body "data") k) ->
  exists c i, priceCache (service (getTokenPrices env s addresses chainId)) !! k = Some c
              /\ timestamp c = Date_now env i.
Proof.
  intros Hkey Hu Hreply Hb Hd Hq. unfold getTokenPrices.
  rewrite getTokenPrices_body_eq by exact Hkey. cbv zeta.
  rewrite Hu, decide_False by discriminate.
  rewrite fetchUncached_eq. cbv zeta. rewrite Hu, Hreply, Hb, Hd. cbn [andb].
  match goal with |- context [forEach (k :: u') (parseToken env ?d) ?g] =>
    pose proof (parseLoop_head env d k u' g Hq) as (c & i & Hc & Hi);
    destruct (forEach (k :: u') (parseToken env d) g) as [[[]|] f3] end;
    cbn [snd] in Hc.
  - exists c, i. split; [exact Hc|exact Hi].
  - destruct (zeroFill_eq (k :: u') f3) as (r & E & _). rewrite E.
    exists c, i. split; [exact Hc|exact Hi].
Qed.

Lemma sublist_singleton (x : string) (u : list string) :
  sublist u [x] -> u = [] \/ u = [x].
Proof.
  intros H. apply sublist_cons_r in H as [H|(u' & -> & H)];
    apply sublist_nil_r in H; subst; auto.
Qed.

Lemma httpCalls_length (env : Env) (s : Service) (addresses : list string) (chainId : Z) :
  (length (httpCalls (events (getTokenPrices env s addresses chainId))) <= 1)%nat.
Proof.
  destruct (decide (apiKey s = "")) as [Hkey|Hkey].
  - destruct (unkeyed_run env s addresses chainId Hkey) as (r & _ & -> & _). simpl. lia.
  - destruct (keyed_run env s addresses chainId Hkey) as (r & _ & Hev & _).
    cbv zeta in Hev. rewrite Hev, httpCalls_gets.
    destruct (decide _); simpl; lia.
Qed.

(** C3, amended: when the remote response of the first call carries a USD
    quote for the address, a second call for it whose clock readings all
    lie within 60000 ms of those of the first call makes no remote call of
    its own, so that the two calls make at most one; and a call for an
    address whose cache entry, if any, has expired at every reading of the
    clock makes a remote call for it.  (When the first request fails or
    carries no quote, nothing is cached and the second call asks again.) *)
Theorem second_call_within_ttl (env1 env2 : Env) (s : Service) (a : string) (chainId : Z) :
  let o1 := getTokenPrices env1 s [a] chainId in
  let o2 := getTokenPrices env2 (service o1) [a] chainId in
  ((forall i j, Date_now env2 j - Date_now env1 i <= 60000) ->
   (forall req, req ∈ httpCalls (events o1) ->
      exists body, axios_get env1 req = Resolved body
                   /\ truthy body = true /\ truthy (get body "data") = true
                   /\ is_Some (usdQuote (get body "data") (toLowerCase a))) ->
   (length (httpCalls (events o1)) + length (httpCalls (events o2)) <= 1)%nat)
  /\ (apiKey s <> "" -> miss env2 (service o1) a ->
      httpCalls (events o2) = [quotesRequest (apiKey s) [toLowerCase a]]).
Proof.
  cbv zeta. split.
  - intros Hwin Hquote.
    pose proof (httpCalls_length env2 (service (getTokenPrices env1 s [a] chainId)) [a] chainId)
      as Hle2.
    destruct (decide (apiKey s = "")) as [Hkey|Hkey].
    { destruct (unkeyed_run env1 s [a] chainId Hkey) as (r & _ & -> & _). simpl. lia. }
    destruct (keyed_run env1 s [a] chainId Hkey) as (r & _ & Hev & Hk1 & _).
    cbv zeta in Hev.
    destruct (checkLoop_uncached env1 (map toLowerCase [a]) (mkFrame (priceCache s) ∅ [] 0 []))
      as (u & Hu & Hsub & _).
    cbn [uncachedAddresses app] in Hu. rewrite Hu in Hev.
    apply sublist_singleton in Hsub as [->| ->].
    { rewrite Hev, httpCalls_gets. simpl. lia. }
    rewrite decide_False in Hev by discriminate.
    assert (Hreq : httpCalls (events (getTokenPrices env1 s [a] chainId))
                   = [quotesRequest (apiKey s) [toLowerCase a]]).
    { now rewrite Hev, httpCalls_gets. }
    rewrite Hreq in Hquote |- *.
    destruct (Hquote _ (list_elem_of_here _ _)) as (body & Hreply & Hb & Hd & Hq).
    destruct (keyed_run_head env1 s [a] chainId (toLowerCase a) [] body Hkey Hu Hreply Hb Hd Hq)
      as (c & i & Hc & Hi).
    assert (Hkey2 : apiKey (service (getTokenPrices env1 s [a] chainId)) <> "")
      by now rewrite Hk1.
    destruct (keyed_run env2 _ [a] chainId Hkey2) as (r2 & _ & Hev2 & _).
    cbv zeta in Hev2.
    rewrite (all_hits_nothing_pushed env2 _ [a]) in Hev2.
    + rewrite Hev2, httpCalls_gets. simpl. lia.
    + intros b Hb'. apply list_elem_of_singleton in Hb' as ->. exists c. split; [exact Hc|].
      intros j. rewrite Hi. unfold CACHE_TTL_MS. apply Hwin.
  - intros Hkey Hmiss.
    set (s1 := service (getTokenPrices env1 s [a] chainId)) in *.
    assert (Hk1 : apiKey s1 = apiKey s).
    { subst s1. destruct (keyed_run env1 s [a] chainId Hkey) as (r & _ & _ & Hk1 & _).
      exact Hk1. }
    assert (Hkey2 : apiKey s1 <> "") by now rewrite Hk1.
    destruct (keyed_run env2 s1 [a] chainId Hkey2) as (r2 & _ & Hev2 & _).
    cbv zeta in Hev2.
    destruct (checkLoop_uncached env2 (map toLowerCase [a]) (mkFrame (priceCache s1) ∅ [] 0 []))
      as (u & Hu & Hsub & _ & Hm).
    cbn [uncachedAddresses app] in Hu. rewrite Hu in Hev2.
    specialize (Hm (toLowerCase a)). simpl in Hm. rewrite toLowerCase_idem in Hm.
    specialize (Hm Hmiss). rewrite filter_cons_True in Hm by reflexivity.
    apply sublist_singleton in Hsub as [->| ->]; [discriminate|].
    rewrite Hev2, httpCalls_gets, Hk1. now rewrite decide_False.
Qed.

(** C3 fails as worded: the first request is rejected, nothing is cached,
    and the second call, one second later, makes a request again. *)
Lemma failed_fetch_is_retried :
  (let o1 := getTokenPrices (failing 1000) fresh ["0xtoken1"] 1 in
   let o2 := getTokenPrices (failing 2000) (service o1) ["0xtoken1"] 1 in
   length (httpCalls (events o1)) = 1%nat /\ length (httpCalls (events o2)) = 1%nat)
  /\ ~ Stated.one_remote_call_within_ttl.
Proof.
  split; [split; vm_compute; reflexivity|].
  intros H. specialize (H (failing 1000) (failing 2000) fresh "0xtoken1" 1).
  assert (Hwin : forall i j : nat,
            Date_now (failing 2000) j - Date_now (failing 1000) i <= CACHE_TTL_MS)
    by (intros i j; vm_compute; discriminate).
  specialize (H Hwin). vm_compute in H. lia.
Qed.

Lemma second_call_within_ttl_witness :
  let o1 := getTokenPrices (answering 1000 wethBody) fresh ["0xToken1"] 1 in
  (length (httpCalls (events o1))
   + length (httpCalls (events (getTokenPrices (answering 2000 wethBody) (service o1)
                                   ["0xToken1"] 1))) <= 1)%nat
  /\ httpCalls (events (getTokenPrices (answering 70000 wethBody) (service o1)
                          ["0xToken1"] 1))
     = [quotesRequest key ["0xtoken1"]].
Proof.
  cbv zeta. split.
  - apply (second_call_within_ttl (answering 1000 wethBody) (answering 2000 wethBody)
             fresh "0xToken1" 1).
    + intros i j. vm_compute. discriminate.
    + intros req _. exists wethBody. repeat split; vm_compute; eauto.
  - apply (second_call_within_ttl (answering 1000 wethBody) (answering 70000 wethBody)
             fresh "0xToken1" 1).
    + vm_compute. discriminate.
    + intros c Hc k. vm_compute in Hc. injection Hc as <-. vm_compute. reflexivity.
Defined.

(** *** Normalisation of the addresses *)

(** C6, amended: with an API key, getTokenPrices lowercases the requested
    addresses before the cache lookup and does not deduplicate them: every
    occurrence of an address is looked up, under the lowercased key, and
    the one batched request lists, comma-joined and in order, the
    occurrences that missed; an address that misses at every reading of
    the clock is listed as often as it was requested, a fresh hit is not
    listed. *)
Theorem addresses_lowercased_not_deduplicated (env : Env) (s : Service)
        (addresses : list string) (chainId : Z) :
  apiKey s <> "" ->
  let o := getTokenPrices env s addresses chainId in
  cacheGets (events o) = map toLowerCase addresses
  /\ exists u,
       sublist u (map toLowerCase addresses)
       /\ map params_address (httpCalls (events o))
          = (if decide (u = []) then [] else [join "," u])
       /\ (forall a, miss env s a ->
             filter (fun k => k = toLowerCase a) u
             = filter (fun k => k = toLowerCase a) (map toLowerCase addresses))
       /\ (forall a c, hit env s a c -> toLowerCase a ∉ u).
Proof.
  intros Hkey. cbv zeta.
  destruct (keyed_run env s addresses chainId Hkey) as (r & _ & Hev & _).
  cbv zeta in Hev.
  destruct (checkLoop_uncached env (map toLowerCase addresses)
              (mkFrame (priceCache s) ∅ [] 0 [])) as (u & Hu & Hsub & Hhit & Hmiss).
  cbn [uncachedAddresses app] in Hu. rewrite Hu in Hev. rewrite Hev. split.
  - rewrite cacheGets_gets, map_map.
    rewrite (map_ext _ toLowerCase) by (intros; apply toLowerCase_idem).
    destruct (decide (u = [])); simpl; now rewrite app_nil_r.
  - exists u. split; [exact Hsub|]. split; [|split].
    + rewrite httpCalls_gets. now destruct (decide (u = [])).
    + intros a Hm. apply Hmiss. cbn [cache]. now rewrite toLowerCase_idem.
    + intros a c [Hc Hfresh]. apply (Hhit _ c); [|exact Hfresh].
      cbn [cache]. now rewrite toLowerCase_idem.
Qed.

(** C6 fails as worded: two spellings of one address are looked up twice
    and listed twice in the request. *)
Lemma duplicates_are_kept :
  (let o := getTokenPrices (failing 1000) fresh ["0xAB"; "0xab"] 1 in
   cacheGets (events o) = ["0xab"; "0xab"]
   /\ map params_address (httpCalls (events o)) = ["0xab,0xab"])
  /\ ~ Stated.addresses_deduplicated.
Proof.
  split; [split; vm_compute; reflexivity|].
  intros H.
  destruct (H (failing 1000) fresh ["0xAB"; "0xab"] 1) as [Hgets _];
    [vm_compute; discriminate|].
  vm_compute in Hgets. apply NoDup_cons in Hgets as [Hnin _].
  apply Hnin, list_elem_of_here.
Qed.

Lemma addresses_lowercased_not_deduplicated_witness :
  let o := getTokenPrices (failing 1000) fresh ["0xAB"; "0xab"] 1 in
  apiKey fresh <> ""
  /\ cacheGets (events o) = ["0xab"; "0xab"].
Proof.
  cbv zeta.
  assert (Hkey : apiKey fresh <> "") by (vm_compute; discriminate).
  split; [exact Hkey|].
  exact (proj1 (addresses_lowercased_not_deduplicated (failing 1000) fresh
                  ["0xAB"; "0xab"] 1 Hkey)).
Defined.

End PriceServiceFacts.

(** ** The position aggregator *)

Module AggregatorFacts.

Import UniswapV4Service.

Section Aggregation.

Variable fetch : string -> Z -> ChainOutcome.
Variable prices : Z -> list string -> string -> Q.

Lemma collectErrors_complete (wallet : string) (chains : list Z) (c : Z) (reason : string) :
  c ∈ chains -> fetch wallet c = Failed reason ->
  mkChainError c reason ∈ collectErrors fetch wallet chains.
Proof.
  intros Hc Hf. unfold collectErrors. apply list_elem_of_In, in_flat_map.
  exists c. split; [now apply list_elem_of_In|]. rewrite Hf. now left.
Qed.

Lemma collect_all_failed (wallet : string) (chains : list Z) :
  (forall c, c ∈ chains -> exists reason, fetch wallet c = Failed reason) ->
  collectPositions fetch wallet chains = []
  /\ map errChainId (collectErrors fetch wallet chains) = chains.
Proof.
  induction chains as [|c chains IH]; intros Hall; [now split|].
  destruct IH as [IHp IHe].
  { intros d Hd. apply Hall. now apply list_elem_of_further. }
  destruct (Hall c (list_elem_of_here _ _)) as [reason Hf].
  unfold collectPositions, collectErrors in *. simpl. rewrite Hf. simpl.
  split; [exact IHp|now rewrite IHe].
Qed.

(** C7: the aggregate is always marked successful; every chain whose
    fetch fails has its entry in chainErrors; and when every chain of the
    chain set fails the position list is empty, both totals are 0 and
    chainErrors names exactly the chains of the chain set. *)
Theorem getPositions_always_succeeds (wallet : string) (filter : option Z) :
  let res := getPositions fetch prices wallet filter in
  success res = true
  /\ (forall c reason, c ∈ chainSet filter -> fetch wallet c = Failed reason ->
                       mkChainError c reason ∈ chainErrors res)
  /\ ((forall c, c ∈ chainSet filter -> exists reason, fetch wallet c = Failed reason) ->
      positions res = []
      /\ sumValueUsd res = 0%Q /\ sumFeesUsd res = 0%Q
      /\ map errChainId (chainErrors res) = chainSet filter).
Proof.
  cbv zeta. unfold getPositions. cbn [success chainErrors positions sumValueUsd sumFeesUsd].
  split; [reflexivity|]. split.
  - intros c reason. apply collectErrors_complete.
  - intros Hall. destruct (collect_all_failed wallet (chainSet filter) Hall) as [-> He].
    repeat split; try reflexivity. exact He.
Qed.

End Aggregation.

(** The end-to-end scenario of the specification: 1.5 WETH at 3000 and
    4500 USDC at 1 are worth 4500 each and 9000 together. *)
Example one_position_on_chain_1 :
  let res := getPositions (fun _ c => Fetched (if Z.eqb c 1 then [Samples.wethUsdc] else []))
                          Samples.mockPrices Samples.wallet (Some 1) in
  match positions res with
  | [p] => (usdValue (token0 p) == 4500 /\ usdValue (token1 p) == 4500
            /\ totalValueUsd p == 9000 /\ feesUsd p == 90)%Q
  | _ => False
  end
  /\ (sumValueUsd res == 9000)%Q /\ chainErrors res = [].
Proof. vm_compute. repeat split. Qed.

Lemma getPositions_always_succeeds_witness :
  let res := getPositions (fun _ c => Failed "GraphQL query failed")
                          (fun _ _ _ => 0%Q) Samples.wallet None in
  success res = true /\ positions res = []
  /\ sumValueUsd res = 0%Q /\ sumFeesUsd res = 0%Q
  /\ map errChainId (chainErrors res) = [1; 56; 8453; 42161; 1301].
Proof.
  cbv zeta.
  destruct (getPositions_always_succeeds (fun _ c => Failed "GraphQL query failed")
              (fun _ _ _ => 0%Q) Samples.wallet None) as (Hs & _ & Hall).
  split; [exact Hs|]. apply Hall. intros c _. now exists "GraphQL query failed".
Defined.

End AggregatorFacts.

(** ** The positions route *)

Module RoutesFacts.

Import Routes.

Section Handler.

Variable invalidRequest internalError : string.
Variable core : string -> option Z -> option V4PositionsResult.
Variable isoNow : string.

Lemma respond_calls (w : string) (c : option Z) :
  coreCalls (respond internalError core isoNow w c) = [(w, c)].
Proof.
  unfold respond. destruct (core w c) as [result|]; [|reflexivity].
  now destruct (success result), (positions result).
Qed.

(** The part after the validations never answers 400. *)
Lemma respond_status (w : string) (c : option Z) :
  status (respond internalError core isoNow w c) <> Some 400.
Proof.
  unfold respond. destruct (core w c) as [result|]; [|discriminate].
  destruct (success result), (positions result); discriminate.
Qed.

(** C8, amended: for a chainId parameter in ASCII, the route answers 400
    with the error envelope, the core not being called, when the wallet
    address does not match "0x" and 40 hexadecimal digits, and when the
    chainId parameter is present and not empty but its leading integer,
    as parseInt reads it from the first value given, is none of 1, 56,
    8453, 42161, 1301.  A missing or empty chainId is not checked: the
    core is then called, once, for all chains; a chainId whose leading
    integer is one of the five makes the route call the core once for that
    chain.  The route answers 400 exactly when it does not call the core,
    and every call of the core carries the validated address and no chain
    id or one of the five. *)
Theorem positions_route_validation (wallet : string) (p : QueryValue) :
  asciiText (chainIdStr p) = true ->
  let h := positionsHandler invalidRequest internalError core isoNow wallet p in
  (addressPattern wallet = true <->
   exists rest, wallet = String "0" (String "x" rest)
                /\ String.length rest = 40%nat /\ allHex rest = true)
  /\ (addressPattern wallet = false ->
      h = mkHandled (Some (400, invalidAddress invalidRequest)) [])
  /\ (addressPattern wallet = true -> provided p = true ->
      includes (parseInt (chainIdStr p)) = false ->
      h = mkHandled (Some (400, invalidChainId invalidRequest)) [])
  /\ (addressPattern wallet = true -> provided p = false ->
      coreCalls h = [(wallet, None)])
  /\ (addressPattern wallet = true -> provided p = true ->
      forall n, parseInt (chainIdStr p) = Some n -> n ∈ SUPPORTED ->
                coreCalls h = [(wallet, Some n)])
  /\ (status h = Some 400 <-> coreCalls h = [])
  /\ (forall w c, (w, c) ∈ coreCalls h ->
        w = wallet /\ addressPattern wallet = true
        /\ match c with
           | Some n => provided p = true /\ parseInt (chainIdStr p) = Some n
                       /\ n ∈ SUPPORTED
           | None => provided p = false
           end).
Proof.
  intros _. cbv zeta.
  assert (Hempty : addressPattern "" = false) by reflexivity.
  split; [|split; [|split; [|split; [|split; [|split]]]]].
  - unfold addressPattern. split.
    + intros H. destruct wallet as [|c0 tail]; [discriminate|].
      destruct c0 as [[] [] [] [] [] [] [] []]; try discriminate H.
      destruct tail as [|c1 rest]; [discriminate|].
      destruct c1 as [[] [] [] [] [] [] [] []]; try discriminate H.
      apply andb_prop in H as [Hlen Hhex]. exists rest.
      split; [reflexivity|]. split; [now apply Nat.eqb_eq|exact Hhex].
    + intros (rest & -> & Hlen & Hhex). rewrite Hlen, Hhex. reflexivity.
  - intros Hbad. unfold positionsHandler. rewrite Hbad. simpl.
    now rewrite orb_true_r.
  - intros Hok Hp Hinc. unfold positionsHandler. rewrite Hok, Hp, Hinc. simpl.
    destruct (String.eqb_spec wallet "") as [->|_]; [discriminate|reflexivity].
  - intros Hok Hp. unfold positionsHandler. rewrite Hok, Hp.
    destruct (String.eqb_spec wallet "") as [->|_]; [congruence|].
    cbn [negb orb]. apply respond_calls.
  - intros Hok Hp n Hn Hin. unfold positionsHandler. rewrite Hok, Hp, Hn.
    destruct (String.eqb_spec wallet "") as [->|_]; [congruence|].
    cbn [negb orb includes]. rewrite bool_decide_eq_true_2 by exact Hin.
    cbn [negb]. apply respond_calls.
  - unfold positionsHandler.
    destruct (String.eqb wallet "" || negb (addressPattern wallet)); [easy|].
    destruct (provided p);
      [destruct (negb (includes (parseInt (chainIdStr p)))); [easy|]|];
      (split; [intros H; now apply respond_status in H
              |rewrite respond_calls; discriminate]).
  - intros w c. unfold positionsHandler.
    destruct (String.eqb_spec wallet "") as [->|_]; simpl.
    { intros H. now apply not_elem_of_nil in H. }
    destruct (addressPattern wallet); simpl;
      [|intros H; now apply not_elem_of_nil in H].
    destruct (provided p).
    + destruct (includes (parseInt (chainIdStr p))) eqn:Hinc; simpl;
        [|intros H; now apply not_elem_of_nil in H].
      rewrite respond_calls. intros H. apply list_elem_of_singleton in H.
      injection H as -> ->. split; [reflexivity|]. split; [reflexivity|].
      destruct (parseInt (chainIdStr p)) as [n|]; [|discriminate].
      split; [reflexivity|]. split; [reflexivity|].
      simpl in Hinc. now apply bool_decide_eq_true in Hinc.
    + rewrite respond_calls. intros H. apply list_elem_of_singleton in H.
      injection H as -> ->. now repeat split.
Qed.

End Handler.

(** C8 fails as worded: with chainId=1abc, which is none of the five
    ids, the request is not rejected: parseInt reads 1 and the core is
    called for chain 1; with an empty chainId it is called for all
    chains. *)
Lemma lenient_chain_id_accepted :
  (let h := positionsHandler "INVALID_REQUEST" "INTERNAL_ERROR" Samples.emptyCore
                             "2026-02-06T14:10:00.000Z" Samples.wallet
                             (QSingle (QString "1abc")) in
   status h = Some 200 /\ coreCalls h = [(Samples.wallet, Some 1)])
  /\ (let h := positionsHandler "INVALID_REQUEST" "INTERNAL_ERROR" Samples.emptyCore
                                "2026-02-06T14:10:00.000Z" Samples.wallet
                                (QSingle (QString "")) in
      status h = Some 200 /\ coreCalls h = [(Samples.wallet, None)])
  /\ ~ Stated.invalid_requests_rejected.
Proof.
  split; [split; vm_compute; reflexivity|]. split; [split; vm_compute; reflexivity|].
  intros H.
  destruct (H "INVALID_REQUEST" "INTERNAL_ERROR" Samples.emptyCore
              "2026-02-06T14:10:00.000Z" Samples.wallet (QSingle (QString "1abc")))
    as [Hst _]; [|vm_compute in Hst; discriminate].
  right. split; [discriminate|]. intros (n & Hn & Hp).
  unfold SUPPORTED in Hn.
  repeat (apply elem_of_cons in Hn as [->|Hn]; [vm_compute in Hp; discriminate|]).
  now apply not_elem_of_nil in Hn.
Qed.

Lemma positions_route_validation_witness :
  let h := positionsHandler "INVALID_REQUEST" "INTERNAL_ERROR" Samples.emptyCore
                            "2026-02-06T14:10:00.000Z" Samples.wallet
                            (QSingle (QString "999")) in
  (asciiText (chainIdStr (QSingle (QString "999"))) = true
   /\ addressPattern Samples.wallet = true /\ provided (QSingle (QString "999")) = true
   /\ includes (parseInt (chainIdStr (QSingle (QString "999")))) = false)
  /\ h = mkHandled (Some (400, invalidChainId "INVALID_REQUEST")) [].
Proof.
  cbv zeta. split; [repeat split; vm_compute; reflexivity|].
  apply (positions_route_validation "INVALID_REQUEST" "INTERNAL_ERROR" Samples.emptyCore
           "2026-02-06T14:10:00.000Z" Samples.wallet (QSingle (QString "999")) eq_refl);
    vm_compute; reflexivity.
Defined.

End RoutesFacts.

(** ** More on PriceService *)

Module PriceCacheFacts.

Import PriceService PriceCache JsFacts PriceServiceFacts.
Local Open Scope exec_scope.

Section ParseLoop.

Variable env : Env.
Variable data : JsValue.

(** Whatever the response loop leaves under a key is what was there
    before, or the entry of the response stamped with a clock reading. *)
Lemma parseLoop_written (u : list string) (f : Frame) (k : string) :
  let f3 := (forEach u (parseToken env data) f).2 in
  cache f3 !! k = cache f !! k
  \/ (k ∈ u /\ exists usd i, usdQuote data k = Some usd
                              /\ cache f3 !! k
                                 = Some (entryOf data k usd (Date_now env i))).
Proof.
  cbv zeta.
  apply (forEach_inv _ (fun g =>
           cache g !! k = cache f !! k
           \/ (k ∈ u /\ exists usd i, usdQuote data k = Some usd
                                       /\ cache g !! k
                                          = Some (entryOf data k usd (Date_now env i)))));
    [|now left].
  intros x g Hx Hg. rewrite parseToken_eq.
  destruct (usdQuote data x) as [usd|] eqn:Hq; cbn [snd cache]; [|exact Hg].
  destruct (decide (x = k)) as [->|Hne].
  - right. split; [exact Hx|]. exists usd, (ticks g). split; [exact Hq|].
    apply lookup_insert_eq.
  - now rewrite lookup_insert_ne.
Qed.

(** A loop that completes stores the entry of every listed address for
    which the response passes the test. *)
Lemma parseLoop_stored (u : list string) (f : Frame) (a : string) (usd : JsValue) :
  a ∈ u -> usdQuote data a = Some usd ->
  (forEach u (parseToken env data) f).1 = Normal tt ->
  exists i, cache (forEach u (parseToken env data) f).2 !! a
            = Some (entryOf data a usd (Date_now env i)).
Proof.
  intros Ha Hq.
  assert (Hset : forall g, exists i, cache (parseToken env data a g).2 !! a
                                     = Some (entryOf data a usd (Date_now env i))).
  { intros g. rewrite parseToken_eq, Hq. exists (ticks g). apply lookup_insert_eq. }
  apply (forEach_establish _ (fun _ => True)
           (fun g => exists i, cache g !! a = Some (entryOf data a usd (Date_now env i)))
           u a Ha); [easy| | |easy].
  - intros g _. apply Hset.
  - intros x g _ _ Hg. destruct (decide (x = a)) as [->|Hne]; [apply Hset|].
    rewrite parseToken_eq. destruct (usdQuote data x); cbn [snd cache]; [|exact Hg].
    now rewrite lookup_insert_ne.
Qed.

(** The loop throws as soon as it meets a quote whose log line cannot be
    written. *)
Lemma parseLoop_throws (u : list string) (f : Frame) (b : string) (usd : JsValue) :
  b ∈ u -> usdQuote data b = Some usd -> loggable data b usd = false ->
  (forEach u (parseToken env data) f).1 = Thrown.
Proof.
  intros Hb Hq Hnum. revert f.
  induction u as [|x u IH]; intros f; [now apply not_elem_of_nil in Hb|].
  simpl. unfold bind.
  destruct (parseToken env data x f) as [[[]|] f1] eqn:Hx; [|reflexivity].
  apply elem_of_cons in Hb as [->|Hb]; [|now apply IH].
  rewrite parseToken_eq, Hq, Hnum in Hx. discriminate.
Qed.

End ParseLoop.

(** On an empty cache the check pushes every address, in order. *)
Lemma checkLoop_empty (env : Env) (l : list string) (f : Frame) :
  cache f = ∅ ->
  uncachedAddresses (forEach l (checkCache env) f).2 = (uncachedAddresses f ++ l)%list.
Proof.
  revert f. induction l as [|x l IH]; intros f Hf; simpl; [now rewrite app_nil_r|].
  unfold bind. rewrite checkCache_eq, Hf, lookup_empty. cbn [fst snd].
  rewrite IH by reflexivity. cbn [uncachedAddresses]. now rewrite <- app_assoc.
Qed.

(** An address that misses at every reading of the clock is among the
    addresses pushed. *)
Lemma miss_pushed (env : Env) (s : Service) (addresses : list string) (a : string) :
  a ∈ addresses -> miss env s a ->
  toLowerCase a ∈ uncachedAddresses
    (forEach (map toLowerCase addresses) (checkCache env)
             (mkFrame (priceCache s) ∅ [] 0 [])).2.
Proof.
  intros Ha Hm.
  destruct (checkLoop_uncached env (map toLowerCase addresses)
              (mkFrame (priceCache s) ∅ [] 0 [])) as (u & -> & _ & _ & Hmiss).
  cbn [uncachedAddresses app].
  specialize (Hmiss (toLowerCase a)). cbn [cache] in Hmiss.
  rewrite toLowerCase_idem in Hmiss. specialize (Hmiss Hm).
  assert (Hf : toLowerCase a ∈ filter (fun x => x = toLowerCase a) u).
  { rewrite Hmiss. apply list_elem_of_filter. split; [reflexivity|].
    now apply elem_of_lowered. }
  now apply list_elem_of_filter in Hf as [_ Hf].
Qed.

Lemma pushed_requested (env : Env) (s : Service) (addresses : list string) (k : string) :
  k ∈ uncachedAddresses
    (forEach (map toLowerCase addresses) (checkCache env)
             (mkFrame (priceCache s) ∅ [] 0 [])).2 ->
  k ∈ map toLowerCase addresses.
Proof.
  destruct (checkLoop_uncached env (map toLowerCase addresses)
              (mkFrame (priceCache s) ∅ [] 0 [])) as (u & -> & Hsub & _).
  cbn [uncachedAddresses app]. intros Hk.
  eapply sublist_submseteq, elem_of_submseteq in Hsub; eauto.
Qed.

(** What a call with an API key leaves in the cache under a key: what was
    there, or the entry of the answered request, stamped with a reading of
    the clock, under a pushed address. *)
Lemma keyed_run_written (env : Env) (s : Service) (addresses : list string)
      (chainId : Z) (k : string) :
  apiKey s <> "" ->
  let u := uncachedAddresses (forEach (map toLowerCase addresses) (checkCache env)
                                      (mkFrame (priceCache s) ∅ [] 0 [])).2 in
  let o := getTokenPrices env s addresses chainId in
  priceCache (service o) !! k = priceCache s !! k
  \/ (k ∈ u /\ exists body usd i,
        axios_get env (quotesRequest (apiKey s) u) = Resolved body
        /\ usdQuote (get body "data") k = Some usd
        /\ priceCache (service o) !! k
           = Some (entryOf (get body "data") k usd (Date_now env i))).
Proof.
  intros Hkey. cbv zeta. unfold getTokenPrices.
  rewrite getTokenPrices_body_eq by exact Hkey. cbv zeta.
  set (f0 := mkFrame (priceCache s) ∅ [] 0 []).
  pose proof (checkLoop_cache env (map toLowerCase addresses) f0) as Hc1.
  set (f1 := (forEach (map toLowerCase addresses) (checkCache env) f0).2) in *.
  change (cache f0) with (priceCache s) in Hc1. set (u := uncachedAddresses f1).
  destruct (decide (u = [])) as [Hu|Hu]; [left; cbn; now rewrite Hc1|].
  rewrite fetchUncached_eq. cbv zeta. fold u.
  set (f2 := mkFrame (cache f1) (result f1) u (ticks f1)
                     (trace f1 ++ [HttpGet (quotesRequest (apiKey s) u)])).
  destruct (axios_get env (quotesRequest (apiKey s) u)) as [|body] eqn:Hreply.
  { destruct (zeroFill_eq u f2) as (r & E & _). rewrite E. left. cbn. now rewrite Hc1. }
  destruct (truthy body && truthy (get body "data")); [|left; cbn; now rewrite Hc1].
  pose proof (parseLoop_written env (get body "data") u f2 k) as Hw.
  destruct (forEach u (parseToken env (get body "data")) f2) as [[[]|] f3];
    cbn [snd] in Hw.
  - cbn. destruct Hw as [Hw|(Hin & usd & i & Hq & Hw)].
    + left. now rewrite Hw, <- Hc1.
    + right. split; [exact Hin|]. now exists body, usd, i.
  - destruct (zeroFill_eq u f3) as (r & E & _). rewrite E. cbn.
    destruct Hw as [Hw|(Hin & usd & i & Hq & Hw)].
    + left. now rewrite Hw, <- Hc1.
    + right. split; [exact Hin|]. now exists body, usd, i.
Qed.

(** With an API key and a pushed address, the call makes the one request
    for the pushed addresses. *)
Lemma request_made (env : Env) (s : Service) (addresses : list string) (chainId : Z) :
  apiKey s <> "" ->
  let u := uncachedAddresses (forEach (map toLowerCase addresses) (checkCache env)
                                      (mkFrame (priceCache s) ∅ [] 0 [])).2 in
  httpCalls (events (getTokenPrices env s addresses chainId))
  = if decide (u = []) then [] else [quotesRequest (apiKey s) u].
Proof.
  intros Hkey. cbv zeta.
  destruct (keyed_run env s addresses chainId Hkey) as (r & _ & Hev & _).
  cbv zeta in Hev. rewrite Hev, httpCalls_gets. now destruct (decide _).
Qed.

(** A call whose request is answered by a body with a truthy [data]
    member: the response loop runs on the pushed addresses, and if it
    throws the pushed addresses are set to 0. *)
Lemma answered_run (env : Env) (s : Service) (addresses : list string) (chainId : Z)
      (body : JsValue) :
  apiKey s <> "" ->
  let f1 := (forEach (map toLowerCase addresses) (checkCache env)
                     (mkFrame (priceCache s) ∅ [] 0 [])).2 in
  let u := uncachedAddresses f1 in
  let f2 := mkFrame (cache f1) (result f1) u (ticks f1)
                    (trace f1 ++ [HttpGet (quotesRequest (apiKey s) u)]) in
  let run := forEach u (parseToken env (get body "data")) f2 in
  u <> [] ->
  axios_get env (quotesRequest (apiKey s) u) = Resolved body ->
  truthy body = true -> truthy (get body "data") = true ->
  exists r,
    getTokenPrices env s addresses chainId
    = mkOutcome (Normal r) (mkService (apiKey s) (cache run.2)) (trace run.2)
    /\ match run.1 with
       | Normal _ => r = result run.2
       | Thrown => forall k, r !! k = if decide (k ∈ u) then Some (JNum 0)
                                      else result run.2 !! k
       end.
Proof.
  intros Hkey. cbv zeta. intros Hu Hreply Hb Hd. unfold getTokenPrices.
  rewrite getTokenPrices_body_eq by exact Hkey. cbv zeta.
  rewrite decide_False by exact Hu.
  rewrite fetchUncached_eq. cbv zeta. rewrite Hreply, Hb, Hd. cbn [andb].
  match goal with |- context [forEach ?u (parseToken env ?d) ?g] =>
    destruct (forEach u (parseToken env d) g) as [[[]|] f3] end; cbn [fst snd].
  - now exists (result f3).
  - match goal with |- context [forEach ?u _ f3] =>
      destruct (zeroFill_eq u f3) as (r & E & Hr) end.
    rewrite E. exists r. split; [reflexivity|exact Hr].
Qed.

(** A fresh cache hit is answered with the cached price. *)
Lemma hit_served (env : Env) (s : Service) (addresses : list string) (chainId : Z)
      (a : string) (c : PriceData) :
  apiKey s <> "" -> a ∈ addresses -> hit env s a c ->
  exists r, returned (getTokenPrices env s addresses chainId) = Normal r
            /\ r !! toLowerCase a = Some (priceUsd c).
Proof.
  intros Hkey Ha [Hc Hfresh].
  destruct (keyed_run env s addresses chainId Hkey) as (r & Hr & _ & _ & _ & _ & Hout & _).
  cbv zeta in Hout. exists r. split; [exact Hr|].
  destruct (checkLoop_uncached env (map toLowerCase addresses)
              (mkFrame (priceCache s) ∅ [] 0 [])) as (u & Hu & _ & Hhit & _).
  cbn [uncachedAddresses app] in Hu. rewrite Hu in Hout.
  rewrite Hout.
  - apply checkLoop_hit; [now apply elem_of_lowered| |exact Hfresh].
    cbn [cache]. now rewrite toLowerCase_idem.
  - apply (Hhit _ c); [|exact Hfresh]. cbn [cache]. now rewrite toLowerCase_idem.
Qed.

Lemma size_list_to_set_le (l : list string) :
  (size (list_to_set l : gset string) <= length l)%nat.
Proof.
  induction l as [|x l IH]; [now rewrite list_to_set_nil, size_empty|].
  rewrite list_to_set_cons, size_union_alt, size_singleton. simpl.
  assert (Hsub : list_to_set l ∖ {[x]} ⊆ (list_to_set l : gset string))
    by apply subseteq_difference_l, reflexivity.
  apply subseteq_size in Hsub. lia.
Qed.

(** The lookup on its own, as a function of the cache and the clock. *)
Lemma cachedPrice_eq (env : Env) (s : Service) (a : string) :
  (cachedPrice env s a).1
  = match priceCache s !! toLowerCase a with
    | Some c => if Date_now env 0 - timestamp c >? CACHE_TTL_MS then None else Some c
    | None => None
    end.
Proof.
  unfold cachedPrice, getCachedPrice, priceCache_get, emit, now, bind, ret. simpl.
  destruct (priceCache s !! toLowerCase a) as [c|]; simpl; [|reflexivity].
  now destruct (_ >? _).
Qed.

Import Samples MoreSamples.

(** X1: the keys of the cache are always in lower case, and every entry
    carries its own key as its address: this holds for a new service and
    after clearCache, and getTokenPrices keeps it. *)
Theorem cache_keys_invariant :
  (forall apiKey envKey, wellKeyed (new apiKey envKey))
  /\ (forall s, wellKeyed (clearCache s))
  /\ (forall env s addresses chainId,
        wellKeyed s -> wellKeyed (service (getTokenPrices env s addresses chainId))).
Proof.
  split; [|split].
  - intros k1 k2 k e H. cbn in H. now rewrite lookup_empty in H.
  - intros s k e H. cbn in H. now rewrite lookup_empty in H.
  - intros env s addresses chainId Hs k e He.
    destruct (decide (apiKey s = "")) as [Hkey|Hkey].
    { destruct (unkeyed_run env s addresses chainId Hkey) as (r & _ & _ & E & _).
      rewrite E in He. now apply Hs. }
    destruct (keyed_run_written env s addresses chainId k Hkey)
      as [Heq|(Hin & body & usd & i & _ & _ & Hw)]; cbv zeta in *.
    + rewrite Heq in He. now apply Hs.
    + rewrite Hw in He. injection He as <-. split; [reflexivity|].
      apply pushed_requested, lowered_elem_of in Hin as (a & _ & ->).
      apply toLowerCase_idem.
Qed.

Lemma cache_keys_invariant_witness :
  wellKeyed warmed
  /\ wellKeyed (service (getTokenPrices (answering 70000 twoTokenBody) warmed
                           ["0xToken1"; "0xTOKEN2"] 1)).
Proof.
  assert (Hw : wellKeyed warmed).
  { intros k e H. unfold warmed in H. cbn [priceCache] in H.
    apply lookup_singleton_Some in H as [<- <-]. split; reflexivity. }
  split; [exact Hw|].
  apply (proj2 (proj2 cache_keys_invariant)). exact Hw.
Defined.

(** X2: when the response is usable for the requested addresses (a
    truthy [data] member in which each of their USD quotes has a numeric
    price and a symbol that can be converted to a string), a price
    fetched for a missed address is stored under the lowercased address,
    with the symbol of the response (or UNKNOWN) and a reading of the
    clock, and a lookup of the address in any spelling made no more than
    60000 ms after that reading returns the entry. *)
Theorem fetched_price_is_cached (env : Env) (s : Service) (addresses : list string)
        (chainId : Z) (a : string) (body usd : JsValue) :
  apiKey s <> "" -> a ∈ addresses -> miss env s a ->
  let o := getTokenPrices env s addresses chainId in
  (forall req, req ∈ httpCalls (events o) -> axios_get env req = Resolved body) ->
  usable addresses (Resolved body) ->
  usdQuote (get body "data") (toLowerCase a) = Some usd ->
  exists i,
    let e := entryOf (get body "data") (toLowerCase a) usd (Date_now env i) in
    priceCache (service o) !! toLowerCase a = Some e
    /\ forall env2 spelling,
         toLowerCase spelling = toLowerCase a ->
         Date_now env2 0 - Date_now env i <= 60000 ->
         (cachedPrice env2 (service o) spelling).1 = Some e.
Proof.
  intros Hkey Ha Hm. cbv zeta. intros Hreply (Hb & Hd & Hnum) Hq.
  pose proof (miss_pushed env s addresses a Ha Hm) as Hin.
  pose proof (request_made env s addresses chainId Hkey) as Hreq. cbv zeta in Hreq.
  set (f1 := (forEach (map toLowerCase addresses) (checkCache env)
                      (mkFrame (priceCache s) ∅ [] 0 [])).2) in *.
  set (u := uncachedAddresses f1) in *.
  assert (Hu : u <> []) by (intros E; rewrite E in Hin; now apply not_elem_of_nil in Hin).
  rewrite decide_False in Hreq by exact Hu.
  specialize (Hreply (quotesRequest (apiKey s) u)). rewrite Hreq in Hreply.
  specialize (Hreply (list_elem_of_here _ _)).
  destruct (answered_run env s addresses chainId body Hkey Hu Hreply Hb Hd) as (r & E & _).
  fold f1 u in E. rewrite E. cbn [service priceCache].
  match type of E with context [forEach u ?p ?g] =>
    pose proof (parseLoop_normal env (get body "data") u g) as Hn;
    pose proof (parseLoop_stored env (get body "data") u g (toLowerCase a) usd Hin Hq) as Hs
  end.
  destruct Hs as (i & Hs).
  { apply Hn. intros k usd' Hk Hq'.
    apply (pushed_requested env s addresses), lowered_elem_of in Hk as (b & Hb' & ->).
    eauto. }
  exists i. split; [exact Hs|].
  intros env2 spelling Hsp Hage.
  rewrite cachedPrice_eq. cbn [priceCache]. rewrite Hsp, Hs. cbn [timestamp entryOf].
  destruct (Z.gtb_spec (Date_now env2 0 - Date_now env i) CACHE_TTL_MS) as [Hgt|_];
    [unfold CACHE_TTL_MS in Hgt; lia|reflexivity].
Qed.

Lemma fetched_price_is_cached_witness :
  let o := getTokenPrices (answering 1000 wethBody) fresh ["0xToken1"] 1 in
  (cachedPrice (failing 61000) (service o) "0XTOKEN1").1
  = Some (mkPriceData "0xtoken1" (JStr "WETH") (JNum 3000) 1000).
Proof.
  cbv zeta.
  destruct (fetched_price_is_cached (answering 1000 wethBody) fresh ["0xToken1"] 1
              "0xToken1" wethBody (JObj [("price", JNum 3000)])) as (i & _ & Hlook).
  - vm_compute. discriminate.
  - apply list_elem_of_here.
  - intros c Hc. vm_compute in Hc. discriminate.
  - intros req _. reflexivity.
  - split; [reflexivity|]. split; [reflexivity|].
    intros b usd Hb. apply list_elem_of_singleton in Hb as ->. vm_compute.
    intros H. injection H as <-. reflexivity.
  - vm_compute. reflexivity.
  - rewrite (Hlook (failing 61000) "0XTOKEN1"); [reflexivity|reflexivity|].
    vm_compute. discriminate.
Defined.

(** X3: an address that is not in the cache and for which the call gets
    no USD quote (the request is rejected, or the response has none for
    it) is not cached, and the call made next on the service, if it is
    asked for the address, requests it from the provider again, whatever
    the time and the other addresses of that call. *)
Theorem unpriced_address_is_retried (env : Env) (s : Service) (addresses : list string)
        (chainId : Z) (a : string) :
  apiKey s <> "" ->
  priceCache s !! toLowerCase a = None ->
  let o := getTokenPrices env s addresses chainId in
  (forall req, req ∈ httpCalls (events o) ->
     match axios_get env req with
     | Rejected => True
     | Resolved body => usdQuote (get body "data") (toLowerCase a) = None
     end) ->
  priceCache (service o) !! toLowerCase a = None
  /\ forall env2 addresses2 chainId2,
       a ∈ addresses2 ->
       exists u, httpCalls (events (getTokenPrices env2 (service o) addresses2 chainId2))
                 = [quotesRequest (apiKey s) u]
                 /\ toLowerCase a ∈ u.
Proof.
  intros Hkey Hnone. cbv zeta. intros Hreply.
  assert (Hstill : priceCache (service (getTokenPrices env s addresses chainId))
                   !! toLowerCase a = None).
  { destruct (keyed_run_written env s addresses chainId (toLowerCase a) Hkey)
      as [Heq|(Hin & body & usd & i & Hr & Hq & _)]; cbv zeta in *.
    - now rewrite Heq.
    - exfalso. pose proof (request_made env s addresses chainId Hkey) as Hreq.
      cbv zeta in Hreq. rewrite decide_False in Hreq
        by (intros E; rewrite E in Hin; now apply not_elem_of_nil in Hin).
      specialize (Hreply _ ltac:(rewrite Hreq; apply list_elem_of_here)).
      rewrite Hr in Hreply. congruence. }
  split; [exact Hstill|].
  intros env2 addresses2 chainId2 Ha2.
  set (s1 := service (getTokenPrices env s addresses chainId)) in *.
  assert (Hk1 : apiKey s1 = apiKey s).
  { subst s1. now destruct (keyed_run env s addresses chainId Hkey) as (r & _ & _ & Hk & _). }
  assert (Hkey1 : apiKey s1 <> "") by now rewrite Hk1.
  assert (Hm : miss env2 s1 a) by (intros c Hc; congruence).
  pose proof (miss_pushed env2 s1 addresses2 a Ha2 Hm) as Hin.
  pose proof (request_made env2 s1 addresses2 chainId2 Hkey1) as Hreq. cbv zeta in Hreq.
  rewrite decide_False in Hreq
    by (intros E; rewrite E in Hin; now apply not_elem_of_nil in Hin).
  eexists. rewrite Hreq, Hk1. split; [reflexivity|exact Hin].
Qed.

Lemma unpriced_address_is_retried_witness :
  let o := getTokenPrices (answering 1000 wethBody) fresh ["0xtoken1"; "0xTOKEN2"] 1 in
  priceCache (service o) !! "0xtoken2" = None
  /\ httpCalls (events (getTokenPrices (answering 1001 wethBody) (service o)
                          ["0xtoken1"; "0xTOKEN2"] 1))
     = [quotesRequest key ["0xtoken2"]].
Proof.
  cbv zeta.
  destruct (unpriced_address_is_retried (answering 1000 wethBody) fresh
              ["0xtoken1"; "0xTOKEN2"] 1 "0xTOKEN2") as [Hnone Hnext].
  - vm_compute. discriminate.
  - vm_compute. reflexivity.
  - intros req _. vm_compute. reflexivity.
  - split; [exact Hnone|].
    destruct (Hnext (answering 1001 wethBody) ["0xtoken1"; "0xTOKEN2"] 1) as (u & Hu & _).
    + apply list_elem_of_further, list_elem_of_here.
    + vm_compute. reflexivity.
Defined.

(** X4: on an empty cache (a new service, or after clearCache) a call
    with an API key and at least one address makes exactly one request,
    which lists every requested address, lowercased and in the order
    given, duplicates included. *)
Theorem empty_cache_requests_everything (env : Env) (s : Service)
        (addresses : list string) (chainId : Z) :
  apiKey s <> "" -> addresses <> [] ->
  getCacheSize (clearCache s) = 0%nat
  /\ httpCalls (events (getTokenPrices env (clearCache s) addresses chainId))
     = [quotesRequest (apiKey s) (map toLowerCase addresses)]
  /\ params_address (quotesRequest (apiKey s) (map toLowerCase addresses))
     = join "," (map toLowerCase addresses).
Proof.
  intros Hkey Hne. split; [apply map_size_empty|]. split; [|reflexivity].
  pose proof (request_made env (clearCache s) addresses chainId Hkey) as Hreq.
  cbv zeta in Hreq. rewrite checkLoop_empty in Hreq by reflexivity.
  cbn [uncachedAddresses app apiKey clearCache] in Hreq.
  rewrite decide_False in Hreq; [exact Hreq|].
  destruct addresses; [contradiction|discriminate].
Qed.

Lemma empty_cache_requests_everything_witness :
  map params_address
      (httpCalls (events (getTokenPrices (failing 1000) (clearCache warmed)
                            ["0xToken1"; "0xtoken2"; "0xTOKEN1"] 1)))
  = ["0xtoken1,0xtoken2,0xtoken1"].
Proof.
  destruct (empty_cache_requests_everything (failing 1000) warmed
              ["0xToken1"; "0xtoken2"; "0xTOKEN1"] 1) as (_ & -> & _).
  - vm_compute. discriminate.
  - discriminate.
  - vm_compute. reflexivity.
Defined.

(** X5: a call never shrinks the cache and adds at most one entry per
    requested address: the size reported by getCacheSize afterwards lies
    between the size before and that size plus the number of addresses. *)
Theorem cache_size_bounds (env : Env) (s : Service) (addresses : list string)
        (chainId : Z) :
  let o := getTokenPrices env s addresses chainId in
  (getCacheSize s <= getCacheSize (service o)
   /\ getCacheSize (service o) <= getCacheSize s + length addresses)%nat.
Proof.
  cbv zeta. unfold getCacheSize.
  destruct (cache_changes env s addresses chainId) as [Hmono Hch]. cbv zeta in *.
  set (m' := priceCache (service (getTokenPrices env s addresses chainId))) in *.
  rewrite <- !(size_dom (D := gset string)).
  assert (H1 : dom (priceCache s) ⊆ dom m').
  { intros k Hk. apply elem_of_dom. apply Hmono. now apply elem_of_dom. }
  assert (H2 : dom m' ⊆ dom (priceCache s) ∪ list_to_set (map toLowerCase addresses)).
  { intros k Hk. apply elem_of_union.
    apply elem_of_dom in Hk.
    destruct (priceCache s !! k) as [e|] eqn:Hs.
    - left. apply elem_of_dom. rewrite Hs. eauto.
    - right. apply elem_of_list_to_set. apply Hch. rewrite Hs.
      intros Heq. rewrite Heq in Hk. now destruct Hk. }
  apply subseteq_size in H1, H2. split; [exact H1|].
  rewrite size_union_alt in H2.
  pose proof (size_list_to_set_le (map toLowerCase addresses)) as H3.
  rewrite length_map in H3.
  assert (H4 : list_to_set (map toLowerCase addresses) ∖ dom (priceCache s)
               ⊆ (list_to_set (map toLowerCase addresses) : gset string))
    by apply subseteq_difference_l, reflexivity.
  apply subseteq_size in H4. lia.
Qed.

(** X6: a call first makes all its cache lookups and then at most one
    request; the request goes to the quotes endpoint with the API key of
    the service in its header, convert=USD, aux=platform and a timeout of
    10000 ms, and is made only by a service that has an API key. *)
Theorem one_request_after_lookups (env : Env) (s : Service) (addresses : list string)
        (chainId : Z) :
  let o := getTokenPrices env s addresses chainId in
  exists keys reqs,
    events o = (map CacheGet keys ++ map HttpGet reqs)%list
    /\ (length reqs <= 1)%nat
    /\ forall req, req ∈ reqs ->
         apiKey s <> ""
         /\ url req = "https://pro-api.coinmarketcap.com/v2/cryptocurrency/quotes/latest"
         /\ header_X_CMC_PRO_API_KEY req = apiKey s
         /\ params_convert req = "USD" /\ params_aux req = "platform"
         /\ timeout req = 10000.
Proof.
  cbv zeta. destruct (decide (apiKey s = "")) as [Hkey|Hkey].
  - destruct (unkeyed_run env s addresses chainId Hkey) as (r & _ & -> & _).
    exists [], []. split; [reflexivity|]. split; [simpl; lia|].
    intros req Hreq. now apply not_elem_of_nil in Hreq.
  - destruct (keyed_run env s addresses chainId Hkey) as (r & _ & Hev & _).
    cbv zeta in Hev. rewrite Hev.
    exists (map toLowerCase (map toLowerCase addresses)).
    rewrite (map_map toLowerCase CacheGet).
    destruct (decide _).
    + exists []. split; [reflexivity|]. split; [simpl; lia|].
      intros req Hreq. now apply not_elem_of_nil in Hreq.
    + eexists [_]. split; [reflexivity|]. split; [simpl; lia|].
      intros req Hreq. apply list_elem_of_singleton in Hreq as ->.
      now repeat split.
Qed.

(** The first address of the response loop is stored whenever the
    response passes the test for it, whether the loop throws or not. *)
Lemma parseLoop_head_entry (env : Env) (data : JsValue) (k : string) (u : list string)
      (f : Frame) (usd : JsValue) :
  usdQuote data k = Some usd ->
  exists i, cache (forEach (k :: u) (parseToken env data) f).2 !! k
            = Some (entryOf data k usd (Date_now env i)).
Proof.
  intros Hq. simpl. unfold bind. rewrite parseToken_eq, Hq.
  destruct (loggable data k usd); cbn [fst snd];
    [|exists (ticks f); apply lookup_insert_eq].
  apply (forEach_inv _ (fun g => exists i, cache g !! k
                                           = Some (entryOf data k usd (Date_now env i)))).
  - intros x g _ (i & Hi). rewrite parseToken_eq.
    destruct (usdQuote data x) as [usdx|] eqn:Hx; cbn [snd cache]; [|now exists i].
    destruct (decide (x = k)) as [->|Hne].
    + exists (ticks g). rewrite Hq in Hx. injection Hx as <-. apply lookup_insert_eq.
    + exists i. now rewrite lookup_insert_ne.
  - exists (ticks f). apply lookup_insert_eq.
Qed.

Lemma not_number_not_loggable (data : JsValue) (a : string) (usd : JsValue) :
  is_number (get usd "price") = false -> loggable data a usd = false.
Proof. intros H. unfold loggable. rewrite H. apply andb_false_r. Qed.

(** A pushed address whose log line cannot be written makes the call
    answer 0 for every pushed address. *)
Lemma throwing_run_zeroes (env : Env) (s : Service) (addresses : list string)
      (chainId : Z) (body : JsValue) (b : string) (usd : JsValue) :
  apiKey s <> "" ->
  let u := uncachedAddresses (forEach (map toLowerCase addresses) (checkCache env)
                                      (mkFrame (priceCache s) ∅ [] 0 [])).2 in
  axios_get env (quotesRequest (apiKey s) u) = Resolved body ->
  truthy body = true -> truthy (get body "data") = true ->
  b ∈ u -> usdQuote (get body "data") b = Some usd ->
  loggable (get body "data") b usd = false ->
  exists r, returned (getTokenPrices env s addresses chainId) = Normal r
            /\ forall k, k ∈ u -> r !! k = Some (JNum 0).
Proof.
  intros Hkey. cbv zeta. intros Hreply Hb Hd Hin Hq Hnum.
  assert (Hu : uncachedAddresses
                 (forEach (map toLowerCase addresses) (checkCache env)
                          (mkFrame (priceCache s) ∅ [] 0 [])).2 <> [])
    by (intros E; rewrite E in Hin; now apply not_elem_of_nil in Hin).
  destruct (answered_run env s addresses chainId body Hkey Hu Hreply Hb Hd) as (r & E & Hr).
  rewrite (parseLoop_throws env (get body "data") _ _ b usd Hin Hq Hnum) in Hr.
  exists r. rewrite E. split; [reflexivity|].
  intros k Hk. now rewrite Hr, decide_True.
Qed.

(** X7: when the response carries, for one of the missed addresses, a USD
    quote whose price is not a number, the call still returns normally,
    and it returns 0 for every missed address of the batch, those with a
    numeric quote included. *)
Theorem nonnumeric_price_zeroes_batch (env : Env) (s : Service) (addresses : list string)
        (chainId : Z) (body : JsValue) (b : string) (usd : JsValue) :
  apiKey s <> "" ->
  let o := getTokenPrices env s addresses chainId in
  (forall req, req ∈ httpCalls (events o) -> axios_get env req = Resolved body) ->
  truthy body = true -> truthy (get body "data") = true ->
  b ∈ addresses -> miss env s b ->
  usdQuote (get body "data") (toLowerCase b) = Some usd ->
  is_number (get usd "price") = false ->
  exists r, returned o = Normal r
            /\ forall a, a ∈ addresses -> miss env s a ->
                         r !! toLowerCase a = Some (JNum 0).
Proof.
  intros Hkey. cbv zeta. intros Hreply Hb Hd Hin Hm Hq Hnum.
  pose proof (miss_pushed env s addresses b Hin Hm) as Hpushed.
  pose proof (request_made env s addresses chainId Hkey) as Hreq. cbv zeta in Hreq.
  rewrite decide_False in Hreq
    by (intros E; rewrite E in Hpushed; now apply not_elem_of_nil in Hpushed).
  specialize (Hreply _ ltac:(rewrite Hreq; apply list_elem_of_here)).
  destruct (throwing_run_zeroes env s addresses chainId body (toLowerCase b) usd
              Hkey Hreply Hb Hd Hpushed Hq (not_number_not_loggable _ _ _ Hnum))
    as (r & Hr & Hz).
  exists r. split; [exact Hr|]. intros a Ha Hma. apply Hz. now apply miss_pushed.
Qed.

Lemma nonnumeric_price_zeroes_batch_witness :
  returned (getTokenPrices (answering 1000 nullPriceBody) fresh ["0xtoken1"; "0xtoken2"] 1)
  = Normal {[ "0xtoken1" := JNum 0; "0xtoken2" := JNum 0 ]}
  /\ exists r, returned (getTokenPrices (answering 1000 nullPriceBody) fresh
                         ["0xtoken1"; "0xtoken2"] 1) = Normal r
               /\ r !! "0xtoken1" = Some (JNum 0).
Proof.
  split; [vm_compute; reflexivity|].
  assert (Hm : forall a, miss (answering 1000 nullPriceBody) fresh a)
    by (intros a c Hc; vm_compute in Hc; discriminate).
  destruct (nonnumeric_price_zeroes_batch (answering 1000 nullPriceBody) fresh
              ["0xtoken1"; "0xtoken2"] 1 nullPriceBody "0xtoken2"
              (JObj [("price", JNull)])) as (r & Hr & Hz).
  - vm_compute. discriminate.
  - intros req _. reflexivity.
  - reflexivity.
  - reflexivity.
  - apply list_elem_of_further, list_elem_of_here.
  - apply Hm.
  - vm_compute. reflexivity.
  - reflexivity.
  - exists r. split; [exact Hr|].
    exact (Hz "0xtoken1" (list_elem_of_here _ _) (Hm _)).
Defined.

(** X23: when the response carries, for one of the missed addresses, a
    USD quote together with a symbol that cannot be converted to a string
    (an object with a member toString), the template of the log line
    throws after the cache write: the call returns normally, 0 for every
    missed address of the batch, whatever the prices quoted. *)
Theorem unprintable_symbol_zeroes_batch (env : Env) (s : Service)
        (addresses : list string) (chainId : Z) (body : JsValue) (b : string)
        (usd : JsValue) :
  apiKey s <> "" ->
  let o := getTokenPrices env s addresses chainId in
  (forall req, req ∈ httpCalls (events o) -> axios_get env req = Resolved body) ->
  truthy body = true -> truthy (get body "data") = true ->
  b ∈ addresses -> miss env s b ->
  usdQuote (get body "data") (toLowerCase b) = Some usd ->
  printable (or_else (get (get (get body "data") (toLowerCase b)) "symbol")
                     (JStr "UNKNOWN")) = false ->
  exists r, returned o = Normal r
            /\ forall a, a ∈ addresses -> miss env s a ->
                         r !! toLowerCase a = Some (JNum 0).
Proof.
  intros Hkey. cbv zeta. intros Hreply Hb Hd Hin Hm Hq Hsym.
  pose proof (miss_pushed env s addresses b Hin Hm) as Hpushed.
  pose proof (request_made env s addresses chainId Hkey) as Hreq. cbv zeta in Hreq.
  rewrite decide_False in Hreq
    by (intros E; rewrite E in Hpushed; now apply not_elem_of_nil in Hpushed).
  specialize (Hreply _ ltac:(rewrite Hreq; apply list_elem_of_here)).
  assert (Hlog : loggable (get body "data") (toLowerCase b) usd = false)
    by (unfold loggable; now rewrite Hsym).
  destruct (throwing_run_zeroes env s addresses chainId body (toLowerCase b) usd
              Hkey Hreply Hb Hd Hpushed Hq Hlog) as (r & Hr & Hz).
  exists r. split; [exact Hr|]. intros a Ha Hma. apply Hz. now apply miss_pushed.
Qed.

Lemma unprintable_symbol_zeroes_batch_witness :
  returned (getTokenPrices (answering 1000 oddSymbolBody) fresh ["0xtoken1"; "0xtoken2"] 1)
  = Normal {[ "0xtoken1" := JNum 0; "0xtoken2" := JNum 0 ]}
  /\ exists r, returned (getTokenPrices (answering 1000 oddSymbolBody) fresh
                         ["0xtoken1"; "0xtoken2"] 1) = Normal r
               /\ r !! "0xtoken1" = Some (JNum 0).
Proof.
  split; [vm_compute; reflexivity|].
  assert (Hm : forall a, miss (answering 1000 oddSymbolBody) fresh a)
    by (intros a c Hc; vm_compute in Hc; discriminate).
  destruct (unprintable_symbol_zeroes_batch (answering 1000 oddSymbolBody) fresh
              ["0xtoken1"; "0xtoken2"] 1 oddSymbolBody "0xtoken2"
              (JObj [("price", JNum 5)])) as (r & Hr & Hz).
  - vm_compute. discriminate.
  - intros req _. reflexivity.
  - reflexivity.
  - reflexivity.
  - apply list_elem_of_further, list_elem_of_here.
  - apply Hm.
  - vm_compute. reflexivity.
  - reflexivity.
  - exists r. split; [exact Hr|].
    exact (Hz "0xtoken1" (list_elem_of_here _ _) (Hm _)).
Defined.

(** X8: a USD quote whose price is not a number is cached all the same:
    the call that receives it for a missed address answers 0 for the
    address, and a call for the same address within the TTL makes no
    request and answers with the cached value that is not a number. *)
Theorem nonnumeric_price_is_cached (env1 env2 : Env) (s : Service) (a : string)
        (chainId : Z) (body usd : JsValue) :
  apiKey s <> "" -> miss env1 s a ->
  let o1 := getTokenPrices env1 s [a] chainId in
  let o2 := getTokenPrices env2 (service o1) [a] chainId in
  (forall req, req ∈ httpCalls (events o1) -> axios_get env1 req = Resolved body) ->
  truthy body = true -> truthy (get body "data") = true ->
  usdQuote (get body "data") (toLowerCase a) = Some usd ->
  is_number (get usd "price") = false ->
  (forall i j, Date_now env2 j - Date_now env1 i <= 60000) ->
  exists r1 r2,
    returned o1 = Normal r1 /\ r1 !! toLowerCase a = Some (JNum 0)
    /\ returned o2 = Normal r2 /\ r2 !! toLowerCase a = Some (get usd "price")
    /\ httpCalls (events o2) = [].
Proof.
  intros Hkey Hm. cbv zeta. intros Hreply Hb Hd Hq Hnum Hwin.
  pose proof (miss_pushed env1 s [a] a (list_elem_of_here _ _) Hm) as Hpushed.
  pose proof (request_made env1 s [a] chainId Hkey) as Hreq. cbv zeta in Hreq.
  destruct (checkLoop_uncached env1 (map toLowerCase [a])
              (mkFrame (priceCache s) ∅ [] 0 [])) as (u & Hu & Hsub & _).
  cbn [uncachedAddresses app] in Hu. rewrite Hu in Hpushed, Hreq.
  apply sublist_singleton in Hsub as [->| ->];
    [now apply not_elem_of_nil in Hpushed|].
  rewrite decide_False in Hreq by discriminate.
  specialize (Hreply _ ltac:(rewrite Hreq; apply list_elem_of_here)).
  assert (Hne : uncachedAddresses
                  (forEach (map toLowerCase [a]) (checkCache env1)
                           (mkFrame (priceCache s) ∅ [] 0 [])).2 <> [])
    by (rewrite Hu; discriminate).
  pose proof Hreply as Hreply'. rewrite <- Hu in Hreply'.
  destruct (answered_run env1 s [a] chainId body Hkey Hne Hreply' Hb Hd) as (r1 & E & Hr1).
  rewrite Hu in E, Hr1.
  rewrite (parseLoop_throws env1 (get body "data") _ _ (toLowerCase a) usd
             (list_elem_of_here _ _) Hq (not_number_not_loggable _ _ _ Hnum)) in Hr1.
  match type of E with context [forEach [toLowerCase a] ?p ?g] =>
    destruct (parseLoop_head_entry env1 (get body "data") (toLowerCase a) [] g usd Hq)
      as (i & Hstored) end.
  set (s1 := service (getTokenPrices env1 s [a] chainId)).
  assert (Hc1 : priceCache s1 !! toLowerCase a
                = Some (entryOf (get body "data") (toLowerCase a) usd (Date_now env1 i))).
  { subst s1. rewrite E. exact Hstored. }
  assert (Hkey1 : apiKey s1 <> "") by (subst s1; now rewrite E).
  assert (Hhit : hit env2 s1 a
                   (entryOf (get body "data") (toLowerCase a) usd (Date_now env1 i))).
  { split; [exact Hc1|]. intros j. cbn [timestamp entryOf]. unfold CACHE_TTL_MS. apply Hwin. }
  destruct (hit_served env2 s1 [a] chainId a _ Hkey1 (list_elem_of_here _ _) Hhit)
    as (r2 & Hr2 & Hl2).
  exists r1, r2. split; [now rewrite E|]. split.
  { rewrite Hr1. now rewrite decide_True by apply list_elem_of_here. }
  split; [exact Hr2|]. split; [exact Hl2|].
  rewrite (request_made env2 s1 [a] chainId Hkey1).
  rewrite (all_hits_nothing_pushed env2 s1 [a]); [reflexivity|].
  intros b Hb'. apply list_elem_of_singleton in Hb' as ->. eauto.
Qed.

Lemma nonnumeric_price_is_cached_witness :
  let o1 := getTokenPrices (answering 1000 nullPriceBody) fresh ["0xtoken2"] 1 in
  let o2 := getTokenPrices (failing 2000) (service o1) ["0xtoken2"] 1 in
  exists r1 r2,
    returned o1 = Normal r1 /\ r1 !! "0xtoken2" = Some (JNum 0)
    /\ returned o2 = Normal r2 /\ r2 !! "0xtoken2" = Some JNull
    /\ httpCalls (events o2) = [].
Proof.
  cbv zeta.
  apply (nonnumeric_price_is_cached (answering 1000 nullPriceBody) (failing 2000) fresh
           "0xtoken2" 1 nullPriceBody (JObj [("price", JNull)])).
  - vm_compute. discriminate.
  - intros c Hc. vm_compute in Hc. discriminate.
  - intros req _. reflexivity.
  - reflexivity.
  - reflexivity.
  - vm_compute. reflexivity.
  - reflexivity.
  - intros i j. vm_compute. discriminate.
Defined.

End PriceCacheFacts.

(** ** The request validation *)

Module MiddlewareFacts.

Import Routes Middleware.

(** *** White space *)

Lemma skipWhiteSpace_split (s : string) :
  exists l, s = (l ++ skipWhiteSpace s)%string /\ blank l = true.
Proof.
  induction s as [|c s (l & IH & Hl)]; [now exists ""|]. simpl.
  destruct (isWhiteSpace c) eqn:Hc; [|now exists ""].
  exists (String c l). split; [rewrite IH at 1; reflexivity|].
  simpl. now rewrite Hc, Hl.
Qed.

Lemma skipWhiteSpace_head (s : string) :
  match skipWhiteSpace s with
  | EmptyString => blank s = true
  | String c _ => isWhiteSpace c = false /\ blank s = false
  end.
Proof.
  induction s as [|c s IH]; [reflexivity|]. simpl.
  destruct (isWhiteSpace c) eqn:Hc; [|now rewrite Hc].
  exact IH.
Qed.

Lemma trimEnd_keeps_head (c : ascii) (s : string) :
  isWhiteSpace c = false -> trimEnd (String c s) = String c (trimEnd s).
Proof. intros Hc. simpl. rewrite Hc. now destruct (trimEnd s). Qed.

Lemma trimEnd_split (s : string) :
  exists r, s = (trimEnd s ++ r)%string /\ blank r = true.
Proof.
  induction s as [|c s (r & IH & Hr)]; [now exists ""|]. simpl.
  destruct (trimEnd s) as [|d t] eqn:Ht.
  - change (s = r) in IH. subst r. destruct (isWhiteSpace c) eqn:Hc.
    + exists (String c s). split; [reflexivity|]. simpl. now rewrite Hc, Hr.
    + now exists s.
  - exists r. split; [|exact Hr]. rewrite IH at 1. reflexivity.
Qed.

Lemma append_last_inv (a : ascii) (r : string) (c : ascii) :
  String a EmptyString = (r ++ String c EmptyString)%string -> r = EmptyString /\ a = c.
Proof.
  destruct r as [|b r]; intros H; [now injection H|].
  injection H as _ H. now destruct r.
Qed.

(** What [trimEnd] returns does not end in white space. *)
Lemma trimEnd_last (s r : string) (c : ascii) :
  trimEnd s = (r ++ String c EmptyString)%string -> isWhiteSpace c = false.
Proof.
  revert r. induction s as [|a s IH]; intros r; simpl.
  - now destruct r.
  - destruct (trimEnd s) as [|d t] eqn:Ht.
    + destruct (isWhiteSpace a) eqn:Ha; [now destruct r|].
      intros H. apply append_last_inv in H as [_ <-]. exact Ha.
    + destruct r as [|b r]; [discriminate|].
      intros H. injection H as _ H. now apply (IH r).
Qed.

Lemma trimEnd_idem (s : string) : trimEnd (trimEnd s) = trimEnd s.
Proof.
  induction s as [|a s IH]; [reflexivity|]. simpl.
  destruct (trimEnd s) as [|d t] eqn:Ht.
  - destruct (isWhiteSpace a) eqn:Ha; [reflexivity|]. simpl. now rewrite Ha.
  - change (trimEnd (String a (String d t)) = String a (String d t)).
    simpl. simpl in IH. now rewrite IH.
Qed.

Lemma trim_blank (s : string) : trim s = EmptyString <-> blank s = true.
Proof.
  unfold trim. pose proof (skipWhiteSpace_head s) as H.
  destruct (skipWhiteSpace s) as [|c t]; [now split|].
  destruct H as [Hc Hb]. rewrite trimEnd_keeps_head by exact Hc.
  split; [discriminate|]. rewrite Hb. discriminate.
Qed.

(** [trim] removes white space at both ends and nothing else, and what
    it returns is trimmed. *)
Lemma trim_spec (s : string) :
  (exists l r, s = (l ++ trim s ++ r)%string /\ blank l = true /\ blank r = true)
  /\ (forall c t, trim s = String c t -> isWhiteSpace c = false)
  /\ (forall t c, trim s = (t ++ String c EmptyString)%string -> isWhiteSpace c = false)
  /\ trim (trim s) = trim s.
Proof.
  unfold trim. split; [|split; [|split]].
  - destruct (skipWhiteSpace_split s) as (l & Hl & Bl).
    destruct (trimEnd_split (skipWhiteSpace s)) as (r & Hr & Br).
    exists l, r. split; [|now split]. now rewrite <- Hr.
  - intros c t. pose proof (skipWhiteSpace_head s) as H.
    destruct (skipWhiteSpace s) as [|d u]; [discriminate|].
    destruct H as [Hd _]. rewrite trimEnd_keeps_head by exact Hd.
    now intros [= <- _].
  - intros t c. apply trimEnd_last.
  - pose proof (skipWhiteSpace_head s) as H.
    destruct (skipWhiteSpace s) as [|d u]; [reflexivity|].
    destruct H as [Hd _]. rewrite trimEnd_keeps_head by exact Hd.
    simpl skipWhiteSpace. rewrite Hd.
    rewrite trimEnd_keeps_head by exact Hd. now rewrite trimEnd_idem.
Qed.

(** *** Objects *)

Lemma assoc_set_same (k : string) (v : JsValue) (props : list (string * JsValue)) :
  assoc k (assoc_set k v props) = v.
Proof.
  induction props as [|[k' v'] props IH]; simpl; [now rewrite String.eqb_refl|].
  destruct (String.eqb k k') eqn:E; simpl; [now rewrite String.eqb_refl|].
  now rewrite E.
Qed.

Lemma assoc_set_other (k k' : string) (v : JsValue) (props : list (string * JsValue)) :
  k' <> k -> assoc k' (assoc_set k v props) = assoc k' props.
Proof.
  intros Hne. induction props as [|[k0 v0] props IH]; simpl.
  - destruct (String.eqb_spec k' k); [contradiction|reflexivity].
  - destruct (String.eqb_spec k k0) as [->|_]; simpl.
    + destruct (String.eqb_spec k' k0); [contradiction|reflexivity].
    + now rewrite IH.
Qed.

Lemma assoc_set_idem (k : string) (v : JsValue) (props : list (string * JsValue)) :
  assoc_set k v (assoc_set k v props) = assoc_set k v props.
Proof.
  induction props as [|[k0 v0] props IH]; simpl; [now rewrite String.eqb_refl|].
  destruct (String.eqb k k0) eqn:E; simpl; [now rewrite String.eqb_refl|].
  now rewrite E, IH.
Qed.

(** Only an object has a string for a member named [userId]. *)
Lemma string_member_object (body : JsValue) (k u : string) :
  array_index k = None -> k <> "length" -> get body k = JStr u ->
  exists props, body = JObj props.
Proof.
  intros Hk Hl H. destruct body as [| | | |s|items|props]; simpl in H; try discriminate.
  - destruct (String.eqb_spec k "length"); [contradiction|]. now rewrite Hk in H.
  - destruct (String.eqb_spec k "length"); [contradiction|]. now rewrite Hk in H.
  - now exists props.
Qed.

(** *** The two validators *)

Section Contracts.

Variable INVALID_REQUEST : string.

(** What a handler behind validateUserId can rely on. *)
Lemma validateUserId_cases (body : JsValue) :
  nullish body = false ->
  (validateUserId INVALID_REQUEST body = Answered 400 "userId is required" INVALID_REQUEST
   /\ forall u, get body "userId" = JStr u -> blank u = true)
  \/ exists u body',
       get body "userId" = JStr u /\ trim u <> ""
       /\ validateUserId INVALID_REQUEST body = Continue body'
       /\ nullish body' = false
       /\ get body' "userId" = JStr (trim u)
       /\ forall k, k <> "userId" -> get body' k = get body k.
Proof.
  intros Hnull. unfold validateUserId. rewrite Hnull.
  destruct (get body "userId") as [| | | |u| |] eqn:Hget;
    try (left; split; [reflexivity|discriminate]).
  destruct (String.eqb_spec u "") as [->|Hu]; cbn [orb].
  { left. split; [reflexivity|]. now intros u [= <-]. }
  destruct (String.eqb_spec (trim u) "") as [Ht|Ht].
  { left. split; [reflexivity|]. intros u' [= <-]. now apply trim_blank. }
  destruct (string_member_object body "userId" u) as [props ->];
    [reflexivity|discriminate|exact Hget|].
  right. exists u, (set (JObj props) "userId" (JStr (trim u))).
  cbn [set get nullish]. repeat split; auto.
  - apply assoc_set_same.
  - intros k Hk. now apply assoc_set_other.
Qed.

(** What a handler behind validateTxParams can rely on, and why a request
    does not get through. *)
Lemma validateTxParams_cases (body : JsValue) :
  nullish body = false ->
  (validateTxParams INVALID_REQUEST body = Continue body
   /\ exists props t, get body "txParams" = JObj props
                      /\ assoc "to" props = JStr t /\ t <> ""
                      /\ nullish (assoc "value" props) = false)
  \/ exists msg,
       validateTxParams INVALID_REQUEST body = Answered 400 msg INVALID_REQUEST
       /\ ((msg = "txParams is required"
            /\ forall props, get body "txParams" <> JObj props)
           \/ (msg = "txParams.to is required and must be a valid address"
               /\ forall t, get (get body "txParams") "to" = JStr t -> t = "")
           \/ (msg = "txParams.value is required"
               /\ nullish (get (get body "txParams") "value") = true)).
Proof.
  intros Hnull. unfold validateTxParams. rewrite Hnull. cbv zeta.
  destruct (get body "txParams") as [| |b|n|s|items|props] eqn:Htx;
    cbn [truthy typeof_object negb orb];
    try (right; eexists; split; [reflexivity|]; left; split; [reflexivity|discriminate]).
  - right. destruct b; eexists; (split; [reflexivity|]); left;
      (split; [reflexivity|discriminate]).
  - right. rewrite orb_true_r. eexists. split; [reflexivity|]. left.
    split; [reflexivity|discriminate].
  - right. rewrite orb_true_r. eexists. split; [reflexivity|]. left.
    split; [reflexivity|discriminate].
  - right. assert (Hto : get (JArr items) "to" = JUndefined) by reflexivity.
    rewrite Hto. cbn [truthy negb orb]. eexists. split; [reflexivity|]. right. left.
    split; [reflexivity|]. intros t. discriminate.
  - cbn [get].
    destruct (assoc "to" props) as [| | | |t| |] eqn:Hto; cbn [truthy negb orb];
      try (right; eexists; split; [reflexivity|]; right; left; split; [reflexivity|];
           intros; discriminate).
    + right. destruct b; eexists; (split; [reflexivity|]); right; left;
        (split; [reflexivity|]; intros; discriminate).
    + right. rewrite orb_true_r. eexists. split; [reflexivity|]. right. left.
      split; [reflexivity|]. intros; discriminate.
    + destruct (String.eqb_spec t "") as [->|Ht]; cbn [negb orb].
      { right. eexists. split; [reflexivity|]. right. left.
        split; [reflexivity|]. now intros t [= <-]. }
      destruct (nullish (assoc "value" props)) eqn:Hv.
      * right. eexists. split; [reflexivity|]. right. right. now split.
      * left. split; [reflexivity|]. now exists props, t.
Qed.

(** X9: on a body that is not undefined or null, whose [userId] is ASCII
    text if it is a string, validateUserId lets the
    request through exactly when [userId] is a string with a character
    that is not white space, and then hands on the body with [userId]
    replaced by the string without the white space around it (nothing
    else is removed, no other member is touched); validating the
    normalised body again changes nothing.  Every other request is
    answered 400 "userId is required". *)
Theorem validateUserId_contract (body : JsValue) :
  nullish body = false -> asciiUserId body ->
  match validateUserId INVALID_REQUEST body with
  | Continue body' =>
      exists u l r,
        get body "userId" = JStr u
        /\ u = (l ++ trim u ++ r)%string /\ blank l = true /\ blank r = true
        /\ trim u <> ""
        /\ (forall c t, trim u = String c t -> isWhiteSpace c = false)
        /\ (forall t c, trim u = (t ++ String c "")%string -> isWhiteSpace c = false)
        /\ get body' "userId" = JStr (trim u)
        /\ (forall k, k <> "userId" -> get body' k = get body k)
        /\ validateUserId INVALID_REQUEST body' = Continue body'
  | Answered st msg err =>
      st = 400 /\ msg = "userId is required" /\ err = INVALID_REQUEST
      /\ (forall u, get body "userId" = JStr u -> blank u = true)
  | TypeError => False
  end.
Proof.
  intros Hnull _. unfold validateUserId. rewrite Hnull.
  destruct (get body "userId") as [| | | |u| |] eqn:Hget;
    try (repeat split; intros; discriminate).
  destruct (String.eqb_spec u "") as [->|Hu]; cbn [orb].
  { repeat split. now intros u [= <-]. }
  destruct (String.eqb_spec (trim u) "") as [Ht|Ht].
  { repeat split. intros u' [= <-]. now apply trim_blank. }
  destruct (string_member_object body "userId" u) as [props ->];
    [reflexivity|discriminate|exact Hget|].
  destruct (trim_spec u) as ((l & r & Hsplit & Hl & Hr) & Hfirst & Hlast & Hidem).
  exists u, l, r. cbn [set get] in *.
  split; [reflexivity|]. split; [exact Hsplit|]. split; [exact Hl|]. split; [exact Hr|].
  split; [exact Ht|]. split; [exact Hfirst|]. split; [exact Hlast|].
  split; [apply assoc_set_same|]. split; [intros k Hk; now apply assoc_set_other|].
  rewrite assoc_set_same.
  destruct (String.eqb_spec (trim u) ""); [contradiction|]. rewrite Hidem.
  destruct (String.eqb_spec (trim u) ""); [contradiction|]. cbn [orb].
  now rewrite assoc_set_idem.
Qed.

(** X10: validateTxParams never changes the body.  It lets a request
    through only when [txParams] is an object whose [to] is a string that
    is not empty and whose [value] is neither missing nor null; and it
    lets every such request through: [to] need not look like an address
    and [value] may be any other value.  The refusals are 400, for the
    first of the three checks that fails. *)
Theorem validateTxParams_contract (body : JsValue) :
  nullish body = false ->
  match validateTxParams INVALID_REQUEST body with
  | Continue body' =>
      body' = body
      /\ exists props t, get body "txParams" = JObj props
                         /\ assoc "to" props = JStr t /\ t <> ""
                         /\ nullish (assoc "value" props) = false
  | Answered st msg err =>
      st = 400 /\ err = INVALID_REQUEST
      /\ ((msg = "txParams is required"
           /\ forall props, get body "txParams" <> JObj props)
          \/ (msg = "txParams.to is required and must be a valid address"
              /\ forall t, get (get body "txParams") "to" = JStr t -> t = "")
          \/ (msg = "txParams.value is required"
              /\ nullish (get (get body "txParams") "value") = true
              /\ exists t, get (get body "txParams") "to" = JStr t /\ t <> ""))
  | TypeError => False
  end.
Proof.
  intros Hnull. unfold validateTxParams. rewrite Hnull. cbv zeta.
  destruct (get body "txParams") as [| |b|n|s|items|props] eqn:Htx; cbn [truthy typeof_object negb orb];
    try (repeat split; left; split; [reflexivity|discriminate]).
  - destruct b; repeat split; left; (split; [reflexivity|discriminate]).
  - rewrite orb_true_r. repeat split; left; (split; [reflexivity|discriminate]).
  - rewrite orb_true_r. repeat split; left; (split; [reflexivity|discriminate]).
  - assert (Hto : get (JArr items) "to" = JUndefined) by reflexivity.
    rewrite Hto. cbn [truthy negb orb]. repeat split. right. left.
    split; [reflexivity|]. intros t. discriminate.
  - cbn [get].
    destruct (assoc "to" props) as [| | | |t| |] eqn:Hto; cbn [truthy negb orb];
      try (repeat split; right; left; split; [reflexivity|]; intros; discriminate).
    + destruct b; repeat split; right; left; (split; [reflexivity|]; intros; discriminate).
    + rewrite orb_true_r. repeat split; right; left; (split; [reflexivity|]; intros; discriminate).
    + destruct (String.eqb_spec t "") as [->|Ht]; cbn [negb orb].
      { repeat split. right. left. split; [reflexivity|]. now intros t [= <-]. }
      destruct (nullish (assoc "value" props)) eqn:Hv.
      * repeat split. right. right. split; [reflexivity|]. split; [reflexivity|].
        now exists t.
      * split; [reflexivity|]. now exists props, t.
Qed.

End Contracts.

Lemma validateUserId_contract_witness :
  exists body',
    validateUserId "INVALID_REQUEST"
      (JObj [("userId", JStr "  telegram_123 "); ("txParams", JNull)])
    = Continue body'
    /\ get body' "userId" = JStr "telegram_123"
    /\ get body' "txParams" = JNull.
Proof.
  assert (Ha : asciiUserId (JObj [("userId", JStr "  telegram_123 "); ("txParams", JNull)]))
    by (intros u Hu; vm_compute in Hu; injection Hu as <-; reflexivity).
  pose proof (validateUserId_contract "INVALID_REQUEST"
                (JObj [("userId", JStr "  telegram_123 "); ("txParams", JNull)])
                eq_refl Ha) as H.
  destruct (validateUserId _ _) as [st msg err|body'|] eqn:E in H.
  - vm_compute in E. discriminate E.
  - exists body'. split; [exact E|].
    destruct H as (u & l & r & Hu & _ & _ & _ & _ & _ & _ & Hid & Hother & _).
    vm_compute in Hu. injection Hu as <-. split.
    + rewrite Hid. vm_compute. reflexivity.
    + rewrite Hother by discriminate. reflexivity.
  - destruct H.
Defined.

Lemma validateTxParams_contract_witness :
  validateTxParams "INVALID_REQUEST"
    (JObj [("txParams", JObj [("to", JStr "not an address"); ("value", JNum 0)])])
  = Continue (JObj [("txParams", JObj [("to", JStr "not an address"); ("value", JNum 0)])]).
Proof.
  pose proof (validateTxParams_contract "INVALID_REQUEST"
                (JObj [("txParams", JObj [("to", JStr "not an address"); ("value", JNum 0)])])
                eq_refl) as H.
  destruct (validateTxParams _ _) as [st msg err|b|] eqn:E in H.
  - vm_compute in E. discriminate E.
  - destruct H as [-> _]. exact E.
  - destruct H.
Defined.

End MiddlewareFacts.

(** ** The wallet routes *)

Module WalletRoutesFacts.

Import Routes Middleware WalletRoutes MiddlewareFacts.

Section Router.

Variable INVALID_REQUEST : string.
Variable WALLET_CREATION_FAILED : string.
Variable SESSION_NOT_FOUND : string.
Variable TRANSACTION_FAILED : string.
Variable connect : JsValue -> option ConnectResult.
Variable transact : JsValue -> JsValue -> option TransactResult.
Variable disconnect : JsValue -> option DisconnectResult.
Variable getSession : string -> option (option Session).

(** A handler behind validateUserId runs only on a request whose userId is
    a string that is not blank, and sees the trimmed user id and the other
    members of the body as they were. *)
Lemma guarded_by_userId (h : JsValue -> Served) (body : JsValue) :
  nullish body = false -> asciiUserId body ->
  (guarded (validateUserId INVALID_REQUEST) h body
   = Sent 400 (mkApiResponse false None "userId is required" (Some INVALID_REQUEST)) []
   /\ forall u, get body "userId" = JStr u -> blank u = true)
  \/ exists u body',
       get body "userId" = JStr u /\ trim u <> ""
       /\ guarded (validateUserId INVALID_REQUEST) h body = h body'
       /\ nullish body' = false
       /\ get body' "userId" = JStr (trim u)
       /\ forall k, k <> "userId" -> get body' k = get body k.
Proof.
  clear WALLET_CREATION_FAILED SESSION_NOT_FOUND TRANSACTION_FAILED
        connect transact disconnect getSession.
  intros Hnull _. unfold guarded.
  destruct (validateUserId_cases INVALID_REQUEST body Hnull)
    as [[-> Hblank]|(u & body' & Hu & Ht & -> & Hnull' & Hid & Hother)]; [now left|].
  right. now exists u, body'.
Qed.

(** X11: POST /connect, on a body that is not undefined or null (and with
    a user id in ASCII), calls the wallet service at most once, and only
    with a user id that is a trimmed string that is not empty.  When the
    call returns it answers 200 exactly when the service reports success
    together with a wallet id and a wallet address that are not empty,
    and 500 otherwise, with the error of the service or
    WALLET_CREATION_FAILED; when the call fails the route sends nothing
    itself.  A request whose userId is missing, not a string or blank is
    answered 400 and the service is not called. *)
Theorem postConnect_contract (body : JsValue) :
  nullish body = false -> asciiUserId body ->
  let served := postConnect INVALID_REQUEST WALLET_CREATION_FAILED connect body in
  (served = Sent 400 (mkApiResponse false None "userId is required"
                                    (Some INVALID_REQUEST)) []
   /\ forall u, get body "userId" = JStr u -> blank u = true)
  \/ exists u,
       get body "userId" = JStr u /\ trim u <> ""
       /\ match connect (JStr (trim u)) with
          | None => served = Unhandled [CallConnect (JStr (trim u))]
          | Some result =>
              exists st resp,
                served = Sent st resp [CallConnect (JStr (trim u))]
                /\ ((st = 200 /\ success resp = true
                     /\ connect_success result = true
                     /\ exists w a,
                          present (connect_walletId result) = Some w
                          /\ present (connect_walletAddress result) = Some a
                          /\ data resp
                             = Some (ConnectData w a (connect_privyUserId result)
                                       (default false (connect_isNewUser result))))
                    \/ (st = 500 /\ success resp = false /\ data resp = None
                        /\ (connect_success result = false
                            \/ present (connect_walletId result) = None
                            \/ present (connect_walletAddress result) = None)
                        /\ error resp
                           = Some (default WALLET_CREATION_FAILED
                                           (present (connect_error result)))))
          end.
Proof.
  clear SESSION_NOT_FOUND TRANSACTION_FAILED transact disconnect getSession.
  intros Hnull Hascii. cbv zeta. unfold postConnect.
  destruct (guarded_by_userId (connectHandler WALLET_CREATION_FAILED connect) body
                              Hnull Hascii)
    as [[E Hblank]|(u & body' & Hu & Ht & E & _ & Hid & _)]; [now left|].
  right. rewrite E. unfold connectHandler. cbv zeta. rewrite Hid.
  exists u. split; [exact Hu|]. split; [exact Ht|].
  destruct (connect (JStr (trim u))) as [result|]; [|reflexivity].
  destruct (connect_success result) eqn:Hs;
    destruct (present (connect_walletId result)) as [w|] eqn:Hw;
    destruct (present (connect_walletAddress result)) as [a|] eqn:Ha;
    eexists _, _; (split; [reflexivity|]);
    cbn [success data error];
    first [ left; repeat split; eauto; fail
          | right; repeat split; eauto ].
Qed.

(** X12: POST /transact checks the user id before the transaction
    parameters, and calls the wallet service at most once, with the
    trimmed user id and the txParams of the body, only when both checks
    pass: the user id is a string that is not blank, and txParams is an
    object whose to is a string that is not empty and whose value is
    neither undefined nor null.  A request that passes the first check
    and fails the second is answered 400 with the message of the part of
    txParams that is wrong, the service not being called.  When the call
    returns the route answers 200 exactly when the service reports
    success with a hash that is not empty; failing that, 401 exactly when
    the error of the service is SESSION_NOT_FOUND; and 500 otherwise.
    When the call fails the route sends nothing itself. *)
Theorem postTransact_contract (body : JsValue) :
  nullish body = false -> asciiUserId body ->
  let served := postTransact INVALID_REQUEST SESSION_NOT_FOUND TRANSACTION_FAILED
                             transact body in
  (served = Sent 400 (mkApiResponse false None "userId is required"
                                    (Some INVALID_REQUEST)) []
   /\ forall u, get body "userId" = JStr u -> blank u = true)
  \/ exists u,
       get body "userId" = JStr u /\ trim u <> ""
       /\ ((exists msg,
              served = Sent 400 (mkApiResponse false None msg (Some INVALID_REQUEST)) []
              /\ ((msg = "txParams is required"
                   /\ forall props, get body "txParams" <> JObj props)
                  \/ (msg = "txParams.to is required and must be a valid address"
                      /\ forall t, get (get body "txParams") "to" = JStr t -> t = "")
                  \/ (msg = "txParams.value is required"
                      /\ nullish (get (get body "txParams") "value") = true)))
           \/ ((exists props t,
                  get body "txParams" = JObj props
                  /\ assoc "to" props = JStr t /\ t <> ""
                  /\ nullish (assoc "value" props) = false)
               /\ match transact (JStr (trim u)) (get body "txParams") with
                  | None =>
                      served
                      = Unhandled [CallTransact (JStr (trim u)) (get body "txParams")]
                  | Some result =>
                      exists st resp,
                        served = Sent st resp
                                      [CallTransact (JStr (trim u))
                                                    (get body "txParams")]
                        /\ let sent := match transact_success result,
                                             present (transact_hash result) with
                                       | true, Some _ => true
                                       | _, _ => false
                                       end in
                           (st = 200 <-> sent = true)
                           /\ (st = 401 <->
                               sent = false
                               /\ transact_error result = Some SESSION_NOT_FOUND)
                           /\ (st = 200 \/ st = 401 \/ st = 500)
                           /\ success resp = bool_decide (st = 200)
                  end)).
Proof.
  clear WALLET_CREATION_FAILED connect disconnect getSession.
  intros Hnull Hascii. cbv zeta. unfold postTransact.
  destruct (guarded_by_userId
              (guarded (validateTxParams INVALID_REQUEST)
                       (transactHandler SESSION_NOT_FOUND TRANSACTION_FAILED transact))
              body Hnull Hascii)
    as [[E Hblank]|(u & body' & Hu & Ht & E & Hnull' & Hid & Hother)]; [now left|].
  right. exists u. split; [exact Hu|]. split; [exact Ht|]. rewrite E.
  unfold guarded.
  destruct (validateTxParams_cases INVALID_REQUEST body' Hnull')
    as [[-> Hpass]|(msg & -> & Hfail)];
    rewrite (Hother "txParams") in * by discriminate.
  - right. split; [exact Hpass|]. unfold transactHandler. cbv zeta.
    rewrite Hid, (Hother "txParams") by discriminate.
    destruct (transact (JStr (trim u)) (get body "txParams")) as [result|];
      [|reflexivity].
    destruct (transact_success result); destruct (present (transact_hash result));
      try (eexists _, _; split; [reflexivity|]; cbn [success];
           repeat split; try tauto; try discriminate; intros; try lia; easy);
      destruct (bool_decide (transact_error result = Some SESSION_NOT_FOUND)) eqn:Hd;
      eexists _, _; (split; [reflexivity|]); cbn [success];
      try apply bool_decide_eq_true in Hd; try apply bool_decide_eq_false in Hd;
      repeat split; try tauto; try discriminate; intros; try lia; try easy;
      try (destruct H; contradiction).
  - left. exists msg. split; [reflexivity|exact Hfail].
Qed.

(** X13: POST /disconnect, once the user id has passed validation, calls
    the wallet service once with the trimmed id and, when the call
    returns, answers 200 with success true whether or not the service
    found a session to end. *)
Theorem postDisconnect_contract (body : JsValue) :
  nullish body = false -> asciiUserId body ->
  let served := postDisconnect INVALID_REQUEST disconnect body in
  (served = Sent 400 (mkApiResponse false None "userId is required"
                                    (Some INVALID_REQUEST)) []
   /\ forall u, get body "userId" = JStr u -> blank u = true)
  \/ exists u,
       get body "userId" = JStr u /\ trim u <> ""
       /\ match disconnect (JStr (trim u)) with
          | None => served = Unhandled [CallDisconnect (JStr (trim u))]
          | Some result =>
              exists resp,
                served = Sent 200 resp [CallDisconnect (JStr (trim u))]
                /\ success resp = true /\ error resp = None
                /\ (is_Some (data resp) <-> disconnect_success result = true)
          end.
Proof.
  clear WALLET_CREATION_FAILED SESSION_NOT_FOUND TRANSACTION_FAILED
        connect transact getSession.
  intros Hnull Hascii. cbv zeta. unfold postDisconnect.
  destruct (guarded_by_userId (disconnectHandler disconnect) body Hnull Hascii)
    as [[E Hblank]|(u & body' & Hu & Ht & E & _ & Hid & _)]; [now left|].
  right. rewrite E. unfold disconnectHandler. cbv zeta. rewrite Hid.
  exists u. split; [exact Hu|]. split; [exact Ht|].
  destruct (disconnect (JStr (trim u))) as [result|]; [|reflexivity].
  destruct (disconnect_success result);
    eexists; (split; [reflexivity|]);
    cbn [success error data]; repeat split; eauto; try discriminate.
  intros [? ?]. discriminate.
Qed.

(** X14: GET /session/:userId, for a user id in ASCII, answers 400, the
    service not being called, exactly when the user id is empty or
    blank; otherwise it looks the trimmed id up once and, when the lookup
    returns, answers 200, hasSession telling whether a session was
    found. *)
Theorem getSessionRoute_contract (userId : string) :
  asciiText userId = true ->
  let served := getSessionRoute INVALID_REQUEST getSession userId in
  (blank userId = true ->
   served = Sent 400 (mkApiResponse false None "userId parameter is required"
                                    (Some INVALID_REQUEST)) [])
  /\ (blank userId = false ->
      match getSession (trim userId) with
      | None => served = Unhandled [CallGetSession (trim userId)]
      | Some session =>
          exists resp,
            served = Sent 200 resp [CallGetSession (trim userId)]
            /\ success resp = true
            /\ data resp
               = Some (SessionData (bool_decide (is_Some session))
                         (session ≫= session_walletId)
                         (session ≫= session_walletAddress))
      end).
Proof.
  clear WALLET_CREATION_FAILED SESSION_NOT_FOUND TRANSACTION_FAILED
        connect transact disconnect.
  intros _. cbv zeta. unfold getSessionRoute. split; intros Hb.
  - apply trim_blank in Hb as Ht. rewrite Ht. cbn. now rewrite orb_true_r.
  - destruct (String.eqb_spec userId "") as [->|_]; [discriminate|].
    destruct (String.eqb_spec (trim userId) "") as [Ht|_].
    + apply trim_blank in Ht. congruence.
    + cbn [orb]. destruct (getSession (trim userId)) as [session|]; [|reflexivity].
      eexists. repeat split.
Qed.

End Router.

Import Samples MoreSamples.

Lemma connectBody_ascii : asciiUserId connectBody.
Proof. intros u Hu. vm_compute in Hu. injection Hu as <-. reflexivity. Qed.

Lemma postConnect_contract_witness :
  nullish connectBody = false /\ asciiUserId connectBody
  /\ (exists resp,
       postConnect "INVALID_REQUEST" "WALLET_CREATION_FAILED" connecting connectBody
       = Sent 200 resp [CallConnect (JStr "telegram_123")])
  /\ (exists resp,
       postConnect "INVALID_REQUEST" "WALLET_CREATION_FAILED" halfConnected connectBody
       = Sent 500 resp [CallConnect (JStr "telegram_123")])
  /\ postConnect "INVALID_REQUEST" "WALLET_CREATION_FAILED" (fun _ => None) connectBody
     = Unhandled [CallConnect (JStr "telegram_123")].
Proof.
  split; [reflexivity|]. split; [exact connectBody_ascii|]. split; [|split].
  - pose proof (postConnect_contract "INVALID_REQUEST" "WALLET_CREATION_FAILED" connecting
                  connectBody eq_refl connectBody_ascii) as H.
    cbv zeta in H.
    set (served := postConnect "INVALID_REQUEST" "WALLET_CREATION_FAILED" connecting
                               connectBody) in *.
    destruct H as [[E _]|(u & Hu & _ & H)]; [vm_compute in E; discriminate E|].
    vm_compute in Hu. injection Hu as <-.
    cbv beta iota delta [connecting] in H.
    destruct H as (st & resp & E & H). exists resp. rewrite E.
    destruct H as [(-> & _)|(_ & _ & _ & [H|[H|H]] & _)];
      [vm_compute; reflexivity|vm_compute in H; discriminate H..].
  - pose proof (postConnect_contract "INVALID_REQUEST" "WALLET_CREATION_FAILED"
                  halfConnected connectBody eq_refl connectBody_ascii) as H.
    cbv zeta in H.
    set (served := postConnect "INVALID_REQUEST" "WALLET_CREATION_FAILED" halfConnected
                               connectBody) in *.
    destruct H as [[E _]|(u & Hu & _ & H)]; [vm_compute in E; discriminate E|].
    vm_compute in Hu. injection Hu as <-.
    cbv beta iota delta [halfConnected] in H.
    destruct H as (st & resp & E & H). exists resp. rewrite E.
    destruct H as [(_ & _ & _ & w & a & _ & H & _)|(-> & _)];
      [vm_compute in H; discriminate H|vm_compute; reflexivity].
  - destruct (postConnect_contract "INVALID_REQUEST" "WALLET_CREATION_FAILED"
                (fun _ => None) connectBody eq_refl connectBody_ascii)
      as [[E _]|(u & Hu & _ & H)]; [vm_compute in E; discriminate E|].
    vm_compute in Hu. injection Hu as <-. rewrite H. vm_compute. reflexivity.
Defined.

Lemma postTransact_contract_witness :
  nullish connectBody = false /\ asciiUserId connectBody
  /\ exists resp,
       postTransact "INVALID_REQUEST" "SESSION_NOT_FOUND" "TRANSACTION_FAILED"
                    sessionless connectBody
       = Sent 401 resp
              [CallTransact (JStr "telegram_123")
                            (JObj [("to", JStr "0xrecipient"); ("value", JStr "0")])].
Proof.
  split; [reflexivity|]. split; [exact connectBody_ascii|].
  pose proof (postTransact_contract "INVALID_REQUEST" "SESSION_NOT_FOUND"
                "TRANSACTION_FAILED" sessionless connectBody eq_refl connectBody_ascii)
    as H.
  cbv zeta in H.
  set (served := postTransact "INVALID_REQUEST" "SESSION_NOT_FOUND" "TRANSACTION_FAILED"
                              sessionless connectBody) in *.
  destruct H as [[E _]|(u & Hu & _ & [(msg & E & _)|[_ H]])];
    [vm_compute in E; discriminate E|vm_compute in E; discriminate E|].
  vm_compute in Hu. injection Hu as <-.
  cbv beta iota delta [sessionless] in H.
  destruct H as (st & resp & E & _ & H401 & _).
  exists resp. rewrite E.
  assert (st = 401) as -> by (apply H401; split; reflexivity).
  vm_compute. reflexivity.
Defined.

Lemma postDisconnect_contract_witness :
  nullish connectBody = false /\ asciiUserId connectBody
  /\ exists resp,
       postDisconnect "INVALID_REQUEST" nothingToEnd connectBody
       = Sent 200 resp [CallDisconnect (JStr "telegram_123")]
       /\ success resp = true.
Proof.
  split; [reflexivity|]. split; [exact connectBody_ascii|].
  pose proof (postDisconnect_contract "INVALID_REQUEST" nothingToEnd connectBody
                eq_refl connectBody_ascii) as H.
  cbv zeta in H.
  set (served := postDisconnect "INVALID_REQUEST" nothingToEnd connectBody) in *.
  destruct H as [[E _]|(u & Hu & _ & H)]; [vm_compute in E; discriminate E|].
  vm_compute in Hu. injection Hu as <-.
  cbv beta iota delta [nothingToEnd] in H.
  destruct H as (resp & E & Hs & _).
  exists resp. rewrite E. split; [vm_compute; reflexivity|exact Hs].
Defined.

Lemma getSessionRoute_contract_witness :
  asciiText "   " = true /\ blank "   " = true
  /\ getSessionRoute "INVALID_REQUEST" (fun _ => None) "   "
     = Sent 400 (mkApiResponse false None "userId parameter is required"
                               (Some "INVALID_REQUEST")) [].
Proof.
  split; [reflexivity|]. split; [reflexivity|].
  apply (getSessionRoute_contract "INVALID_REQUEST" (fun _ => None) "   " eq_refl).
  reflexivity.
Defined.

End WalletRoutesFacts.

(** ** The answers of the positions route *)

Module PositionsRouteFacts.

Import Routes.

Section Handler.

Variable invalidRequest internalError : string.
Variable core : string -> option Z -> option V4PositionsResult.
Variable isoNow : string.

(** X15: for a chainId parameter in ASCII, the positions route calls the
    core at most once, and not at all exactly when it answers 400.  When it calls the core and the call
    returns, it answers 200 if the core reports success with a position
    list, echoing the wallet address as it was given, the positions and
    chain errors of the core, 0 for a total the core left out and the
    time of the answer; and 500 otherwise, with the error of the core or
    INTERNAL_ERROR.  When the call throws or is rejected the route sends
    no answer itself. *)
Theorem positions_route_answers (wallet : string) (p : QueryValue) :
  asciiText (chainIdStr p) = true ->
  let h := positionsHandler invalidRequest internalError core isoNow wallet p in
  (coreCalls h = []
   /\ exists b, sent h = Some (400, b) /\ resp_success b = false /\ resp_data b = None)
  \/ exists c,
       coreCalls h = [(wallet, c)]
       /\ match core wallet c with
          | None => sent h = None
          | Some result =>
              match success result, positions result with
              | true, Some ps =>
                  sent h
                  = Some (200,
                          mkApiResponse true
                            (Some (mkV4PositionsResponseData wallet ps
                                     (default 0%Q (totalValueUsd result))
                                     (default 0%Q (totalFeesUsd result))
                                     isoNow (chainErrors result)))
                            ("Found " ++ pretty (length ps) ++ " positions") None)
              | _, _ =>
                  exists b,
                    sent h = Some (500, b)
                    /\ resp_success b = false /\ resp_data b = None
                    /\ resp_error b
                       = Some (default internalError
                                       (WalletRoutes.present (error result)))
              end
          end.
Proof.
  intros _. cbv zeta. unfold positionsHandler.
  destruct (String.eqb wallet "" || negb (addressPattern wallet));
    [left; split; [reflexivity|]; eexists; now repeat split|].
  assert (Hrespond : forall c,
    coreCalls (respond internalError core isoNow wallet c) = [(wallet, c)]
    /\ match core wallet c with
       | None => sent (respond internalError core isoNow wallet c) = None
       | Some result =>
           match success result, positions result with
           | true, Some ps =>
               sent (respond internalError core isoNow wallet c)
               = Some (200,
                       mkApiResponse true
                         (Some (mkV4PositionsResponseData wallet ps
                                  (default 0%Q (totalValueUsd result))
                                  (default 0%Q (totalFeesUsd result))
                                  isoNow (chainErrors result)))
                         ("Found " ++ pretty (length ps) ++ " positions") None)
           | _, _ =>
               exists b,
                 sent (respond internalError core isoNow wallet c) = Some (500, b)
                 /\ resp_success b = false /\ resp_data b = None
                 /\ resp_error b
                    = Some (default internalError
                                    (WalletRoutes.present (error result)))
           end
       end).
  { intros c. unfold respond. destruct (core wallet c) as [result|]; [|now split].
    destruct (success result), (positions result); cbn [coreCalls sent];
      (split; [reflexivity|]); try reflexivity;
      eexists; (split; [reflexivity|]); cbn [resp_success resp_data resp_error];
      repeat split; destruct (error result) as [e|]; try reflexivity;
      cbn; now destruct (String.eqb e ""). }
  destruct (provided p).
  - destruct (includes (parseInt (chainIdStr p))); cbn [negb];
      [|left; split; [reflexivity|]; eexists; now repeat split].
    right. exists (parseInt (chainIdStr p)). apply Hrespond.
  - right. exists None. apply Hrespond.
Qed.

End Handler.

Lemma positions_route_answers_witness :
  let h := positionsHandler "INVALID_REQUEST" "INTERNAL_ERROR" (fun _ _ => None)
                            "2026-02-06T14:10:00.000Z" Samples.wallet
                            (QSingle (QString "8453")) in
  asciiText (chainIdStr (QSingle (QString "8453"))) = true
  /\ coreCalls h = [(Samples.wallet, Some 8453)] /\ sent h = None.
Proof.
  cbv zeta. split; [reflexivity|].
  destruct (positions_route_answers "INVALID_REQUEST" "INTERNAL_ERROR" (fun _ _ => None)
              "2026-02-06T14:10:00.000Z" Samples.wallet (QSingle (QString "8453"))
              eq_refl)
    as [[E _]|(c & E & H)]; [vm_compute in E; discriminate E|].
  split; [vm_compute; reflexivity|exact H].
Defined.

End PositionsRouteFacts.

(** ** The /transact command of the bot *)

Module TransactCommandFacts.

Import Middleware TransactCommand.

Local Open Scope task_scope.

Lemma sends_snoc_message (log : list Effect) (c : Z) (t : string) :
  sends (log ++ [SendMessage c t]) = S (sends log).
Proof.
  unfold sends. rewrite List.filter_app, List.length_app. cbn. lia.
Qed.

Lemma sends_snoc_transaction (log : list Effect) (w c : string) (tx : JsValue) :
  sends (log ++ [SendTransaction w c tx]) = sends log.
Proof.
  unfold sends. rewrite List.filter_app, List.length_app. cbn. lia.
Qed.

Section WithDependencies.

Variable NO_SESSION : string.
Variable TRANSACTION_FAILED : string.
Variable GENERIC_ERROR : string.
Variable TRANSACTION_TIMEOUT : string.
Variable TRANSACTION_CANCELED : string.
Variable INVALID_RESPONSE : string.
Variable TRANSACTION_SENT : string -> string.
Variable deps : Dependencies.

Lemma sendMessage_cases (c : Z) (t : string) (log : list Effect) :
  (sendMessage deps c t log = (Returned tt, (log ++ [SendMessage c t])%list)
   /\ bot_sendMessage deps (sends log) = Fulfilled tt)
  \/ exists e, sendMessage deps c t log = (Thrown e, (log ++ [SendMessage c t])%list)
               /\ bot_sendMessage deps (sends log) = Rejected e.
Proof.
  unfold sendMessage. destruct (bot_sendMessage deps (sends log)) as [[]|e]; eauto.
Qed.

(** A send whose failure is swallowed. *)
Lemma quiet_send (c : Z) (t : string) (log : list Effect) :
  try_catch (sendMessage deps c t) (fun _ => ret tt) log
  = (Returned tt, (log ++ [SendMessage c t])%list).
Proof.
  unfold try_catch.
  destruct (sendMessage_cases c t log) as [[-> _]|(e & -> & _)]; reflexivity.
Qed.

Ltac tidy := rewrite <- ?app_assoc; cbn [app].

(** The listener never throws; its calls go to the chat of the command and
    the wallet of its session; it sends the transaction, first of all,
    exactly on a confirmation that approves. *)
Lemma confirm_spec (p : Pending) (m : option Message) (log : list Effect) :
  exists added,
    confirm TRANSACTION_FAILED TRANSACTION_CANCELED INVALID_RESPONSE TRANSACTION_SENT
            deps p m log
    = (Returned tt, (log ++ added)%list)
    /\ (length added <= 4)%nat
    /\ Forall (addressed p) added
    /\ if approves (userId p) m
       then exists more, added = SendTransaction (walletId (session p)) CAIP2 txParams :: more
                         /\ Forall (fun e => isSendMessage e = true) more
       else Forall (fun e => isSendMessage e = true) added.
Proof.
  unfold confirm, approves.
  destruct m as [[[sender|] c [t|]]|]; cbn [from text];
    try destruct (Z.eqb_spec sender (userId p)) as [->|Hne]; cbn [negb andb];
    try (destruct (String.eqb_spec t "") as [->|Ht];
         [change (trim (toLowerCase "")) with ""; cbn [String.eqb Ascii.eqb]|]);
    cbv zeta;
    try destruct (String.eqb (trim (toLowerCase t)) "yes") eqn:Hyes;
    try destruct (String.eqb (trim (toLowerCase t)) "no") eqn:Hno;
    unfold try_catch, bind, ret, sendMessage, privy_sendTransaction;
    repeat match goal with
      | |- context [bot_sendMessage deps ?k] =>
          destruct (bot_sendMessage deps k) as [[]|?]; cbn beta iota
      | |- context [sendTransaction deps ?w] =>
          destruct (sendTransaction deps w); cbn beta iota
      end;
    tidy.
  all: first [ eexists; split; [reflexivity|]
             | exists []; split; [rewrite app_nil_r; reflexivity|] ].
  all: cbn [length]; (split; [lia|]).
  all: split; [repeat constructor|].
  all: try (eexists; split; [reflexivity|]); repeat constructor.
Qed.


Lemma onMessage_spec (p : Pending) (m : option Message) (log : list Effect) :
  listening p = true ->
  exists added,
    onMessage TRANSACTION_FAILED TRANSACTION_CANCELED INVALID_RESPONSE TRANSACTION_SENT
              deps p m log
    = (Returned (mkPending (userId p) (chatId p) (session p) true false false),
       (log ++ added)%list)
    /\ (length added <= 4)%nat
    /\ Forall (addressed p) added
    /\ if approves (userId p) m
       then exists more, added = SendTransaction (walletId (session p)) CAIP2 txParams :: more
                         /\ Forall (fun e => isSendMessage e = true) more
       else Forall (fun e => isSendMessage e = true) added.
Proof.
  intros Hl. unfold onMessage. rewrite Hl.
  destruct (confirm_spec p m log) as (added & E & H).
  exists added. split; [|exact H]. unfold bind. now rewrite E.
Qed.

Lemma onTimeout_spec (p : Pending) (log : list Effect) :
  onTimeout TRANSACTION_TIMEOUT deps p log
  = (Returned (mkPending (userId p) (chatId p) (session p) (responseReceived p) false
                         (listening p)),
     if timer p && negb (responseReceived p)
     then (log ++ [SendMessage (chatId p) TRANSACTION_TIMEOUT])%list else log).
Proof.
  unfold onTimeout. destruct p as [u c s r [] l]; cbn [timer responseReceived andb];
    [|reflexivity].
  destruct r; cbn [negb]; unfold bind; [reflexivity|]. now rewrite quiet_send.
Qed.

(** Once the listener has run and the timeout is spent nothing is left of
    the command. *)
Lemma run_spent (p : Pending) (inputs : list Input) (log : list Effect) :
  listening p = false -> timer p = false ->
  run TRANSACTION_FAILED TRANSACTION_TIMEOUT TRANSACTION_CANCELED INVALID_RESPONSE
      TRANSACTION_SENT deps p inputs log
  = (Returned p, log).
Proof.
  intros Hl Ht. induction inputs as [|[m|] inputs IH]; [reflexivity| |];
    cbn [run step]; unfold bind.
  - unfold onMessage. rewrite Hl. exact IH.
  - unfold onTimeout. rewrite Ht. exact IH.
Qed.

(** What a command that is still listening does with its inputs. *)
Lemma run_listening (inputs : list Input) :
  forall (p : Pending) (log : list Effect),
  listening p = true ->
  exists p' added,
    run TRANSACTION_FAILED TRANSACTION_TIMEOUT TRANSACTION_CANCELED INVALID_RESPONSE
        TRANSACTION_SENT deps p inputs log
    = (Returned p', (log ++ added)%list)
    /\ Forall (addressed p) added
    /\ ((exists n, inputs = repeat Elapsed n
                   /\ Forall (fun e => isSendMessage e = true) added)
        \/ exists n m rest,
             inputs = (repeat Elapsed n ++ Incoming m :: rest)%list
             /\ if approves (userId p) m
                then exists before more,
                       added = (before ++ SendTransaction (walletId (session p)) CAIP2
                                                          txParams :: more)%list
                       /\ Forall (fun e => isSendMessage e = true) before
                       /\ Forall (fun e => isSendMessage e = true) more
                else Forall (fun e => isSendMessage e = true) added).
Proof.
  induction inputs as [|[m|] inputs IH]; intros p log Hl.
  - exists p, []. rewrite app_nil_r. split; [reflexivity|]. split; [constructor|].
    left. exists 0%nat. split; [reflexivity|constructor].
  - cbn [run step]. unfold bind.
    destruct (onMessage_spec p m log Hl) as (added & -> & _ & Ha & Hm).
    rewrite run_spent by reflexivity.
    eexists _, added. split; [reflexivity|]. split; [exact Ha|].
    right. exists 0%nat, m, inputs. split; [reflexivity|].
    destruct (approves (userId p) m); [|exact Hm].
    destruct Hm as (more & -> & Hmore). exists [], more. repeat split; auto.
  - cbn [run step]. unfold bind. rewrite onTimeout_spec.
    match goal with
    | |- context [run _ _ _ _ _ _ ?q inputs ?l] => set (p1 := q); set (log1 := l)
    end.
    destruct (IH p1 log1 Hl) as (p' & added & -> & Ha & Hcases).
    assert (Hlog1 : exists a1, log1 = (log ++ a1)%list
                               /\ Forall (fun e => isSendMessage e = true) a1
                               /\ Forall (addressed p) a1).
    { subst log1. destruct (timer p && negb (responseReceived p)).
      - eexists. split; [reflexivity|]. split; repeat constructor.
      - exists []. rewrite app_nil_r. repeat constructor. }
    destruct Hlog1 as (a1 & -> & Hs1 & Ha1).
    exists p', (a1 ++ added)%list. split; [now rewrite app_assoc|].
    split; [apply Forall_app; split; [exact Ha1|exact Ha]|].
    destruct Hcases as [(n & -> & Hs)|(n & m & rest & -> & Hm)].
    + left. exists (S n). split; [reflexivity|]. apply Forall_app. now split.
    + right. exists (S n), m, rest. split; [reflexivity|].
      change (userId p1) with (userId p) in Hm.
      change (session p1) with (session p) in Hm.
      destruct (approves (userId p) m).
      * destruct Hm as (before & more & -> & Hb & Hmore).
        exists (a1 ++ before)%list, more. rewrite app_assoc.
        split; [reflexivity|]. split; [|exact Hmore]. apply Forall_app. now split.
      * apply Forall_app. now split.
Qed.

(** The command itself: it registers its callbacks after a prompt that
    was delivered, or returns having registered nothing. *)
Lemma handleTransact_cases (msg : Message) (log : list Effect) :
  (exists p,
     handleTransact NO_SESSION GENERIC_ERROR deps msg log
     = (Returned (Some p), (log ++ [SendMessage (chatId p) PROMPT])%list)
     /\ from msg = Some (userId p) /\ chat msg = Some (chatId p) /\ chatId p <> 0
     /\ sessions_get deps (userId p) = Some (session p)
     /\ responseReceived p = false /\ timer p = true /\ listening p = true
     /\ bot_sendMessage deps (sends log) = Fulfilled tt)
  \/ exists added,
       handleTransact NO_SESSION GENERIC_ERROR deps msg log
       = (Returned None, (log ++ added)%list)
       /\ (length added <= 2)%nat
       /\ Forall (fun e => isSendMessage e = true) added
       /\ ((from msg = None \/ chat msg = None \/ chat msg = Some 0) -> added = [])
       /\ forall u c, from msg = Some u -> chat msg = Some c -> c <> 0 ->
            (sessions_get deps u = None
             /\ exists rest, added = SendMessage c NO_SESSION :: rest)
            \/ exists s e,
                 sessions_get deps u = Some s
                 /\ bot_sendMessage deps (sends log) = Rejected e
                 /\ added = [SendMessage c PROMPT;
                             SendMessage c (GENERIC_ERROR ++ LF ++ LF ++ "Error: " ++ e)].
Proof.
  unfold handleTransact.
  destruct msg as [[u|] [c|] t]; cbn [from chat].
  2-4: right; exists []; rewrite app_nil_r; unfold try_catch, ret;
       split; [reflexivity|]; split; [cbn; lia|]; split; [constructor|];
       split; [reflexivity|]; intros; discriminate.
  destruct (Z.eqb_spec c 0) as [->|Hc].
  { right. exists []. rewrite app_nil_r. unfold try_catch, ret.
    split; [reflexivity|]. split; [cbn; lia|]. split; [constructor|].
    split; [reflexivity|]. intros u' c' _ [= <-] Hc'. contradiction. }
  cbv beta iota. unfold try_catch, bind, ret. cbv beta.
  destruct (sessions_get deps u) as [s|] eqn:Hs.
  - destruct (sendMessage_cases c PROMPT log) as [[-> H0]|(e & -> & H0)].
    + left. exists (mkPending u c s false true true). cbn. repeat split; auto.
    + right.
      destruct (sendMessage_cases c (GENERIC_ERROR ++ LF ++ LF ++ "Error: " ++ e)
                                  (log ++ [SendMessage c PROMPT]))
        as [[-> _]|(e' & -> & _)];
        tidy; (eexists; split; [reflexivity|]);
        (split; [cbn; lia|]); (split; [repeat constructor|]);
        (split; [intros [H|[H|H]]; [discriminate H|discriminate H|congruence]|]);
        intros u' c' [= <-] [= <-] _; right; exists s, e; now rewrite Hs.
  - right.
    destruct (sendMessage_cases c NO_SESSION log) as [[-> H0]|(e & -> & H0)].
    + eexists. split; [reflexivity|].
      split; [cbn; lia|]. split; [repeat constructor|].
      split; [intros [H|[H|H]]; [discriminate H|discriminate H|congruence]|].
      intros u' c' [= <-] [= <-] _. left. rewrite Hs. split; [reflexivity|]. now eexists.
    + destruct (sendMessage_cases c (GENERIC_ERROR ++ LF ++ LF ++ "Error: " ++ e)
                                  (log ++ [SendMessage c NO_SESSION]))
        as [[-> _]|(e' & -> & _)];
        tidy; (eexists; split; [reflexivity|]);
        (split; [cbn; lia|]); (split; [repeat constructor|]);
        (split; [intros [H|[H|H]]; [discriminate H|discriminate H|congruence]|]);
        intros u' c' [= <-] [= <-] _; left; rewrite Hs; (split; [reflexivity|]);
        now eexists.
Qed.

Lemma no_transactions (l : list Effect) :
  Forall (fun e => isSendMessage e = true) l -> List.filter isTransaction l = [].
Proof.
  induction 1 as [|e l He _ IH]; [reflexivity|].
  cbn. unfold isTransaction at 1. now rewrite He.
Qed.

Lemma not_a_message (l : list Effect) (w c : string) (tx : JsValue) :
  Forall (fun e => isSendMessage e = true) l -> SendTransaction w c tx ∉ l.
Proof.
  intros H Hin. rewrite Forall_forall in H. apply H in Hin. discriminate Hin.
Qed.


Lemma run_until_message (m : option Message) (rest : list Input) (n : nat) :
  forall (p : Pending) (log : list Effect),
  (listening p = false -> timer p = false) ->
  run TRANSACTION_FAILED TRANSACTION_TIMEOUT TRANSACTION_CANCELED INVALID_RESPONSE
      TRANSACTION_SENT deps p (repeat Elapsed n ++ Incoming m :: rest) log
  = run TRANSACTION_FAILED TRANSACTION_TIMEOUT TRANSACTION_CANCELED INVALID_RESPONSE
        TRANSACTION_SENT deps p (repeat Elapsed n ++ [Incoming m]) log.
Proof.
  induction n as [|n IH]; intros p log Hinv; cbn [repeat app run step]; unfold bind.
  - destruct (listening p) eqn:Hl.
    + destruct (onMessage_spec p m log Hl) as (added & -> & _).
      now rewrite !run_spent by reflexivity.
    + unfold onMessage. rewrite Hl. unfold ret.
      now rewrite !run_spent by auto.
  - rewrite onTimeout_spec. apply IH. reflexivity.
Qed.

(** X16: handleTransact never throws and never sends a transaction
    itself.  It registers its listener and its timeout exactly when the
    message has a sender and a chat id other than 0, the sender has a
    session and the prompt could be delivered; the prompt is then its
    only call.  A sender without a session is told NO_SESSION and nothing
    is registered; a message without a sender or a chat id causes no call
    at all. *)
Theorem handleTransact_contract (msg : Message) (log : list Effect) :
  exists registered added,
    handleTransact NO_SESSION GENERIC_ERROR deps msg log
    = (Returned registered, (log ++ added)%list)
    /\ Forall (fun e => isSendMessage e = true) added
    /\ (length added <= 2)%nat
    /\ (forall p, registered = Some p ->
          added = [SendMessage (chatId p) PROMPT]
          /\ from msg = Some (userId p) /\ chat msg = Some (chatId p)
          /\ chatId p <> 0
          /\ sessions_get deps (userId p) = Some (session p)
          /\ bot_sendMessage deps (sends log) = Fulfilled tt
          /\ responseReceived p = false /\ timer p = true /\ listening p = true)
    /\ (registered = None ->
        forall u c, from msg = Some u -> chat msg = Some c -> c <> 0 ->
          (sessions_get deps u = None
           /\ exists rest, added = SendMessage c NO_SESSION :: rest)
          \/ exists s e,
               sessions_get deps u = Some s
               /\ bot_sendMessage deps (sends log) = Rejected e
               /\ added = [SendMessage c PROMPT;
                           SendMessage c (GENERIC_ERROR ++ LF ++ LF ++ "Error: " ++ e)])
    /\ ((from msg = None \/ chat msg = None \/ chat msg = Some 0) ->
        registered = None /\ added = []).
Proof.
  destruct (handleTransact_cases msg log)
    as [(p & E & Hf & Hc & Hc0 & Hs & Hr & Ht & Hl & H0)
       |(added & E & Hlen & Hsend & Hnone & Hother)].
  - exists (Some p), [SendMessage (chatId p) PROMPT]. split; [exact E|].
    split; [repeat constructor|]. split; [cbn; lia|].
    split; [intros p' [= <-]; repeat split; assumption|].
    split; [discriminate|].
    intros [H|[H|H]]; congruence.
  - exists None, added. split; [exact E|]. split; [exact Hsend|]. split; [exact Hlen|].
    split; [discriminate|]. split; [intros _; exact Hother|].
    intros H. split; [reflexivity|]. now apply Hnone.
Qed.

(** X17: in a conversation the transaction is sent at most once, and
    only when the first message to come in after the prompt is a message
    of the user who gave the command whose text (in ASCII) is yes, in any
    case and with any white space around it; it is then sent from the
    wallet of the session that the user had when the command was given,
    on eip155:1 and with the sample parameters. *)
Theorem transaction_needs_confirmation (msg : Message) (inputs : list Input) :
  Forall asciiInput inputs ->
  let made := calls NO_SESSION TRANSACTION_FAILED GENERIC_ERROR TRANSACTION_TIMEOUT
                    TRANSACTION_CANCELED INVALID_RESPONSE TRANSACTION_SENT deps
                    msg inputs in
  (length (List.filter isTransaction made) <= 1)%nat
  /\ forall w c tx,
       SendTransaction w c tx ∈ made ->
       exists u s n m rest,
         from msg = Some u /\ sessions_get deps u = Some s
         /\ w = walletId s /\ c = "eip155:1" /\ tx = txParams
         /\ inputs = (repeat Elapsed n ++ Incoming m :: rest)%list
         /\ approves u m = true.
Proof.
  intros _. cbv zeta. unfold calls, conversation, bind.
  destruct (handleTransact_cases msg [])
    as [(p & -> & Hf & Hc & Hc0 & Hs & Hr & Ht & Hl & H0)
       |(added & -> & Hlen & Hsend & _)].
  - destruct (run_listening inputs p ([] ++ [SendMessage (chatId p) PROMPT]) Hl)
      as (p' & added & -> & Ha & Hcases).
    unfold ret. cbn [snd app].
    destruct Hcases as [(n & -> & Hsends)|(n & m & rest & -> & Hm)].
    + split.
      * change (List.filter isTransaction (SendMessage (chatId p) PROMPT :: added))
          with (List.filter isTransaction added).
        rewrite no_transactions by exact Hsends. cbn. lia.
      * intros w c tx Hin. apply elem_of_cons in Hin as [Hin|Hin]; [discriminate Hin|].
        now apply not_a_message in Hin.
    + destruct (approves (userId p) m) eqn:Happ.
      * destruct Hm as (before & more & -> & Hb & Hmore). split.
        -- change (List.filter isTransaction (SendMessage (chatId p) PROMPT :: ?l))
             with (List.filter isTransaction l).
           rewrite List.filter_app, no_transactions by exact Hb.
           cbn. rewrite no_transactions by exact Hmore. cbn. lia.
        -- intros w c tx Hin.
           rewrite Forall_forall in Ha.
           apply elem_of_cons in Hin as [Hin|Hin]; [discriminate Hin|].
           apply Ha in Hin. destruct Hin as (-> & -> & ->).
           exists (userId p), (session p), n, m, rest. repeat split; auto.
      * split.
        -- change (List.filter isTransaction (SendMessage (chatId p) PROMPT :: added))
             with (List.filter isTransaction added).
           rewrite no_transactions by exact Hm. cbn. lia.
        -- intros w c tx Hin. apply elem_of_cons in Hin as [Hin|Hin]; [discriminate Hin|].
           now apply not_a_message in Hin.
  - unfold ret. cbn [snd app]. split.
    + rewrite no_transactions by exact Hsend. cbn. lia.
    + intros w c tx Hin. now apply not_a_message in Hin.
Qed.

(** X18: the first message that comes in after the prompt, whoever sent
    it and in whatever chat, ends the conversation: every input after it
    is without effect, a later confirmation of the user included. *)
Theorem first_message_ends_conversation (msg : Message) (n : nat) (m : option Message)
        (rest : list Input) :
  calls NO_SESSION TRANSACTION_FAILED GENERIC_ERROR TRANSACTION_TIMEOUT
        TRANSACTION_CANCELED INVALID_RESPONSE TRANSACTION_SENT deps
        msg (repeat Elapsed n ++ Incoming m :: rest)
  = calls NO_SESSION TRANSACTION_FAILED GENERIC_ERROR TRANSACTION_TIMEOUT
          TRANSACTION_CANCELED INVALID_RESPONSE TRANSACTION_SENT deps
          msg (repeat Elapsed n ++ [Incoming m]).
Proof.
  unfold calls, conversation, bind.
  destruct (handleTransact_cases msg [])
    as [(p & -> & _ & _ & _ & _ & _ & Ht & Hl & _)|(added & -> & _)]; [|reflexivity].
  rewrite run_until_message; [reflexivity|]. congruence.
Qed.

(** X19: neither callback ever throws, whatever the bot and the wallet
    provider do.  A callback makes at most four calls, messages to the
    chat of the command and the sample transaction from the wallet of
    its session; it never registers anything again: the listener is gone
    after a message, the timeout after it has fired. *)
Theorem callbacks_contract (p : Pending) (i : Input) (log : list Effect) :
  exists p' added,
    step TRANSACTION_FAILED TRANSACTION_TIMEOUT TRANSACTION_CANCELED INVALID_RESPONSE
         TRANSACTION_SENT deps p i log
    = (Returned p', (log ++ added)%list)
    /\ userId p' = userId p /\ chatId p' = chatId p /\ session p' = session p
    /\ (length added <= 4)%nat
    /\ Forall (addressed p) added
    /\ (listening p' = true -> listening p = true /\ i = Elapsed)
    /\ (timer p' = true -> timer p = true /\ i <> Elapsed).
Proof.
  destruct i as [m|]; cbn [step].
  - destruct (listening p) eqn:Hl.
    + destruct (onMessage_spec p m log Hl) as (added & -> & Hlen & Ha & _).
      eexists _, added. split; [reflexivity|]. cbn [userId chatId session listening timer].
      repeat split; auto; discriminate.
    + unfold onMessage. rewrite Hl. exists p, []. rewrite app_nil_r.
      split; [reflexivity|]. repeat split; auto; try (cbn; lia); try congruence.
  - rewrite onTimeout_spec.
    eexists _, (if timer p && negb (responseReceived p)
                then [SendMessage (chatId p) TRANSACTION_TIMEOUT] else []).
    split.
    + f_equal. destruct (timer p && negb (responseReceived p)); [reflexivity|].
      symmetry. apply app_nil_r.
    + cbn [userId chatId session listening timer].
      destruct (timer p && negb (responseReceived p));
        repeat split; auto; try (cbn; lia); try discriminate; repeat constructor.
Qed.

(** X20: the timeout does not cancel the request.  When the timeout has
    fired and the user has been told so, the listener is still there, and
    a yes of the user that comes in afterwards sends the transaction all
    the same. *)
Theorem timeout_does_not_cancel (msg : Message) (u c : Z) (s : Session)
        (m : option Message) (rest : list Input) :
  from msg = Some u -> chat msg = Some c -> c <> 0 ->
  sessions_get deps u = Some s ->
  bot_sendMessage deps 0 = Fulfilled tt ->
  asciiInput (Incoming m) -> approves u m = true ->
  exists more,
    calls NO_SESSION TRANSACTION_FAILED GENERIC_ERROR TRANSACTION_TIMEOUT
          TRANSACTION_CANCELED INVALID_RESPONSE TRANSACTION_SENT deps
          msg (Elapsed :: Incoming m :: rest)
    = SendMessage c PROMPT :: SendMessage c TRANSACTION_TIMEOUT
      :: SendTransaction (walletId s) "eip155:1" txParams :: more.
Proof.
  intros Hf Hc Hc0 Hs H0 _ Happ. unfold calls, conversation, bind.
  destruct (handleTransact_cases msg [])
    as [(p & -> & Hf' & Hc' & _ & Hs' & Hr & Ht & Hl & _)|(added & _ & _ & _ & _ & H)].
  - assert (userId p = u) as Hu by congruence.
    assert (chatId p = c) as Hch by congruence.
    assert (session p = s) as Hse by congruence.
    cbn [run step]. unfold bind. rewrite onTimeout_spec, Ht, Hr. cbn [andb negb].
    match goal with
    | |- context [onMessage _ _ _ _ _ ?q m ?l] =>
        destruct (onMessage_spec q m l Hl) as (added & -> & _ & _ & Hm)
    end.
    cbn [userId session] in Hm. rewrite Hu, Happ in Hm.
    destruct Hm as (more & -> & _).
    rewrite run_spent by reflexivity. cbn [snd app]. rewrite Hch, Hu, Hse.
    exists more. tidy. reflexivity.
  - destruct (H u c Hf Hc Hc0) as [[Hn _]|(s' & e & _ & He & _)]; [congruence|].
    change (sends []) with 0%nat in He. congruence.
Qed.

(** X21: a receipt that cannot be delivered is reported as a failed
    transaction.  When the user approves, the provider accepts the
    transaction, and the message with its hash is rejected, the next
    message says that the transaction failed, with the error of the
    message that was rejected. *)
Theorem undelivered_receipt_reported_as_failure (p : Pending) (m : option Message)
        (log : list Effect) (hash e : string) :
  listening p = true ->
  asciiInput (Incoming m) -> approves (userId p) m = true ->
  sendTransaction deps (walletId (session p)) = Fulfilled hash ->
  bot_sendMessage deps (sends log) = Rejected e ->
  exists more,
    (onMessage TRANSACTION_FAILED TRANSACTION_CANCELED INVALID_RESPONSE TRANSACTION_SENT
               deps p m log).2
    = (log ++ [SendTransaction (walletId (session p)) "eip155:1" txParams;
               SendMessage (chatId p) (TRANSACTION_SENT hash);
               SendMessage (chatId p)
                           (TRANSACTION_FAILED ++ LF ++ LF ++ "Error: " ++ e)]
           ++ more)%list
    /\ (more = [] \/ more = [SendMessage (chatId p) TRY_AGAIN]).
Proof.
  intros Hl _ Happ Htx Hsend. unfold onMessage. rewrite Hl.
  unfold approves in Happ. unfold confirm.
  destruct m as [[[sender|] c [t|]]|]; cbn [from text] in *; try discriminate Happ.
  apply andb_true_iff in Happ as [Hsender Hyes]. rewrite Hsender. cbn [negb].
  destruct (String.eqb_spec t "") as [->|_]; [discriminate Hyes|].
  cbv zeta. rewrite Hyes.
  unfold try_catch, bind, ret, privy_sendTransaction, sendMessage.
  rewrite Htx. cbv beta iota.
  repeat (rewrite sends_snoc_message || rewrite sends_snoc_transaction).
  rewrite Hsend. cbv beta iota.
  repeat (rewrite sends_snoc_message || rewrite sends_snoc_transaction).
  destruct (bot_sendMessage deps (S (sends log))) as [[]|e']; cbv beta iota.
  - exists []. cbn [snd]. split; [|now left]. tidy. reflexivity.
  - exists [SendMessage (chatId p) TRY_AGAIN]. split; [|now right].
    repeat (rewrite sends_snoc_message || rewrite sends_snoc_transaction).
    destruct (bot_sendMessage deps (S (S (sends log)))) as [[]|e'']; cbn [snd];
      tidy; reflexivity.
Qed.

End WithDependencies.

Import MoreSamples.

Lemma transaction_needs_confirmation_witness :
  Forall asciiInput [Incoming yes]
  /\ exists u s,
       from transactCommand = Some u /\ sessions_get reliable u = Some s
       /\ approves u yes = true
       /\ SendTransaction (walletId s) "eip155:1" txParams
          ∈ calls "NO_SESSION" "TRANSACTION_FAILED" "GENERIC_ERROR" "TRANSACTION_TIMEOUT"
                  "TRANSACTION_CANCELED" "INVALID_RESPONSE" receipt reliable
                  transactCommand [Incoming yes].
Proof.
  assert (Ha : Forall asciiInput [Incoming yes]) by (repeat constructor).
  split; [exact Ha|].
  assert (Hin : SendTransaction "wallet-abc123" "eip155:1" txParams
                ∈ calls "NO_SESSION" "TRANSACTION_FAILED" "GENERIC_ERROR"
                        "TRANSACTION_TIMEOUT" "TRANSACTION_CANCELED" "INVALID_RESPONSE"
                        receipt reliable transactCommand [Incoming yes])
    by (vm_compute; apply list_elem_of_further, list_elem_of_here).
  destruct (proj2 (transaction_needs_confirmation
                     "NO_SESSION" "TRANSACTION_FAILED" "GENERIC_ERROR"
                     "TRANSACTION_TIMEOUT" "TRANSACTION_CANCELED" "INVALID_RESPONSE"
                     receipt reliable transactCommand [Incoming yes] Ha)
                  _ _ _ Hin)
    as (u & s & n & m & rest & Hu & Hs & Hw & _ & _ & Hinputs & Happ).
  exists u, s. split; [exact Hu|]. split; [exact Hs|].
  destruct n as [|n]; [|discriminate Hinputs].
  injection Hinputs as <- _. split; [exact Happ|]. now rewrite <- Hw.
Defined.

Lemma timeout_does_not_cancel_witness :
  exists more,
    calls "NO_SESSION" "TRANSACTION_FAILED" "GENERIC_ERROR" "TRANSACTION_TIMEOUT"
          "TRANSACTION_CANCELED" "INVALID_RESPONSE" receipt reliable
          transactCommand [Elapsed; Incoming yes]
    = SendMessage 123456 PROMPT :: SendMessage 123456 "TRANSACTION_TIMEOUT"
      :: SendTransaction "wallet-abc123" "eip155:1" txParams :: more.
Proof.
  apply (timeout_does_not_cancel
           "NO_SESSION" "TRANSACTION_FAILED" "GENERIC_ERROR" "TRANSACTION_TIMEOUT"
           "TRANSACTION_CANCELED" "INVALID_RESPONSE" receipt reliable
           transactCommand 789 123456 (mkSession "wallet-abc123") yes []);
    try reflexivity.
  discriminate.
Defined.

Lemma undelivered_receipt_reported_as_failure_witness :
  exists more,
    (onMessage "TRANSACTION_FAILED" "TRANSACTION_CANCELED" "INVALID_RESPONSE" receipt
               muted waiting yes [SendMessage 123456 PROMPT]).2
    = ([SendMessage 123456 PROMPT]
         ++ [SendTransaction "wallet-abc123" "eip155:1" txParams;
             SendMessage 123456 (receipt "0xhash");
             SendMessage 123456 ("TRANSACTION_FAILED" ++ LF ++ LF ++ "Error: "
                                 ++ "ETELEGRAM")]
         ++ more)%list.
Proof.
  destruct (undelivered_receipt_reported_as_failure
              "TRANSACTION_FAILED" "TRANSACTION_CANCELED" "INVALID_RESPONSE" receipt
              muted waiting yes [SendMessage 123456 PROMPT] "0xhash" "ETELEGRAM"
              eq_refl eq_refl eq_refl eq_refl eq_refl) as (more & E & _).
  exists more. exact E.
Defined.

End TransactCommandFacts.
